(** * Jejemonly: a shallow embedding of the normalisation pipeline

    The development follows the Python package [J3jemonly]:
    [edit_distance.py], [tokenizer.py], [lemmatizer.py],
    [lexicon_manager.py], [fuzzy_matcher.py] and [jejemon_normalizer.py].

    Modelling conventions.
    - A Python [str] is a [list ascii]; the model covers ASCII text, so
      [\w] is [[a-zA-Z0-9_]], [\d] is [[0-9]], [str.lower] folds [A-Z] and
      [str.split()] splits at the ASCII white space of [str.isspace].
    - A Python [dict] is an association list in insertion order
      (assignment to a present key keeps the key's position).
    - A Python [float] score is an exact rational [Q]: every score is
      [1 - d/m] for a distance [d] and a length [m], or a mean of such.
    - The [print] tracing of the source is a side channel and is left out.
    - A call that may raise returns a [Py.outcome]: the only exceptions
      that the package lets through come from [re.sub], which reads its
      replacement argument as a template and rejects a malformed one. *)

From Stdlib Require Import String Ascii.
From Stdlib Require Import List Arith ZArith Znat Bool Lia QArith Lqa Permutation Sorted.
Import ListNotations.
Close Scope Q_scope.

Definition str := list ascii.

(** A string literal of the source. *)
Definition lit (s : string) : str := list_ascii_of_string s.
Arguments lit s%_string.

(** ** Python string primitives *)
Module Py.

Definition code (c : ascii) : nat := nat_of_ascii c.

Definition between (lo hi : nat) (c : ascii) : bool :=
  (lo <=? code c) && (code c <=? hi).

Definition is_digit (c : ascii) : bool := between 48 57 c.
Definition is_upper (c : ascii) : bool := between 65 90 c.
Definition is_lower (c : ascii) : bool := between 97 122 c.
Definition is_alpha (c : ascii) : bool := is_upper c || is_lower c.

(** [\w] *)
Definition is_word (c : ascii) : bool :=
  is_alpha c || is_digit c || (code c =? 95).

(** [str.isspace] on one ASCII character: TAB..CR and FS..SPACE. *)
Definition is_space (c : ascii) : bool := between 9 13 c || between 28 32 c.

Definition lower_char (c : ascii) : ascii :=
  if is_upper c then ascii_of_nat (code c + 32) else c.

(** [s.lower()] *)
Definition lower (s : str) : str := map lower_char s.

Fixpoint str_eqb (a b : str) : bool :=
  match a, b with
  | [], [] => true
  | x :: a', y :: b' => Ascii.eqb x y && str_eqb a' b'
  | _, _ => false
  end.

(** [c in chars] for a character. *)
Definition mem_char (c : ascii) (chars : str) : bool :=
  existsb (Ascii.eqb c) chars.

(** [x in xs] for a string in a list or set of strings. *)
Definition mem_str (x : str) (xs : list str) : bool :=
  existsb (str_eqb x) xs.

(** Prefix test up to a comparison of characters. *)
Fixpoint prefix_by (eq : ascii -> ascii -> bool) (p s : str) : bool :=
  match p, s with
  | [], _ => true
  | x :: p', y :: s' => eq x y && prefix_by eq p' s'
  | _ :: _, [] => false
  end.

(** [s.startswith(p)] *)
Definition startswith (s p : str) : bool := prefix_by Ascii.eqb p s.

(** [s.endswith(p)] *)
Definition endswith (s p : str) : bool :=
  (length p <=? length s) && str_eqb (skipn (length s - length p) s) p.

(** [sub in s] *)
Fixpoint contains (sub s : str) : bool :=
  prefix_by Ascii.eqb sub s ||
  match s with
  | [] => false
  | _ :: t => contains sub t
  end.

(** Left-to-right replacement of the non-overlapping occurrences of a
    non-empty [old]; [skip] counts the characters of an occurrence that
    are still to be passed over. *)
Fixpoint replace_go (eq : ascii -> ascii -> bool) (old new : str)
    (skip : nat) (s : str) : str :=
  match s with
  | [] => []
  | c :: t =>
      match skip with
      | S k => replace_go eq old new k t
      | 0 =>
          if prefix_by eq old s
          then new ++ replace_go eq old new (length old - 1) t
          else c :: replace_go eq old new 0 t
      end
  end.

(** An empty [old] matches before every character and at the end. *)
Definition replace_by (eq : ascii -> ascii -> bool) (old new s : str) : str :=
  match old with
  | [] => new ++ flat_map (fun c => c :: new) s
  | _ :: _ => replace_go eq old new 0 s
  end.

(** [s.replace(old, new)] *)
Definition replace (s old new : str) : str := replace_by Ascii.eqb old new s.

Definition eqb_ci (a b : ascii) : bool := Ascii.eqb (lower_char a) (lower_char b).


Fixpoint dropwhile (p : ascii -> bool) (s : str) : str :=
  match s with
  | [] => []
  | c :: t => if p c then dropwhile p t else s
  end.

Fixpoint takewhile (p : ascii -> bool) (s : str) : str :=
  match s with
  | [] => []
  | c :: t => if p c then c :: takewhile p t else []
  end.

(** [s.split()]: the maximal runs of non-space characters; [cur] holds
    the run being read, reversed. *)
Fixpoint split_go (cur : str) (s : str) : list str :=
  match s with
  | [] => match cur with [] => [] | _ :: _ => [rev cur] end
  | c :: t =>
      if is_space c
      then match cur with
           | [] => split_go [] t
           | _ :: _ => rev cur :: split_go [] t
           end
      else split_go (c :: cur) t
  end.

Definition split (s : str) : list str := split_go [] s.

(** [sep.join(parts)] *)
Fixpoint join (sep : str) (parts : list str) : str :=
  match parts with
  | [] => []
  | [p] => p
  | p :: rest => p ++ sep ++ join sep rest
  end.

(** [s.isdigit()] *)
Definition isdigit (s : str) : bool :=
  match s with
  | [] => false
  | _ :: _ => forallb is_digit s
  end.

(** Truth value of a looked-up string: [None] and [''] are false. *)
Definition truthy (o : option str) : bool :=
  match o with
  | Some (_ :: _) => true
  | _ => false
  end.

(** ** Dictionaries in insertion order *)

Fixpoint dict_get {V : Type} (d : list (str * V)) (k : str) : option V :=
  match d with
  | [] => None
  | (k', v) :: rest => if str_eqb k' k then Some v else dict_get rest k
  end.

(** [d[k] = v] *)
Fixpoint dict_set {V : Type} (d : list (str * V)) (k : str) (v : V)
    : list (str * V) :=
  match d with
  | [] => [(k, v)]
  | (k', v') :: rest =>
      if str_eqb k' k then (k', v) :: rest else (k', v') :: dict_set rest k v
  end.

Definition dict_keys {V : Type} (d : list (str * V)) : list str := map fst d.

(** A dictionary display [{k1: v1, k2: v2, ...}], keys possibly repeated. *)
Definition dict_of {V : Type} (entries : list (str * V)) : list (str * V) :=
  fold_left (fun d kv => dict_set d (fst kv) (snd kv)) entries [].

(** [s.strip()] *)
Definition strip (s : str) : str :=
  rev (dropwhile is_space (rev (dropwhile is_space s))).

(** [k in d] for a key of a dictionary. *)
Definition dict_mem {V : Type} (d : list (str * V)) (k : str) : bool :=
  match dict_get d k with
  | Some _ => true
  | None => false
  end.

Definition dict_values {V : Type} (d : list (str * V)) : list V := map snd d.

(** ** Calls that may raise *)

(** The outcome of a call: the value it returns, or an exception that
    it raises and that no caller in the package catches. *)
Inductive outcome (A : Type) : Type :=
| Returns (a : A)
| Raises.

Arguments Returns {A} a.
Arguments Raises {A}.

Definition bind {A B : Type} (c : outcome A) (k : A -> outcome B) : outcome B :=
  match c with
  | Returns a => k a
  | Raises => Raises
  end.

(** A loop that updates [a] for each element, left when the body raises. *)
Fixpoint for_each {A B : Type} (body : A -> B -> outcome A) (l : list B) (a : A)
    : outcome A :=
  match l with
  | [] => Returns a
  | x :: rest => bind (body a x) (for_each body rest)
  end.

(** A loop that appends one result for each element, left when the body
    raises. *)
Fixpoint collect_each {A B : Type} (body : A -> outcome B) (l : list A)
    : outcome (list B) :=
  match l with
  | [] => Returns []
  | x :: rest =>
      bind (body x) (fun y =>
      bind (collect_each body rest) (fun ys => Returns (y :: ys)))
  end.

(** ** Replacement templates of [re.sub]

    [re.sub] reads its replacement argument as a template: a backslash
    begins an escape, which stands for a character, for the text matched
    (the patterns here have no group but the whole match) or is an error.
    The template is parsed before the search, so a malformed template
    raises even when nothing matches.  The parser is [parse_template] of
    CPython 3.11. *)

Inductive template_part : Type :=
| Literal (c : ascii)
| WholeMatch.

Definition backslash : ascii := ascii_of_nat 92.

Definition is_octal (c : ascii) : bool := between 48 55 c.

(** [int(digits, 8)] *)
Definition octal_value (digits : str) : nat :=
  fold_left (fun v d => 8 * v + (code d - 48)) digits 0.

(** The escapes that stand for one character: [\a \b \f \n \r \t \v \\]. *)
Definition simple_escape (c : ascii) : option ascii :=
  if Ascii.eqb c "a" then Some (ascii_of_nat 7)
  else if Ascii.eqb c "b" then Some (ascii_of_nat 8)
  else if Ascii.eqb c "f" then Some (ascii_of_nat 12)
  else if Ascii.eqb c "n" then Some (ascii_of_nat 10)
  else if Ascii.eqb c "r" then Some (ascii_of_nat 13)
  else if Ascii.eqb c "t" then Some (ascii_of_nat 9)
  else if Ascii.eqb c "v" then Some (ascii_of_nat 11)
  else if Ascii.eqb c backslash then Some backslash
  else None.

(** Zeros with single underscores between them, as [int] reads digits;
    [after_digit] tells that the character before was a digit. *)
Fixpoint zeros (after_digit : bool) (s : str) : bool :=
  match s with
  | [] => after_digit
  | c :: t =>
      if Ascii.eqb c "0" then zeros true t
      else if Ascii.eqb c "_" then after_digit && zeros false t
      else false
  end.

(** The white space that [int] allows around a number. *)
Definition int_space (c : ascii) : bool := between 9 13 c || (code c =? 32).

(** [int(name) == 0]: the only group a pattern without groups has. *)
Definition reads_as_zero (name : str) : bool :=
  match rev (dropwhile int_space (rev (dropwhile int_space name))) with
  | [] => false
  | c :: digits =>
      if Ascii.eqb c "+" || Ascii.eqb c "-" then zeros false digits
      else zeros false (c :: digits)
  end.

Fixpoint find_char (c : ascii) (s : str) : option nat :=
  match s with
  | [] => None
  | x :: t => if Ascii.eqb x c then Some 0 else option_map S (find_char c t)
  end.

(** The escape that [s] begins with, [s] being the text after a
    backslash: what it stands for and how many characters of [s] it
    takes.  [\g<0>] is the text matched; [\0], [\0o], [\0oo] and [\ooo]
    are octal codes; another digit would refer to a group that does not
    exist; an unknown escape is an error when its character is a letter
    and stands for itself, backslash included, otherwise. *)
Definition escape (s : str) : outcome (list template_part * nat) :=
  match s with
  | [] => Raises
  | c :: t =>
      if Ascii.eqb c "g" then
        match t with
        | [] => Raises
        | bracket :: name_and_rest =>
            if Ascii.eqb bracket "<" then
              match find_char ">" name_and_rest with
              | None => Raises
              | Some n =>
                  if reads_as_zero (firstn n name_and_rest)
                  then Returns ([WholeMatch], n + 3)
                  else Raises
              end
            else Raises
        end
      else if Ascii.eqb c "0" then
        let digits := takewhile is_octal (firstn 2 t) in
        Returns ([Literal (ascii_of_nat (octal_value digits))], 1 + length digits)
      else if is_digit c then
        match t with
        | d1 :: d2 :: _ =>
            if is_octal c && is_octal d1 && is_octal d2 then
              let value := octal_value [c; d1; d2] in
              if value <=? 255
              then Returns ([Literal (ascii_of_nat value)], 3)
              else Raises
            else Raises
        | _ => Raises
        end
      else
        match simple_escape c with
        | Some x => Returns ([Literal x], 1)
        | None =>
            if is_alpha c then Raises
            else Returns ([Literal backslash; Literal c], 1)
        end
  end.

(** The parts of a template; [skip] counts the characters of an escape
    that are still to be passed over. *)
Fixpoint parse_template_go (skip : nat) (s : str) : outcome (list template_part) :=
  match s with
  | [] => Returns []
  | c :: t =>
      match skip with
      | S k => parse_template_go k t
      | 0 =>
          if Ascii.eqb c backslash then
            bind (escape t) (fun found =>
            bind (parse_template_go (snd found) t) (fun rest =>
            Returns (fst found ++ rest)))
          else
            bind (parse_template_go 0 t) (fun rest => Returns (Literal c :: rest))
      end
  end.

Definition parse_template (repl : str) : outcome (list template_part) :=
  parse_template_go 0 repl.

(** The text a template gives for the text [matched]. *)
Definition expand_template (template : list template_part) (matched : str) : str :=
  flat_map (fun part =>
              match part with
              | Literal c => [c]
              | WholeMatch => matched
              end)
           template.

(** Left-to-right substitution of the non-overlapping occurrences of a
    non-empty [old], each by what [expand] gives for the text matched;
    [skip] as in [replace_go]. *)
Fixpoint sub_go (eq : ascii -> ascii -> bool) (old : str) (expand : str -> str)
    (skip : nat) (s : str) : str :=
  match s with
  | [] => []
  | c :: t =>
      match skip with
      | S k => sub_go eq old expand k t
      | 0 =>
          if prefix_by eq old s
          then expand (firstn (length old) s)
                 ++ sub_go eq old expand (length old - 1) t
          else c :: sub_go eq old expand 0 t
      end
  end.

(** An empty [old] matches the empty text before every character and at
    the end. *)
Definition sub_by (eq : ascii -> ascii -> bool) (old : str) (expand : str -> str)
    (s : str) : str :=
  match old with
  | [] => expand [] ++ flat_map (fun c => c :: expand []) s
  | _ :: _ => sub_go eq old expand 0 s
  end.

(** [re.sub(re.escape(old), repl, s, flags=re.IGNORECASE)] *)
Definition re_sub_escape_ci (old repl s : str) : outcome str :=
  bind (parse_template repl) (fun template =>
  Returns (sub_by eqb_ci old (expand_template template) s)).

End Py.

(** ** edit_distance.py *)
Module EditDistance.

(** The loop over [enumerate(s2)]: [previous_row] is read from index [j]
    on, [last] is [current_row[j]]; the result is the part of
    [current_row] appended by the loop. *)
Fixpoint inner_loop (c1 : ascii) (s2 : str) (previous_row : list nat)
    (last : nat) : list nat :=
  match s2, previous_row with
  | c2 :: s2', pj :: ((pj1 :: _) as previous_tail) =>
      let insertions := pj1 + 1 in
      let deletions := last + 1 in
      let substitutions := pj + (if Ascii.eqb c1 c2 then 0 else 1) in
      let v := Nat.min (Nat.min insertions deletions) substitutions in
      v :: inner_loop c1 s2' previous_tail v
  | _, _ => []
  end.

(** The loop over [enumerate(s1)], started at index [i]. *)
Fixpoint outer_loop (i : nat) (s1 s2 : str) (previous_row : list nat)
    : list nat :=
  match s1 with
  | [] => previous_row
  | c1 :: s1' =>
      let current_row := (i + 1) :: inner_loop c1 s2 previous_row (i + 1) in
      outer_loop (S i) s1' s2 current_row
  end.

(** [calculate] once [len(s1) >= len(s2)]. *)
Definition calculate_rows (s1 s2 : str) : nat :=
  if length s2 =? 0 then length s1
  else last (outer_loop 0 s1 s2 (seq 0 (length s2 + 1))) 0.

Definition calculate (s1 s2 : str) : nat :=
  if length s1 <? length s2 then calculate_rows s2 s1 else calculate_rows s1 s2.

Definition is_empty (s : str) : bool :=
  match s with [] => true | _ :: _ => false end.

Definition ratio (n m : nat) : Q :=
  (inject_Z (Z.of_nat n) / inject_Z (Z.of_nat m))%Q.

Definition similarity (s1 s2 : str) : Q :=
  if is_empty s1 && is_empty s2 then 1%Q
  else
    let max_len := Nat.max (length s1) (length s2) in
    if max_len =? 0 then 1%Q
    else (1 - ratio (calculate s1 s2) max_len)%Q.

(** The edit distance by recursion on both strings, the reference the
    rolling rows are compared with. *)
Fixpoint lev (a : str) : str -> nat :=
  fix lev_a (b : str) : nat :=
    match a, b with
    | [], _ => length b
    | _, [] => length a
    | x :: a', y :: b' =>
        Nat.min (Nat.min (lev a' b + 1) (lev_a b' + 1))
                (lev a' b' + (if Ascii.eqb x y then 0 else 1))
    end.

End EditDistance.

(** ** tokenizer.py *)
Module Tokenizer.

(** The class [[\w@#$+!\']]. *)
Definition in_class (c : ascii) : bool :=
  Py.is_word c || Py.mem_char c (lit "@#$+!'").

Definition word_at (o : option ascii) : bool :=
  match o with
  | Some c => Py.is_word c
  | None => false
  end.

(** [\b] between the character before and the character after. *)
Definition boundary (before after : option ascii) : bool :=
  xorb (word_at before) (word_at after).

(** Backtracking of the greedy [+]: the longest length [e'] with
    [1 <= e' <= e] that has a [\b] after [e'] characters of [s]. *)
Fixpoint longest_end (s : str) (e : nat) : option nat :=
  match e with
  | 0 => None
  | S e' =>
      if boundary (nth_error s e') (nth_error s e) then Some e
      else longest_end s e'
  end.

(** One attempt of [\b[\w@#$+!\']+\b] at the head of [s], the character
    before being [prev]: the length of the match. *)
Definition match_at (prev : option ascii) (s : str) : option nat :=
  if boundary prev (nth_error s 0)
  then longest_end s (length (Py.takewhile in_class s))
  else None.

(** [word_pattern.findall]: attempts from left to right, resumed after
    each match; [skip] counts the characters of the last match that are
    still to be passed over. *)
Fixpoint findall (prev : option ascii) (skip : nat) (s : str) : list str :=
  match s with
  | [] => []
  | c :: t =>
      match skip with
      | S k => findall (Some c) k t
      | 0 =>
          match match_at prev s with
          | Some e => firstn e s :: findall (Some c) (e - 1) t
          | None => findall (Some c) 0 t
          end
      end
  end.

Definition tokenize (text : str) : list str := findall None 0 (Py.lower text).

Definition detokenize (tokens : list str) : str := Py.join (lit " ") tokens.

End Tokenizer.


(** ** lemmatizer.py *)
Module Lemmatizer.

(** The display assigned to [self.prefix_rules], entry by entry. *)
Definition prefix_rules_display : list (str * list str) :=
  [ (lit "nag", [lit "nag"; lit "mag"]);
    (lit "naka", [lit "naka"; lit "maka"]);
    (lit "nai", [lit "nai"; lit "mai"]);
    (lit "napa", [lit "napa"; lit "mapa"]);
    (lit "naging", [lit "naging"; lit "maging"]);
    (lit "naki", [lit "naki"; lit "maki"]);
    (lit "nang", [lit "nang"; lit "mang"]);
    (lit "naka", [lit "naka"; lit "ka"]);
    (lit "nai", [lit "nai"; lit "i"]);
    (lit "na", [lit "na"; lit "ma"]) ].

Definition prefix_rules : list (str * list str) := Py.dict_of prefix_rules_display.

Definition suffix_rules : list (str * str) :=
  Py.dict_of
    [ (lit "ing", []); (lit "an", []); (lit "in", []); (lit "ng", []);
      (lit "han", []); (lit "hin", []); (lit "on", []); (lit "un", []) ].

(** The first loop: [word[len(prefix):]] for the first key that
    [word] starts with. *)
Fixpoint strip_prefix (rules : list (str * list str)) (word : str) : str :=
  match rules with
  | [] => word
  | (prefix, _alternatives) :: rest =>
      if Py.startswith word prefix then skipn (length prefix) word
      else strip_prefix rest word
  end.

(** [word[:-n]]; for [n = 0] the slice [word[:-0]] is [word[:0]]. *)
Definition drop_last (n : nat) (word : str) : str :=
  if n =? 0 then [] else firstn (length word - n) word.

(** The second loop. *)
Fixpoint strip_suffix (suffixes : list str) (word : str) : str :=
  match suffixes with
  | [] => word
  | suffix :: rest =>
      if Py.endswith word suffix && (length suffix <? length word)
      then drop_last (length suffix) word
      else strip_suffix rest word
  end.

Definition lemmatize_with (prefixes : list (str * list str))
    (suffixes : list (str * str)) (word : str) : str :=
  let original_word := word in
  let word := strip_prefix prefixes word in
  let word := strip_suffix (Py.dict_keys suffixes) word in
  if length word <? 2 then original_word else word.

Definition lemmatize (word : str) : str :=
  lemmatize_with prefix_rules suffix_rules word.

End Lemmatizer.

(** ** lexicon_manager.py *)
Module LexiconManager.

(** The tables a [LexiconManager] holds once constructed: the mappings
    of the lexicon file, the letter variants of the characters file and
    the set of the words file (its lines come stripped and lower-cased
    from [load_words_txt]). *)
Record t := mk {
  jejemon_to_normal : list (str * str);
  common_replacements : list (str * str);
  letter_variants : list (str * list str);
  words_set : list str
}.

Definition is_in_words_txt (lm : t) (word : str) : bool :=
  Py.mem_str (Py.lower word) (words_set lm).

(** [_create_variant_to_letter] *)
Definition create_variant_to_letter (lv : list (str * list str))
    : list (str * str) :=
  fold_left
    (fun variant_map entry =>
       fold_left
         (fun variant_map variant =>
            Py.dict_set variant_map (Py.lower variant) (Py.lower (fst entry)))
         (snd entry) variant_map)
    lv [].

Definition variant_to_letter (lm : t) : list (str * str) :=
  create_variant_to_letter (letter_variants lm).

Definition get_base_letter (lm : t) (variant : str) : option str :=
  Py.dict_get (variant_to_letter lm) (Py.lower variant).

(** Stable insertion of [x] in front of a list sorted by decreasing
    length: [x] goes before the first element that is not longer. *)
Fixpoint insert_longest_first (x : str) (l : list str) : list str :=
  match l with
  | [] => [x]
  | y :: rest =>
      if length y <=? length x then x :: l
      else y :: insert_longest_first x rest
  end.

(** [sorted(keys, key=len, reverse=True)]: stable, longest first. *)
Fixpoint sorted_longest_first (l : list str) : list str :=
  match l with
  | [] => []
  | x :: rest => insert_longest_first x (sorted_longest_first rest)
  end.

(** The body of the first loop of [apply_character_replacements]. *)
Definition variant_step (index : list (str * str)) (result variant : str)
    : Py.outcome str :=
  match Py.dict_get index variant with
  | None => Py.Returns result
  | Some base =>
      if Py.str_eqb variant base then Py.Returns result
      else if length variant =? 1 then Py.re_sub_escape_ci variant base result
      else if Py.str_eqb (Py.lower result) variant then Py.Returns base
      else Py.Returns result
  end.

(** The body of the second loop. *)
Definition replacement_step (result : str) (entry : str * str) : Py.outcome str :=
  Py.re_sub_escape_ci (fst entry) (snd entry) result.

(** Both loops run [re.sub], which raises on a malformed replacement
    template; the exception leaves the method. *)
Definition apply_character_replacements (lm : t) (word : str) : Py.outcome str :=
  let index := variant_to_letter lm in
  Py.bind
    (Py.for_each (variant_step index)
       (sorted_longest_first (Py.dict_keys index)) word)
    (fun result => Py.for_each replacement_step (common_replacements lm) result).

Definition get_normal_word (lm : t) (jejemon_word : str) : option str :=
  Py.dict_get (jejemon_to_normal lm) (Py.lower jejemon_word).

Definition get_all_jejemon_words (lm : t) : list str :=
  Py.dict_keys (jejemon_to_normal lm).

Definition get_all_normal_words (lm : t) : list str :=
  Py.dict_values (jejemon_to_normal lm).

(** [add_mapping]: the mapping is assigned under the lower-cased key
    (the assignment to [self.lexicon] keeps the same dictionary). *)
Definition add_mapping (lm : t) (jejemon normal : str) : t :=
  {| jejemon_to_normal :=
       Py.dict_set (jejemon_to_normal lm) (Py.lower jejemon) (Py.lower normal);
     common_replacements := common_replacements lm;
     letter_variants := letter_variants lm;
     words_set := words_set lm |}.

(** [load_words_txt] on the lines of the words file: each line is
    stripped and lower-cased, blank lines are left out (a missing file
    gives no line). *)
Definition load_words_txt (lines : list str) : list str :=
  flat_map
    (fun line =>
       let word := Py.lower (Py.strip line) in
       match word with
       | [] => []
       | _ :: _ => [word]
       end)
    lines.

(** The two tables [add_variant] updates: [self.letter_variants] and
    [self.variant_to_letter]. *)
Record variant_tables := mk_tables {
  forward : list (str * list str);
  index : list (str * str)
}.

(** The tables of a manager as its constructor leaves them. *)
Definition tables_of (lm : t) : variant_tables :=
  {| forward := letter_variants lm; index := variant_to_letter lm |}.

Definition get_variants (vt : variant_tables) (letter : str) : list str :=
  match Py.dict_get (forward vt) (Py.lower letter) with
  | Some variants => variants
  | None => []
  end.

Definition get_all_variants (vt : variant_tables) : list str :=
  flat_map (fun variants => variants) (Py.dict_values (forward vt)).

Definition base_letter_of (vt : variant_tables) (variant : str) : option str :=
  Py.dict_get (index vt) (Py.lower variant).

Definition add_variant (vt : variant_tables) (letter variant : str)
    : variant_tables :=
  let letter := Py.lower letter in
  let variant := Py.lower variant in
  let lv :=
    if negb (Py.dict_mem (forward vt) letter)
    then Py.dict_set (forward vt) letter []
    else forward vt in
  let listed :=
    match Py.dict_get lv letter with
    | Some variants => variants
    | None => []
    end in
  if negb (Py.mem_str variant listed)
  then {| forward := Py.dict_set lv letter (listed ++ [variant]);
          index := Py.dict_set (index vt) variant letter |}
  else {| forward := lv; index := index vt |}.

End LexiconManager.

(** ** fuzzy_matcher.py *)
Module FuzzyMatcher.

(** [score > best_score] *)
Definition gtb (x y : Q) : bool := negb (Qle_bool x y).

(** The loop of [find_best_match] from a state [(best_match, best_score)]. *)
Fixpoint scan (word : str) (candidates : list str) (best : str * Q)
    : str * Q :=
  match candidates with
  | [] => best
  | candidate :: rest =>
      let score := EditDistance.similarity word candidate in
      if gtb score (snd best) then scan word rest (candidate, score)
      else scan word rest best
  end.

Definition find_best_match (word : str) (candidates : list str) : str * Q :=
  scan word candidates ([], 0%Q).


(** Stable insertion of [x] in front of a list sorted by decreasing
    score: [x] goes before the first entry whose score is not greater. *)
Fixpoint insert_by_score (x : str * Q) (l : list (str * Q)) : list (str * Q) :=
  match l with
  | [] => [x]
  | y :: rest =>
      if Qle_bool (snd y) (snd x) then x :: l
      else y :: insert_by_score x rest
  end.

(** [sorted(matches, key=lambda x: x[1], reverse=True)] *)
Fixpoint sorted_by_score (l : list (str * Q)) : list (str * Q) :=
  match l with
  | [] => []
  | x :: rest => insert_by_score x (sorted_by_score rest)
  end.

(** The loop of [find_matches_above_threshold]. *)
Fixpoint collect (threshold : Q) (word : str) (candidates : list str)
    : list (str * Q) :=
  match candidates with
  | [] => []
  | candidate :: rest =>
      let score := EditDistance.similarity word candidate in
      if Qle_bool threshold score
      then (candidate, score) :: collect threshold word rest
      else collect threshold word rest
  end.

(** [threshold] is [self.threshold]. *)
Definition find_matches_above_threshold (threshold : Q) (word : str)
    (candidates : list str) : list (str * Q) :=
  sorted_by_score (collect threshold word candidates).
End FuzzyMatcher.

(** ** text_preprocessor.py *)
Module TextPreprocessor.

(** [re.sub(r'[^\w\s]', '', text)] *)
Definition remove_punctuation (text : str) : str :=
  filter (fun c => Py.is_word c || Py.is_space c) text.

(** [re.sub(r'[^a-zA-Z0-9\s]', '', text)] *)
Definition remove_special_characters (text : str) : str :=
  filter (fun c => Py.is_alpha c || Py.is_digit c || Py.is_space c) text.

(** [re.sub(r'\s+', ' ', text)]: each maximal run of white space becomes
    one space; [in_run] tells that the run has begun. *)
Fixpoint collapse_spaces (in_run : bool) (text : str) : str :=
  match text with
  | [] => []
  | c :: t =>
      if Py.is_space c
      then if in_run then collapse_spaces true t
           else " "%char :: collapse_spaces true t
      else c :: collapse_spaces false t
  end.

Definition normalize_spaces (text : str) : str :=
  Py.strip (collapse_spaces false text).

Definition preprocess (text : str) : str :=
  let text := remove_punctuation text in
  let text := remove_special_characters text in
  let text := normalize_spaces text in
  Py.lower text.

End TextPreprocessor.

(** ** Regular expressions of the skip policy

    The patterns of [_should_apply_character_replacement] are matched
    with [re.match(pattern, word, re.IGNORECASE)]; each is anchored by
    [^] and [$], so a match is a match of the whole word (or of the word
    without a final line feed, which [$] allows). *)
Module Regex.

Inductive re : Type :=
| Fail : re
| Eps : re
| Cls : (ascii -> bool) -> re
| Cat : re -> re -> re
| Alt : re -> re -> re
| Star : re -> re.

Fixpoint nullable (r : re) : bool :=
  match r with
  | Fail => false
  | Eps => true
  | Cls _ => false
  | Cat a b => nullable a && nullable b
  | Alt a b => nullable a || nullable b
  | Star _ => true
  end.

(** The derivative of [r] by the character [c]. *)
Fixpoint deriv (r : re) (c : ascii) : re :=
  match r with
  | Fail => Fail
  | Eps => Fail
  | Cls p => if p c then Eps else Fail
  | Cat a b =>
      if nullable a then Alt (Cat (deriv a c) b) (deriv b c)
      else Cat (deriv a c) b
  | Alt a b => Alt (deriv a c) (deriv b c)
  | Star a => Cat (deriv a c) (Star a)
  end.

Definition fullmatch (r : re) (s : str) : bool := nullable (fold_left deriv s r).

(** [r{n}] *)
Fixpoint Times (n : nat) (r : re) : re :=
  match n with
  | 0 => Eps
  | S n' => Cat r (Times n' r)
  end.

(** [r?] *)
Definition Opt (r : re) : re := Alt Eps r.

(** [r{0,n}] *)
Fixpoint UpTo (n : nat) (r : re) : re :=
  match n with
  | 0 => Eps
  | S n' => Opt (Cat r (UpTo n' r))
  end.

(** [r{m,n}] *)
Definition Rep (m n : nat) (r : re) : re := Cat (Times m r) (UpTo (n - m) r).

(** [r{m,}] *)
Definition AtLeast (m : nat) (r : re) : re := Cat (Times m r) (Star r).

(** [r+] *)
Definition Plus (r : re) : re := AtLeast 1 r.

Fixpoint Seq (rs : list re) : re :=
  match rs with
  | [] => Eps
  | [r] => r
  | r :: rest => Cat r (Seq rest)
  end.

Definition upper_char (c : ascii) : ascii :=
  if Py.is_lower c then ascii_of_nat (Py.code c - 32) else c.

(** One character among those of [x] (a literal, or a class [[...]] of
    literals), under [re.IGNORECASE]. *)
Definition chr (x : string) : re :=
  Cls (fun c => Py.mem_char (Py.lower_char c) (Py.lower (lit x))).

(** [\d] *)
Definition digit : re := Cls Py.is_digit.

(** [[A-Z]] under [re.IGNORECASE]. *)
Definition letter : re :=
  Cls (fun c => Py.is_upper c || Py.is_upper (upper_char c)).

(** [[A-Z0-9]] under [re.IGNORECASE]. *)
Definition letter_or_digit : re :=
  Cls (fun c => Py.is_upper c || Py.is_upper (upper_char c) || Py.is_digit c).

Definition line_feed : ascii := ascii_of_nat 10.

(** [re.match('^' r '$', word)] as a truth value. *)
Definition match_anchored (r : re) (word : str) : bool :=
  fullmatch r word ||
  match rev word with
  | c :: before => Ascii.eqb c line_feed && fullmatch r (rev before)
  | [] => false
  end.

End Regex.

(** ** jejemon_normalizer.py *)
Module JejemonNormalizer.

Import Regex.

(** One entry of a character's [context_rules]; [pattern] is the truth
    value of [re.search(rule['pattern'], word, re.IGNORECASE)], the
    patterns being data of the context rules file. *)
Record context_rule := mk_rule {
  pattern : str -> bool;
  replacement : str
}.

Record char_rules := mk_char_rules {
  context_rules : list context_rule;
  default : str
}.

Record t := mk {
  lexicon_manager : LexiconManager.t;
  context_replacements : list (str * char_rules)
}.

Definition double_quote : ascii := ascii_of_nat 34.

(** [self.meaningful_punctuation] *)
Definition meaningful_punctuation : str :=
  lit "'" ++ [double_quote] ++ lit "-_.!?,;:+()[]{}/\|@#$%".

Definition number_patterns : list re :=
  [ (* ^\d{4}$ *)
    Times 4 digit;
    (* ^\d{1,2}[-/]\d{1,2}[-/]\d{2,4}$ *)
    Seq [Rep 1 2 digit; chr "-/"; Rep 1 2 digit; chr "-/"; Rep 2 4 digit];
    (* ^\d{1,2}:\d{2}(:\d{2})?([ap]m)?$ *)
    Seq [Rep 1 2 digit; chr ":"; Times 2 digit;
         Opt (Cat (chr ":") (Times 2 digit)); Opt (Cat (chr "ap") (chr "m"))];
    (* ^\d+\.\d+$ *)
    Seq [Plus digit; chr "."; Plus digit];
    (* ^\d+,\d+$ *)
    Seq [Plus digit; chr ","; Plus digit];
    (* ^\d+%$ *)
    Seq [Plus digit; chr "%"];
    (* ^#\d+$ *)
    Seq [chr "#"; Plus digit];
    (* ^\$\d+(\.\d{2})?$ *)
    Seq [chr "$"; Plus digit; Opt (Cat (chr ".") (Times 2 digit))] ].

Definition alphanumeric_patterns : list re :=
  [ (* ^[A-Z]{2,}\d{2,}$ *)
    Seq [AtLeast 2 letter; AtLeast 2 digit];
    (* ^\d{3,}[A-Z]{2,}$ *)
    Seq [AtLeast 3 digit; AtLeast 2 letter];
    (* ^[A-Z0-9]{5,}-[A-Z0-9]{3,}$ *)
    Seq [AtLeast 5 letter_or_digit; chr "-"; AtLeast 3 letter_or_digit];
    (* ^[A-Z]{3,}\d{3,}[A-Z]{2,}$ *)
    Seq [AtLeast 3 letter; AtLeast 3 digit; AtLeast 2 letter] ].

Definition matches_any (patterns : list re) (word : str) : bool :=
  existsb (fun r => match_anchored r word) patterns.

Definition should_apply_character_replacement (nz : t) (word : str) : bool :=
  if LexiconManager.is_in_words_txt (lexicon_manager nz) word then false
  else if Py.truthy (LexiconManager.get_normal_word (lexicon_manager nz) word)
  then false
  else if Py.isdigit word && (3 <=? length word) then false
  else if matches_any number_patterns word then false
  else if matches_any alphanumeric_patterns word then false
  else true.

(** One round of the loop over [self.context_replacements.items()]. *)
Definition context_step (result : str) (entry : str * char_rules) : str :=
  let (char, rules) := entry in
  if Py.contains char result then
    match find (fun rule => pattern rule result) (context_rules rules) with
    | Some rule => Py.replace result char (replacement rule)
    | None => Py.replace result char (default rules)
    end
  else result.

Definition apply_context_aware_replacements (nz : t) (word : str)
    : Py.outcome str :=
  if negb (should_apply_character_replacement nz word) then Py.Returns word
  else
    let result := fold_left context_step (context_replacements nz) word in
    LexiconManager.apply_character_replacements (lexicon_manager nz) result.

(** One round of a loop over [meaningful_patterns]. *)
Definition marker_step (word : str) (entry : str * str) : str :=
  let (punct, replacement) := entry in
  if Py.contains punct word then Py.replace word punct replacement else word.

(** [meaningful_patterns] of [_evaluate_punctuation_value]. *)
Definition word_markers : list (str * str) :=
  [ (lit "'s", lit "s"); (lit "'t", lit "t"); (lit "'re", lit "re");
    (lit "'ve", lit "ve"); (lit "'ll", lit "ll"); (lit "'d", lit "d");
    (lit "'m", lit "m"); (lit "'re", lit "re"); (lit "'", []);
    (lit "`", []); (lit "'", []) ].

Definition has_meaningful_punctuation (word : str) : bool :=
  existsb (fun p => Py.contains [p] word) meaningful_punctuation.

(** The string a true looked-up value stands for. *)
Definition value (o : option str) : str :=
  match o with
  | Some v => v
  | None => []
  end.

Definition evaluate_punctuation_value (nz : t) (word : str) : str * bool :=
  if negb (has_meaningful_punctuation word) then (word, false)
  else
    let original_word := word in
    let modified_word := fold_left marker_step word_markers word in
    let original_mapped :=
      LexiconManager.get_normal_word (lexicon_manager nz) original_word in
    let modified_mapped :=
      LexiconManager.get_normal_word (lexicon_manager nz) modified_word in
    if Py.truthy original_mapped && negb (Py.truthy modified_mapped)
    then (value original_mapped, false)
    else if Py.truthy modified_mapped && negb (Py.truthy original_mapped)
    then (value modified_mapped, true)
    else if Py.truthy original_mapped && Py.truthy modified_mapped
    then (value modified_mapped, true)
    else (original_word, false).

(** [score > 0.6] *)
Definition above_threshold (score : Q) : bool :=
  FuzzyMatcher.gtb score (6 # 10)%Q.

(** A fuzzy attempt: the mapping of the best match when its score is
    above 0.6 and the mapping is true. *)
Definition fuzzy_lookup (nz : t) (word : str) (jejemon_words : list str)
    : option str :=
  match jejemon_words with
  | [] => None
  | _ :: _ =>
      let (best_match, score) :=
        FuzzyMatcher.find_best_match word jejemon_words in
      if above_threshold score then
        let matched_normal :=
          LexiconManager.get_normal_word (lexicon_manager nz) best_match in
        if Py.truthy matched_normal then matched_normal else None
      else None
  end.

Definition normalize_word (nz : t) (word : str) : Py.outcome str :=
  let lm := lexicon_manager nz in
  if LexiconManager.is_in_words_txt lm word then Py.Returns word
  else
    let normal_word := LexiconManager.get_normal_word lm word in
    if Py.truthy normal_word then Py.Returns (value normal_word)
    else
      Py.bind
        (if should_apply_character_replacement nz word then
           Py.bind (LexiconManager.apply_character_replacements lm word)
             (fun modified_word =>
                Py.Returns
                  (if negb (Py.str_eqb modified_word word) then
                     let normal_word :=
                       LexiconManager.get_normal_word lm modified_word in
                     if Py.truthy normal_word then normal_word else None
                   else None))
         else Py.Returns None)
        (fun replaced =>
      Py.Returns
      match replaced with
      | Some normal_word => normal_word
      | None =>
          let jejemon_words := LexiconManager.get_all_jejemon_words lm in
          match fuzzy_lookup nz word jejemon_words with
          | Some matched_normal => matched_normal
          | None =>
              let lemmatized := Lemmatizer.lemmatize word in
              if negb (Py.str_eqb lemmatized word) then
                let normal_word := LexiconManager.get_normal_word lm lemmatized in
                if Py.truthy normal_word then value normal_word
                else
                  match fuzzy_lookup nz lemmatized jejemon_words with
                  | Some matched_normal => matched_normal
                  | None => word
                  end
              else word
          end
      end).

(** [meaningful_patterns] of [_apply_punctuation_evaluation_to_text]. *)
Definition text_markers : list (str * str) :=
  [ (lit "'s", lit "s"); (lit "'t", lit "t"); (lit "'re", lit "re");
    (lit "'ve", lit "ve"); (lit "'ll", lit "ll"); (lit "'d", lit "d");
    (lit "'m", lit "m"); (lit "'", []); (lit "`", []) ].

Definition allowed_inside : str := lit "+@".

(** The character class of the two clean-up substitutions:
    [self.meaningful_punctuation - allowed_inside]. *)
Definition strippable (c : ascii) : bool :=
  Py.mem_char c meaningful_punctuation && negb (Py.mem_char c allowed_inside).

(** The two [re.sub] of the clean-up, on a word without white space. *)
Definition clean_word (word : str) : str :=
  let cleaned := Py.dropwhile strippable word in
  rev (Py.dropwhile strippable (rev cleaned)).

Definition apply_punctuation_evaluation_to_text (nz : t) (text : str) : str :=
  let text := fold_left marker_step text_markers text in
  let cleaned_words :=
    map (fun word =>
           if Py.truthy (LexiconManager.get_normal_word (lexicon_manager nz) word)
           then word
           else clean_word word)
        (Py.split text) in
  Py.join (lit " ") cleaned_words.

Definition apply_character_replacements_to_text (nz : t) (text : str)
    : Py.outcome str :=
  Py.bind
    (Py.collect_each
       (fun word =>
          if negb (should_apply_character_replacement nz word)
          then Py.Returns word
          else
            let result := fold_left context_step (context_replacements nz) word in
            LexiconManager.apply_character_replacements (lexicon_manager nz) result)
       (Py.split text))
    (fun processed_words => Py.Returns (Py.join (lit " ") processed_words)).

(** The dictionary [normalize_text] returns. *)
Record result := mk_result {
  original : str;
  punctuation_evaluated : str;
  character_replaced : str;
  tokenized : str;
  normalized : str
}.

Definition normalize_text (nz : t) (text : str) : Py.outcome result :=
  let punctuation_evaluated_text := apply_punctuation_evaluation_to_text nz text in
  Py.bind (apply_character_replacements_to_text nz punctuation_evaluated_text)
    (fun character_replaced_text =>
  let tokens := Tokenizer.tokenize character_replaced_text in
  Py.bind (Py.collect_each (normalize_word nz) tokens)
    (fun normalized_tokens =>
  Py.Returns
    {| original := text;
       punctuation_evaluated := punctuation_evaluated_text;
       character_replaced := character_replaced_text;
       tokenized := Py.join (lit " ") tokens;
       normalized := Tokenizer.detokenize normalized_tokens |})).

(** The contribution of one aligned pair of tokens. *)
Definition pair_confidence (pair : str * str) : Q :=
  let (orig_word, norm_word) := pair in
  if Py.str_eqb orig_word norm_word then 1%Q
  else EditDistance.similarity orig_word norm_word.

Definition total_confidence (pairs : list (str * str)) : Q :=
  fold_left (fun total pair => (total + pair_confidence pair)%Q) pairs 0%Q.

Definition get_normalization_confidence (original normalized : str) : Q :=
  if Py.str_eqb original normalized then 0%Q
  else
    let original_tokens := Tokenizer.tokenize original in
    let normalized_tokens := Tokenizer.tokenize normalized in
    if negb (length original_tokens =? length normalized_tokens) then (5 # 10)%Q
    else
      match original_tokens with
      | [] => 0%Q
      | _ :: _ =>
          (total_confidence (combine original_tokens normalized_tokens)
           / inject_Z (Z.of_nat (length original_tokens)))%Q
      end.

End JejemonNormalizer.

(** * Reference definitions

    Definitions the code is compared with: they are used by the
    statements and proofs below, not by the embedding above. *)

Module Reference.

(** The row of distances from [a] to [q], [c1 :: q], ... as the
    characters of [r] are pushed on [q]. *)
Fixpoint row_of (a q r : str) : list nat :=
  match r with
  | [] => [EditDistance.lev a q]
  | c :: r' => EditDistance.lev a q :: row_of a (c :: q) r'
  end.

(** The sum and the mean of a list of scores. *)
Definition Qsum (l : list Q) : Q := fold_right Qplus 0%Q l.

Definition mean (l : list Q) : Q :=
  (Qsum l / inject_Z (Z.of_nat (length l)))%Q.

(** The score of one aligned pair of tokens: 1.0 for an unchanged
    token, the edit-distance similarity for a changed one. *)
Definition token_score (pair : str * str) : Q :=
  if list_eq_dec ascii_dec (fst pair) (snd pair) then 1%Q
  else EditDistance.similarity (fst pair) (snd pair).

(** The confidence as the specification words it. *)
Definition confidence (original normalized : str) : Q :=
  if list_eq_dec ascii_dec original normalized then 0%Q
  else
    let original_tokens := Tokenizer.tokenize original in
    let normalized_tokens := Tokenizer.tokenize normalized in
    if Nat.eq_dec (length original_tokens) (length normalized_tokens) then
      if Nat.eq_dec (length original_tokens) 0 then 0%Q
      else mean (map token_score (combine original_tokens normalized_tokens))
    else (1 # 2)%Q.

(** The ordered prefix and suffix tables of the lemmatizer. *)
Definition prefix_table : list str :=
  [lit "nag"; lit "naka"; lit "nai"; lit "napa"; lit "naging"; lit "naki";
   lit "nang"; lit "na"].

Definition suffix_table : list str :=
  [lit "ing"; lit "an"; lit "in"; lit "ng"; lit "han"; lit "hin"; lit "on";
   lit "un"].

(** The first prefix of the table that [word] starts with. *)
Definition first_prefix (word : str) : option str :=
  find (fun prefix => Py.startswith word prefix) prefix_table.

(** The first suffix of the table that [word] ends with and that leaves
    at least one character of [word]. *)
Definition first_suffix (word : str) : option str :=
  find (fun suffix => Py.endswith word suffix && (length suffix <? length word))
       suffix_table.

(** The first suffix of the table that [word] ends with. *)
Definition first_matching_suffix (word : str) : option str :=
  find (fun suffix => Py.endswith word suffix) suffix_table.

(** The pass as stated: the first prefix that matches is stripped, then
    the first suffix that matches, but only if a character of the word
    remains; then the test of the length of the candidate. *)
Definition lemmatize_stated (word : str) : str :=
  let without_prefix :=
    match first_prefix word with
    | Some prefix => skipn (length prefix) word
    | None => word
    end in
  let candidate :=
    match first_matching_suffix without_prefix with
    | Some suffix =>
        if length suffix <? length without_prefix
        then firstn (length without_prefix - length suffix) without_prefix
        else without_prefix
    | None => without_prefix
    end in
  if length candidate <? 2 then word else candidate.

(** One pass: the first prefix, then the first suffix that leaves a
    character, then the test of the length of the candidate. *)
Definition lemmatize (word : str) : str :=
  let without_prefix :=
    match first_prefix word with
    | Some prefix => skipn (length prefix) word
    | None => word
    end in
  let candidate :=
    match first_suffix without_prefix with
    | Some suffix => firstn (length without_prefix - length suffix) without_prefix
    | None => without_prefix
    end in
  if length candidate <? 2 then word else candidate.







(** A text that [re.sub] accepts as a replacement template. *)
Definition well_formed_template (repl : str) : Prop :=
  exists template, Py.parse_template repl = Py.Returns template.


(** A token as the tokenizer produces them: characters of the class
    [[\w@#$+!']], the first and the last being word characters. *)
Definition well_formed_token (t : str) : Prop :=
  Forall (fun c => Tokenizer.in_class c = true) t /\
  Tokenizer.word_at (nth_error t 0) = true /\
  Tokenizer.word_at (nth_error t (length t - 1)) = true.

(** A character that [str.lower] leaves alone. *)
Definition lowered (c : ascii) : Prop := Py.lower_char c = c.

(** No word character at the indices [0..n] of [s]. *)
Definition no_word_upto (s : str) (n : nat) : Prop :=
  forall i, i <= n -> Tokenizer.word_at (nth_error s i) = false.

(** The state of [findall] between two attempts: after a word
    character, the characters of the class that follow are not word
    characters (they were given up by the last match). *)
Definition settled (prev : option ascii) (s : str) : Prop :=
  Tokenizer.word_at prev = true ->
  no_word_upto s (length (Py.takewhile Tokenizer.in_class s)).

(** The word is in the canonical word set, whatever its case. *)
Definition canonical (nz : JejemonNormalizer.t) (word : str) : Prop :=
  In (Py.lower word)
     (LexiconManager.words_set (JejemonNormalizer.lexicon_manager nz)).

(** The lexicon maps the word, whatever its case, to [v]: the value
    looked up is a normal form, that is a string that is not empty (the
    code tests the looked-up value for truth). *)
Definition maps_to (nz : JejemonNormalizer.t) (word v : str) : Prop :=
  LexiconManager.get_normal_word (JejemonNormalizer.lexicon_manager nz) word
  = Some v /\ v <> [].

Definition mapped (nz : JejemonNormalizer.t) (word : str) : Prop :=
  exists v, maps_to nz word v.

(** The lexicon has an entry for the word, whatever its case and
    whatever the entry. *)
Definition has_entry (nz : JejemonNormalizer.t) (word : str) : Prop :=
  exists v,
    LexiconManager.get_normal_word (JejemonNormalizer.lexicon_manager nz) word
    = Some v.

Definition all_digits (word : str) : Prop :=
  word <> [] /\ Forall (fun c => Py.is_digit c = true) word.

(** The word matches one of the numeric formats: year, date, time,
    decimal, number with a comma, percentage, hash number, money. *)
Definition numeric_format (word : str) : Prop :=
  Exists (fun r => Regex.match_anchored r word = true)
         JejemonNormalizer.number_patterns.

(** The word matches one of the patterns of formal codes. *)
Definition formal_code (word : str) : Prop :=
  Exists (fun r => Regex.match_anchored r word = true)
         JejemonNormalizer.alphanumeric_patterns.

Definition is_alnum (c : ascii) : bool := Py.is_alpha c || Py.is_digit c.

(** A representative of a character for the patterns of the skip
    policy: they tell apart the digits, the letters [a], [p] and [m] of
    the time format, the other letters, and single signs. *)
Definition representative (c : ascii) : ascii :=
  if Py.is_digit c then "0"%char
  else if Py.is_alpha c then
    if Py.mem_char (Py.lower_char c) (lit "ap") then "a"%char
    else if Py.mem_char (Py.lower_char c) (lit "m") then "m"%char
    else "x"%char
  else c.

(** The classes of [r] do not tell [c] from [c']. *)
Fixpoint agree (r : Regex.re) (c c' : ascii) : bool :=
  match r with
  | Regex.Cls p => Bool.eqb (p c) (p c')
  | Regex.Cat a b => agree a c c' && agree b c c'
  | Regex.Alt a b => agree a c c' && agree b c c'
  | Regex.Star a => agree a c c'
  | Regex.Fail => true
  | Regex.Eps => true
  end.

(** The 256 characters. *)
Definition all_ascii : list ascii := map ascii_of_nat (seq 0 256).

(** The normal form the lexicon maps [word] to, when there is one. *)
Definition lookup (nz : JejemonNormalizer.t) (word : str) : option str :=
  match LexiconManager.get_normal_word (JejemonNormalizer.lexicon_manager nz) word with
  | Some (c :: v) => Some (c :: v)
  | _ => None
  end.

(** The fuzzy rule, [look] being the lookup: the best match of [word]
    among all the slang keys counts when its score is strictly greater
    than 0.6 and [look] finds that key. *)
Definition fuzzy_with (look : str -> option str) (nz : JejemonNormalizer.t)
    (word : str) : option str :=
  let best :=
    FuzzyMatcher.find_best_match word
      (LexiconManager.get_all_jejemon_words (JejemonNormalizer.lexicon_manager nz)) in
  if Qlt_le_dec (6 # 10) (snd best) then look (fst best) else None.

(** The result of the first attempt that succeeds, else [fallback]; an
    attempt that raises ends the resolution. *)
Fixpoint first_success (attempts : list (Py.outcome (option str)))
    (fallback : str) : Py.outcome str :=
  match attempts with
  | [] => Py.Returns fallback
  | Py.Returns (Some v) :: _ => Py.Returns v
  | Py.Returns None :: rest => first_success rest fallback
  | Py.Raises :: _ => Py.Raises
  end.

(** The resolution of a word as the specification orders it, [look]
    being the lookup. *)
Definition resolve (look : str -> option str) (nz : JejemonNormalizer.t)
    (word : str) : Py.outcome str :=
  if in_dec (list_eq_dec ascii_dec) (Py.lower word)
       (LexiconManager.words_set (JejemonNormalizer.lexicon_manager nz))
  then Py.Returns word
  else
    let lemma := Lemmatizer.lemmatize word in
    first_success
      [ Py.Returns (look word);
        if JejemonNormalizer.should_apply_character_replacement nz word
        then Py.bind
               (LexiconManager.apply_character_replacements
                  (JejemonNormalizer.lexicon_manager nz) word)
               (fun rewritten => Py.Returns (look rewritten))
        else Py.Returns None;
        Py.Returns (fuzzy_with look nz word);
        Py.Returns (if list_eq_dec ascii_dec lemma word then None else look lemma);
        Py.Returns (if list_eq_dec ascii_dec lemma word then None
                    else fuzzy_with look nz lemma) ]
      word.

(** The resolution as stated: a mapping exists as soon as the lexicon
    has an entry for the word. *)
Definition normalizeWord_stated (nz : JejemonNormalizer.t) (word : str)
    : Py.outcome str :=
  resolve
    (LexiconManager.get_normal_word (JejemonNormalizer.lexicon_manager nz))
    nz word.

(** The resolution where a mapping is an entry whose normal form is not
    empty. *)
Definition fuzzy (nz : JejemonNormalizer.t) (word : str) : option str :=
  fuzzy_with (lookup nz) nz word.

Definition normalizeWord (nz : JejemonNormalizer.t) (word : str)
    : Py.outcome str :=
  resolve (lookup nz) nz word.

(** The contraction markers in their order, each with what is left of
    it: ['s], ['t], ['re], ['ve], ['ll], ['d], ['m], then the bare
    apostrophe and the backtick. *)
Definition contraction_markers : list (str * str) :=
  [ (lit "'s", lit "s"); (lit "'t", lit "t"); (lit "'re", lit "re");
    (lit "'ve", lit "ve"); (lit "'ll", lit "ll"); (lit "'d", lit "d");
    (lit "'m", lit "m"); (lit "'", []); (lit "`", []) ].

(** The modified candidate: the markers stripped one after the other. *)
Definition strip_markers (word : str) : str :=
  fold_left (fun w marker => Py.replace w (fst marker) (snd marker))
            contraction_markers word.

Definition is_quote (c : ascii) : bool := Py.mem_char c (lit "'`").

(** The word without its apostrophes and backticks. *)
Definition unquote (word : str) : str :=
  filter (fun c => negb (is_quote c)) word.

(** The evaluation of the punctuation as the specification words it:
    both the word and the modified candidate are looked up, and the
    precedence decides. *)
Definition evaluatePunctuation (nz : JejemonNormalizer.t) (word : str)
    : str * bool :=
  let modified := strip_markers word in
  match lookup nz word, lookup nz modified with
  | Some v, None => (v, false)
  | None, Some v' => (v', true)
  | Some _, Some v' => (v', true)
  | None, None => (word, false)
  end.

(** The word holds a character of the meaningful punctuation. *)
Definition punctuated (word : str) : Prop :=
  exists c, In c word /\ In c JejemonNormalizer.meaningful_punctuation.


(** A string that is one token: tokenizing it gives itself. *)
Definition single_token (t : str) : Prop :=
  well_formed_token t /\ Forall lowered t.

(** The strings a pattern matches as a whole. *)
Inductive Matches : Regex.re -> str -> Prop :=
| MEps : Matches Regex.Eps []
| MCls : forall (p : ascii -> bool) (c : ascii),
    p c = true -> Matches (Regex.Cls p) [c]
| MCat : forall (a b : Regex.re) (s1 s2 : str),
    Matches a s1 -> Matches b s2 -> Matches (Regex.Cat a b) (s1 ++ s2)
| MAltL : forall (a b : Regex.re) (s : str),
    Matches a s -> Matches (Regex.Alt a b) s
| MAltR : forall (a b : Regex.re) (s : str),
    Matches b s -> Matches (Regex.Alt a b) s
| MStarNil : forall a : Regex.re, Matches (Regex.Star a) []
| MStarApp : forall (a : Regex.re) (s1 s2 : str),
    Matches a s1 -> Matches (Regex.Star a) s2 ->
    Matches (Regex.Star a) (s1 ++ s2).

(** The score of [x] is at least the score of [y]. *)
Definition higher_eq (x y : str * Q) : Prop := (snd y <= snd x)%Q.

(** The listings of the characters table in their order: each variant,
    lower-cased, with the letter it is listed under, lower-cased. *)
Definition listings (lv : list (str * list str)) : list (str * str) :=
  flat_map
    (fun entry =>
       map (fun variant => (Py.lower variant, Py.lower (fst entry))) (snd entry))
    lv.

(** [old] occurs in [s], whatever the case of the letters. *)
Fixpoint occurs_ci (old s : str) : bool :=
  Py.prefix_by Py.eqb_ci old s ||
  match s with
  | [] => false
  | _ :: t => occurs_ci old t
  end.

(** A word written with lower-case letters and digits only. *)
Definition plain_word (w : str) : Prop :=
  w <> [] /\ Forall (fun c => Py.is_lower c || Py.is_digit c = true) w.

(** [s.rstrip()], the second half of [s.strip()]. *)
Definition rstrip (s : str) : str := rev (Py.dropwhile Py.is_space (rev s)).

End Reference.

(** * Properties *)

(** ** Strings *)
Section StringFacts.

Lemma str_eqb_eq (a b : str) : Py.str_eqb a b = true <-> a = b.
Proof.
  revert b; induction a as [|x a IH]; intros [|y b]; simpl;
    try (split; [discriminate | discriminate]); try tauto.
  rewrite andb_true_iff, Ascii.eqb_eq, IH.
  split; [intros [-> ->]; reflexivity | intros E; inversion E; auto].
Qed.

Lemma str_eqb_refl (a : str) : Py.str_eqb a a = true.
Proof. apply str_eqb_eq; reflexivity. Qed.

Lemma str_eqb_neq (a b : str) : Py.str_eqb a b = false <-> a <> b.
Proof.
  rewrite <- str_eqb_eq. destruct (Py.str_eqb a b); split; congruence.
Qed.

Lemma ascii_eqb_sym (x y : ascii) : Ascii.eqb x y = Ascii.eqb y x.
Proof.
  destruct (Ascii.eqb x y) eqn:E.
  - apply Ascii.eqb_eq in E; subst; symmetry; apply Ascii.eqb_refl.
  - symmetry; apply Ascii.eqb_neq; intros ->.
    rewrite Ascii.eqb_refl in E; discriminate.
Qed.

Lemma all_ascii_complete (c : ascii) : In c Reference.all_ascii.
Proof.
  unfold Reference.all_ascii. rewrite <- (ascii_nat_embedding c).
  apply in_map, in_seq. pose proof (nat_ascii_bounded c). lia.
Qed.

End StringFacts.

(** ** The edit distance *)
Section EditDistanceFacts.

Import EditDistance Reference.

Lemma lev_nil_l (b : str) : lev [] b = length b.
Proof. destruct b; reflexivity. Qed.

Lemma lev_nil_r (a : str) : lev a [] = length a.
Proof. destruct a; reflexivity. Qed.

Lemma lev_cons (x y : ascii) (a b : str) :
  lev (x :: a) (y :: b) =
  Nat.min (Nat.min (lev a (y :: b) + 1) (lev (x :: a) b + 1))
          (lev a b + (if Ascii.eqb x y then 0 else 1)).
Proof. reflexivity. Qed.

Lemma lev_sym (a b : str) : lev a b = lev b a.
Proof.
  revert b; induction a as [|x a IHa]; intros b.
  - now rewrite lev_nil_l, lev_nil_r.
  - induction b as [|y b IHb].
    + now rewrite lev_nil_l, lev_nil_r.
    + rewrite !lev_cons, IHb, (IHa (y :: b)), (IHa b), (ascii_eqb_sym x y).
      lia.
Qed.

Lemma lev_refl (a : str) : lev a a = 0.
Proof.
  induction a as [|x a IH]; [reflexivity|].
  rewrite lev_cons, IH, Ascii.eqb_refl. lia.
Qed.

Lemma lev_le_max (a b : str) : lev a b <= Nat.max (length a) (length b).
Proof.
  revert b; induction a as [|x a IHa]; intros b.
  - rewrite lev_nil_l; simpl; lia.
  - destruct b as [|y b].
    + rewrite lev_nil_r; lia.
    + rewrite lev_cons. specialize (IHa b). simpl length.
      destruct (Ascii.eqb x y); lia.
Qed.

Lemma row_of_head (a q r : str) : exists tl, row_of a q r = lev a q :: tl.
Proof. destruct r; simpl; eauto. Qed.

Lemma inner_loop_row (c1 : ascii) (a r q : str) :
  row_of (c1 :: a) q r =
  lev (c1 :: a) q :: inner_loop c1 r (row_of a q r) (lev (c1 :: a) q).
Proof.
  revert q; induction r as [|c2 r IH]; intros q; [reflexivity|].
  cbn [row_of inner_loop].
  destruct (row_of_head a (c2 :: q) r) as [tl E].
  rewrite (IH (c2 :: q)), E. cbn [inner_loop].
  rewrite <- E. reflexivity.
Qed.

Lemma row_of_nil (q r : str) : row_of [] q r = seq (length q) (length r + 1).
Proof.
  revert q; induction r as [|c r IH]; intros q; simpl.
  - now rewrite lev_nil_l.
  - now rewrite lev_nil_l, IH.
Qed.

Lemma row_of_last (a q r : str) : last (row_of a q r) 0 = lev a (rev r ++ q).
Proof.
  revert q; induction r as [|c r IH]; intros q; [reflexivity|].
  cbn [row_of rev]. rewrite <- app_assoc. simpl app. rewrite <- IH.
  destruct (row_of_head a (c :: q) r) as [tl ->]. reflexivity.
Qed.

Lemma outer_loop_row (s1 s2 a : str) :
  outer_loop (length a) s1 s2 (row_of a [] s2) = row_of (rev s1 ++ a) [] s2.
Proof.
  revert a; induction s1 as [|c1 s1 IH]; intros a; [reflexivity|].
  cbn [outer_loop rev]. rewrite <- app_assoc. simpl app.
  rewrite <- (IH (c1 :: a)). simpl length.
  rewrite (inner_loop_row c1 a s2 []). rewrite lev_nil_r. simpl length.
  replace (length a + 1) with (S (length a)) by lia. reflexivity.
Qed.

Lemma calculate_rows_lev (s1 s2 : str) :
  calculate_rows s1 s2 = lev (rev s1) (rev s2).
Proof.
  unfold calculate_rows. destruct (length s2 =? 0) eqn:E.
  - apply Nat.eqb_eq, length_zero_iff_nil in E; subst s2.
    simpl. now rewrite lev_nil_r, length_rev.
  - pose proof (row_of_nil [] s2) as R. change (length (@nil ascii)) with 0 in R.
    rewrite <- R.
    pose proof (outer_loop_row s1 s2 []) as O.
    change (length (@nil ascii)) with 0 in O.
    rewrite O, row_of_last.
    now rewrite !app_nil_r.
Qed.

Lemma calculate_lev (s1 s2 : str) : calculate s1 s2 = lev (rev s1) (rev s2).
Proof.
  unfold calculate. destruct (length s1 <? length s2).
  - rewrite calculate_rows_lev. apply lev_sym.
  - apply calculate_rows_lev.
Qed.

Lemma calculate_sym (a b : str) : calculate a b = calculate b a.
Proof. rewrite !calculate_lev. apply lev_sym. Qed.

Lemma calculate_refl (a : str) : calculate a a = 0.
Proof. rewrite calculate_lev. apply lev_refl. Qed.

Lemma calculate_le_max (a b : str) :
  calculate a b <= Nat.max (length a) (length b).
Proof.
  rewrite calculate_lev.
  pose proof (lev_le_max (rev a) (rev b)) as H.
  now rewrite !length_rev in H.
Qed.

Lemma ratio_bounds (n m : nat) :
  0 < m -> n <= m -> (0 <= ratio n m /\ ratio n m <= 1)%Q.
Proof.
  intros Hm Hn. unfold ratio.
  assert (0 < inject_Z (Z.of_nat m))%Q as Hpos.
  { replace 0%Q with (inject_Z 0) by reflexivity. rewrite <- Zlt_Qlt. lia. }
  split.
  - apply Qle_shift_div_l; [exact Hpos|].
    rewrite Qmult_0_l.
    replace 0%Q with (inject_Z 0) by reflexivity. rewrite <- Zle_Qle. lia.
  - apply Qle_shift_div_r; [exact Hpos|].
    rewrite Qmult_1_l. rewrite <- Zle_Qle. lia.
Qed.

Lemma similarity_unfold (a b : str) :
  similarity a b =
  if Nat.max (length a) (length b) =? 0 then 1%Q
  else (1 - ratio (calculate a b) (Nat.max (length a) (length b)))%Q.
Proof.
  unfold similarity. destruct a, b; reflexivity.
Qed.

Lemma similarity_bounds (a b : str) :
  (0 <= similarity a b /\ similarity a b <= 1)%Q.
Proof.
  rewrite similarity_unfold.
  destruct (Nat.max (length a) (length b) =? 0) eqn:E.
  - split; lra.
  - apply Nat.eqb_neq in E.
    destruct (ratio_bounds (calculate a b) (Nat.max (length a) (length b)))
      as [H0 H1]; [lia | apply calculate_le_max |].
    split; lra.
Qed.

End EditDistanceFacts.

(** C8. The distance is symmetric and vanishes on equal strings; the
    similarity is [1 - distance / max(|a|,|b|)] when the longer string
    is not empty, it is [1] on two empty strings, and it lies between
    [0] and [1]. *)
Theorem C8_distance_and_similarity (a b : str) :
  EditDistance.calculate a b = EditDistance.calculate b a /\
  EditDistance.calculate a a = 0 /\
  EditDistance.similarity a b =
    (if Nat.max (length a) (length b) =? 0 then 1%Q
     else (1 - EditDistance.ratio (EditDistance.calculate a b)
                 (Nat.max (length a) (length b)))%Q) /\
  EditDistance.similarity [] [] = 1%Q /\
  (0 <= EditDistance.similarity a b /\ EditDistance.similarity a b <= 1)%Q.
Proof.
  repeat split.
  - apply calculate_sym.
  - apply calculate_refl.
  - apply similarity_unfold.
  - apply similarity_bounds.
  - apply similarity_bounds.
Qed.

(** ** The fuzzy matcher *)
Section FuzzyMatcherFacts.

Import EditDistance FuzzyMatcher.

Lemma gtb_true (x y : Q) : gtb x y = true <-> (y < x)%Q.
Proof.
  unfold gtb. rewrite negb_true_iff.
  destruct (Qle_bool x y) eqn:E.
  - apply Qle_bool_iff in E. split; [discriminate|].
    intros H. exfalso. apply (Qlt_not_le _ _ H E).
  - split; [intros _|reflexivity].
    apply Qnot_le_lt. intros H. apply Qle_bool_iff in H. congruence.
Qed.

Lemma gtb_false (x y : Q) : gtb x y = false <-> (x <= y)%Q.
Proof.
  unfold gtb. rewrite negb_false_iff. apply Qle_bool_iff.
Qed.

(** What the loop returns from a state [(bm, bs)]: either the state
    itself, no candidate scoring above [bs], or the earliest candidate
    of greatest score, that score being above [bs]. *)
Lemma scan_spec (word : str) (candidates : list str) :
  forall (bm : str) (bs : Q),
    let r := scan word candidates (bm, bs) in
    (r = (bm, bs) /\
     forall c, In c candidates -> (similarity word c <= bs)%Q)
    \/
    (exists before after,
        candidates = before ++ fst r :: after /\
        snd r = similarity word (fst r) /\
        (bs < snd r)%Q /\
        (forall c, In c before -> (similarity word c < snd r)%Q) /\
        (forall c, In c after -> (similarity word c <= snd r)%Q)).
Proof.
  induction candidates as [|c rest IH]; intros bm bs; cbn zeta.
  - left. split; [reflexivity|]. intros c [].
  - cbn [scan snd]. destruct (gtb (similarity word c) bs) eqn:G.
    + apply gtb_true in G. right.
      destruct (IH c (similarity word c)) as [[E H]|(before & after & E & S & L & B & A)].
      * exists [], rest. rewrite E. cbn [fst snd app].
        repeat split; auto. intros x [].
      * exists (c :: before), after. split; [cbn [app]; congruence|].
        split; [exact S|]. split; [eapply Qlt_trans; eassumption|].
        split; [|exact A].
        intros x [<-|Hx]; [exact L | apply B, Hx].
    + apply gtb_false in G.
      destruct (IH bm bs) as [[E H]|(before & after & E & S & L & B & A)].
      * left. split; [exact E|].
        intros x [<-|Hx]; [exact G | apply H, Hx].
      * right. exists (c :: before), after. split; [cbn [app]; congruence|].
        split; [exact S|]. split; [exact L|]. split; [|exact A].
        intros x [<-|Hx]; [eapply Qle_lt_trans; eassumption | apply B, Hx].
Qed.

End FuzzyMatcherFacts.

(** C9. [find_best_match] returns the earliest candidate of greatest
    similarity with that similarity, or the empty string with score 0
    when the list is empty or no candidate scores above 0; on "helo"
    against "hello" and "world" it returns "hello" with a score above
    0.6. *)
Theorem C9_find_best_match (word : str) (candidates : list str) :
  let best_match := fst (FuzzyMatcher.find_best_match word candidates) in
  let best_score := snd (FuzzyMatcher.find_best_match word candidates) in
  ((best_match = [] /\ best_score = 0%Q /\
    forall c, In c candidates -> (EditDistance.similarity word c <= 0)%Q)
   \/
   (exists before after,
       candidates = before ++ best_match :: after /\
       best_score = EditDistance.similarity word best_match /\
       (0 < best_score)%Q /\
       (forall c, In c before ->
                  (EditDistance.similarity word c < best_score)%Q) /\
       (forall c, In c after ->
                  (EditDistance.similarity word c <= best_score)%Q)))
  /\ FuzzyMatcher.find_best_match word [] = ([], 0%Q)
  /\ fst (FuzzyMatcher.find_best_match (lit "helo") [lit "hello"; lit "world"])
       = lit "hello"
  /\ (6 # 10 <
      snd (FuzzyMatcher.find_best_match (lit "helo") [lit "hello"; lit "world"]))%Q.
Proof.
  cbn zeta. split; [|split; [reflexivity|split; [reflexivity|reflexivity]]].
  unfold FuzzyMatcher.find_best_match.
  destruct (scan_spec word candidates [] 0%Q) as [[E H]|H].
  - left. cbn zeta in E.
    split; [exact (f_equal fst E)|]. split; [exact (f_equal snd E)|exact H].
  - right. exact H.
Qed.

(** ** The confidence score *)
Section ConfidenceFacts.

Import EditDistance JejemonNormalizer Reference.

Lemma pair_confidence_token_score (pair : str * str) :
  pair_confidence pair = token_score pair.
Proof.
  destruct pair as [a b]. unfold pair_confidence, token_score; cbn [fst snd].
  destruct (list_eq_dec ascii_dec a b) as [->|N].
  - now rewrite str_eqb_refl.
  - apply str_eqb_neq in N. now rewrite N.
Qed.

Lemma fold_total (pairs : list (str * str)) (acc : Q) :
  (fold_left (fun total pair => total + pair_confidence pair) pairs acc
   == acc + Qsum (map token_score pairs))%Q.
Proof.
  revert acc; induction pairs as [|p pairs IH]; intros acc; cbn [fold_left map Qsum fold_right].
  - lra.
  - rewrite IH, pair_confidence_token_score. fold (Qsum (map token_score pairs)). lra.
Qed.

Lemma total_confidence_sum (pairs : list (str * str)) :
  (total_confidence pairs == Qsum (map token_score pairs))%Q.
Proof. unfold total_confidence. rewrite fold_total. lra. Qed.

Lemma token_score_bounds (pair : str * str) :
  (0 <= token_score pair /\ token_score pair <= 1)%Q.
Proof.
  unfold token_score. destruct (list_eq_dec ascii_dec (fst pair) (snd pair)).
  - split; lra.
  - apply similarity_bounds.
Qed.

Lemma Qsum_bounds (pairs : list (str * str)) :
  (0 <= Qsum (map token_score pairs) /\
   Qsum (map token_score pairs) <= inject_Z (Z.of_nat (length pairs)))%Q.
Proof.
  induction pairs as [|p pairs [IH0 IH1]].
  - change (0 <= 0 /\ 0 <= 0)%Q. split; lra.
  - cbn [map Qsum fold_right length]. fold (Qsum (map token_score pairs)).
    destruct (token_score_bounds p) as [H0 H1].
    rewrite Nat2Z.inj_succ. unfold Z.succ. rewrite inject_Z_plus.
    change (inject_Z 1) with 1%Q. split; lra.
Qed.

Lemma mean_bounds (pairs : list (str * str)) :
  pairs <> [] ->
  (0 <= mean (map token_score pairs) /\ mean (map token_score pairs) <= 1)%Q.
Proof.
  intros N. unfold mean. rewrite length_map.
  destruct (Qsum_bounds pairs) as [H0 H1].
  assert (0 < inject_Z (Z.of_nat (length pairs)))%Q as Hpos.
  { replace 0%Q with (inject_Z 0) by reflexivity. rewrite <- Zlt_Qlt.
    destruct pairs; [congruence | cbn [length]; lia]. }
  split.
  - apply Qle_shift_div_l; [exact Hpos | lra].
  - apply Qle_shift_div_r; [exact Hpos | lra].
Qed.

Lemma confidence_refines (original normalized : str) :
  (get_normalization_confidence original normalized
   == confidence original normalized)%Q.
Proof.
  unfold get_normalization_confidence, confidence.
  destruct (list_eq_dec ascii_dec original normalized) as [->|N].
  - rewrite str_eqb_refl. reflexivity.
  - apply str_eqb_neq in N. rewrite N.
    set (ot := Tokenizer.tokenize original).
    set (nt := Tokenizer.tokenize normalized).
    destruct (Nat.eq_dec (length ot) (length nt)) as [E|E].
    + rewrite (proj2 (Nat.eqb_eq _ _) E). cbn [negb].
      destruct ot as [|t ot'] eqn:Eot.
      * reflexivity.
      * destruct (Nat.eq_dec (length (t :: ot')) 0) as [Z|_]; [discriminate Z|].
        unfold mean. rewrite length_map, length_combine, <- E, Nat.min_id.
        rewrite total_confidence_sum. reflexivity.
    + rewrite (proj2 (Nat.eqb_neq _ _) E). cbn [negb]. reflexivity.
Qed.

Lemma confidence_bounds (original normalized : str) :
  (0 <= confidence original normalized /\
   confidence original normalized <= 1)%Q.
Proof.
  unfold confidence.
  destruct (list_eq_dec ascii_dec original normalized); [split; lra|].
  set (ot := Tokenizer.tokenize original).
  set (nt := Tokenizer.tokenize normalized).
  destruct (Nat.eq_dec (length ot) (length nt)) as [E|E]; [|split; lra].
  destruct (Nat.eq_dec (length ot) 0) as [Z|Z]; [split; lra|].
  apply mean_bounds. intros C.
  apply (f_equal (@length _)) in C. rewrite length_combine, <- E, Nat.min_id in C.
  cbn in C. contradiction.
Qed.

End ConfidenceFacts.

(** C6. The confidence is 0 for identical strings, else 0.5 when the
    token counts differ, else 0 without tokens, else the mean of the
    scores of the aligned pairs (1 for an unchanged token, the
    similarity for a changed one); it lies between 0 and 1; it is 0 on
    "abc" against itself and 0.5 on "a b" against "abc". *)
Theorem C6_confidence (original normalized : str) :
  (JejemonNormalizer.get_normalization_confidence original normalized
   == Reference.confidence original normalized)%Q /\
  (0 <= JejemonNormalizer.get_normalization_confidence original normalized)%Q /\
  (JejemonNormalizer.get_normalization_confidence original normalized <= 1)%Q /\
  (JejemonNormalizer.get_normalization_confidence (lit "abc") (lit "abc") == 0)%Q /\
  (JejemonNormalizer.get_normalization_confidence (lit "a b") (lit "abc")
   == 1 # 2)%Q.
Proof.
  pose proof (confidence_refines original normalized) as R.
  destruct (confidence_bounds original normalized) as [H0 H1].
  split; [exact R|]. split; [rewrite R; exact H0|]. split; [rewrite R; exact H1|].
  split; reflexivity.
Qed.

(** ** The lemmatizer *)
Section LemmatizerFacts.

Import Lemmatizer.

Lemma startswith_split (w p : str) :
  Py.startswith w p = true -> w = p ++ skipn (length p) w.
Proof.
  unfold Py.startswith. revert w; induction p as [|x p IH]; intros w H.
  - reflexivity.
  - destruct w as [|y w]; [discriminate|]. cbn in H.
    apply andb_true_iff in H as [E H]. apply Ascii.eqb_eq in E; subst y.
    cbn. f_equal. apply IH, H.
Qed.

Lemma endswith_split (w s : str) :
  Py.endswith w s = true -> w = firstn (length w - length s) w ++ s.
Proof.
  unfold Py.endswith. intros H. apply andb_true_iff in H as [_ H].
  apply str_eqb_eq in H.
  transitivity (firstn (length w - length s) w ++ skipn (length w - length s) w).
  - symmetry. apply firstn_skipn.
  - f_equal. exact H.
Qed.

Lemma strip_prefix_find (rules : list (str * list str)) (w : str) :
  strip_prefix rules w =
  match find (fun prefix => Py.startswith w prefix) (Py.dict_keys rules) with
  | Some prefix => skipn (length prefix) w
  | None => w
  end.
Proof.
  induction rules as [|[prefix alternatives] rules IH]; [reflexivity|].
  cbn [strip_prefix Py.dict_keys map fst find].
  destruct (Py.startswith w prefix); [reflexivity | exact IH].
Qed.

Lemma strip_suffix_find (suffixes : list str) (w : str) :
  strip_suffix suffixes w =
  match find (fun suffix => Py.endswith w suffix && (length suffix <? length w))
             suffixes with
  | Some suffix => drop_last (length suffix) w
  | None => w
  end.
Proof.
  induction suffixes as [|suffix suffixes IH]; [reflexivity|].
  cbn [strip_suffix find].
  destruct (Py.endswith w suffix && (length suffix <? length w));
    [reflexivity | exact IH].
Qed.

Lemma prefix_rules_keys : Py.dict_keys prefix_rules = Reference.prefix_table.
Proof. reflexivity. Qed.

Lemma suffix_rules_keys : Py.dict_keys suffix_rules = Reference.suffix_table.
Proof. reflexivity. Qed.

Lemma suffix_table_nonempty (s : str) :
  In s Reference.suffix_table -> length s <> 0.
Proof.
  intros H. cbn in H.
  repeat (destruct H as [<-|H]; [cbn; lia|]). destruct H.
Qed.

Lemma lemmatize_reference (word : str) :
  lemmatize word = Reference.lemmatize word.
Proof.
  unfold lemmatize, lemmatize_with, Reference.lemmatize,
    Reference.first_prefix, Reference.first_suffix.
  rewrite strip_prefix_find, strip_suffix_find,
    prefix_rules_keys, suffix_rules_keys.
  set (w1 := match find _ Reference.prefix_table with
             | Some prefix => skipn (length prefix) word
             | None => word
             end).
  destruct (find _ Reference.suffix_table) as [suffix|] eqn:F; [|reflexivity].
  apply find_some in F as [Hin _].
  apply suffix_table_nonempty in Hin.
  unfold drop_last. apply Nat.eqb_neq in Hin. now rewrite Hin.
Qed.

Lemma strip_prefix_keys (P P' : list (str * list str)) (w : str) :
  map fst P = map fst P' -> strip_prefix P w = strip_prefix P' w.
Proof.
  intros E. rewrite !strip_prefix_find. unfold Py.dict_keys. now rewrite E.
Qed.

Lemma lemmatize_with_keys (P P' : list (str * list str))
    (S : list (str * str)) (w : str) :
  map fst P = map fst P' -> lemmatize_with P S w = lemmatize_with P' S w.
Proof.
  intros E. unfold lemmatize_with. now rewrite (strip_prefix_keys P P' w E).
Qed.

Lemma lemmatize_one_pass (word : str) :
  lemmatize word = word \/
  exists prefix suffix,
    (prefix = [] \/ In prefix Reference.prefix_table) /\
    (suffix = [] \/ In suffix Reference.suffix_table) /\
    word = prefix ++ lemmatize word ++ suffix.
Proof.
  rewrite lemmatize_reference. unfold Reference.lemmatize.
  set (w1 := match Reference.first_prefix word with
             | Some prefix => skipn (length prefix) word
             | None => word
             end).
  set (w2 := match Reference.first_suffix w1 with
             | Some suffix => firstn (length w1 - length suffix) w1
             | None => w1
             end).
  destruct (length w2 <? 2); [left; reflexivity|right].
  assert (exists prefix, (prefix = [] \/ In prefix Reference.prefix_table) /\
                         word = prefix ++ w1) as (prefix & Hp & Ep).
  { subst w1. unfold Reference.first_prefix.
    destruct (find _ Reference.prefix_table) as [prefix|] eqn:F.
    - apply find_some in F as [Hin Hs]. exists prefix.
      split; [right; exact Hin | apply startswith_split, Hs].
    - exists []. split; [left; reflexivity | reflexivity]. }
  assert (exists suffix, (suffix = [] \/ In suffix Reference.suffix_table) /\
                         w1 = w2 ++ suffix) as (suffix & Hs & Es).
  { subst w2. unfold Reference.first_suffix.
    destruct (find _ Reference.suffix_table) as [suffix|] eqn:F.
    - apply find_some in F as [Hin Hs]. apply andb_true_iff in Hs as [Hs _].
      exists suffix. split; [right; exact Hin | apply endswith_split, Hs].
    - exists []. split; [left; reflexivity | now rewrite app_nil_r]. }
  exists prefix, suffix. split; [exact Hp|]. split; [exact Hs|].
  rewrite Ep at 1. now rewrite Es at 1.
Qed.

End LemmatizerFacts.

(** C7, as stated, fails: "naging" loses the prefix "nag"; "ing" is the
    first suffix that "ing" ends with and no character would remain, so
    as stated nothing more goes and the lemma is "ing"; the code goes on
    to "ng", is left with "i" and gives "naging" back. *)
Lemma C7_counterexample :
  ~ (forall word : str,
        Lemmatizer.lemmatize word = Reference.lemmatize_stated word).
Proof.
  intros H. specialize (H (lit "naging")). vm_compute in H. discriminate H.
Qed.

(** C7, amended.  [lemmatize] is one pass over the ordered tables: the first
    prefix of the table that the word starts with is stripped, whatever
    the alternative spellings attached to the keys; then the first
    suffix of the table that the word ends with and that leaves at least
    one character is stripped; a candidate of fewer than two characters
    gives the word back.  At most one prefix and one suffix go, and the
    result need not be a fixed point of [lemmatize]. *)
Theorem C7_lemmatize_single_pass (word : str) :
  Lemmatizer.lemmatize word = Reference.lemmatize word /\
  (forall (P P' : list (str * list str)) (S : list (str * str)),
      map fst P = map fst P' ->
      Lemmatizer.lemmatize_with P S word = Lemmatizer.lemmatize_with P' S word) /\
  (Lemmatizer.lemmatize word = word \/
   exists prefix suffix,
     (prefix = [] \/ In prefix Reference.prefix_table) /\
     (suffix = [] \/ In suffix Reference.suffix_table) /\
     word = prefix ++ Lemmatizer.lemmatize word ++ suffix) /\
  (Lemmatizer.lemmatize word = word \/ 2 <= length (Lemmatizer.lemmatize word)) /\
  Lemmatizer.lemmatize (lit "nagnagluto") = lit "nagluto" /\
  Lemmatizer.lemmatize (lit "nagluto") = lit "luto".
Proof.
  split; [apply lemmatize_reference|].
  split; [intros P P' S E; apply lemmatize_with_keys, E|].
  split; [apply lemmatize_one_pass|].
  split; [|split; reflexivity].
  unfold Lemmatizer.lemmatize, Lemmatizer.lemmatize_with.
  match goal with |- context [length ?c <? 2] =>
    destruct (length c <? 2) eqn:E end.
  - left; reflexivity.
  - right. apply Nat.ltb_ge in E. exact E.
Qed.

(** ** The character replacements of the lexicon manager *)
Section LexiconManagerFacts.

Import LexiconManager.
















Lemma insert_longest_first_perm (x : str) (l : list str) :
  Permutation (insert_longest_first x l) (x :: l).
Proof.
  induction l as [|y l IH]; cbn [insert_longest_first]; [reflexivity|].
  destruct (length y <=? length x); [reflexivity|].
  rewrite IH. apply perm_swap.
Qed.

Lemma sorted_longest_first_perm (l : list str) :
  Permutation (sorted_longest_first l) l.
Proof.
  induction l as [|x l IH]; cbn [sorted_longest_first]; [reflexivity|].
  rewrite insert_longest_first_perm. now constructor.
Qed.



End LexiconManagerFacts.




(** ** The tokenizer *)
Section TokenizerFacts.

Import Tokenizer Reference.

Lemma lower_char_idem (c : ascii) : Py.lower_char (Py.lower_char c) = Py.lower_char c.
Proof. destruct c as [[] [] [] [] [] [] [] []]; reflexivity. Qed.

Lemma not_in_class_not_word (c : ascii) : in_class c = false -> Py.is_word c = false.
Proof. unfold in_class. intros H. apply orb_false_iff in H. tauto. Qed.

Lemma takewhile_length_le (p : ascii -> bool) (s : str) :
  length (Py.takewhile p s) <= length s.
Proof.
  induction s as [|c s IH]; cbn; [lia|]. destruct (p c); cbn; lia.
Qed.

Lemma takewhile_app (p : ascii -> bool) (t rest : str) :
  Forall (fun c => p c = true) t ->
  (rest = [] \/ exists c more, rest = c :: more /\ p c = false) ->
  Py.takewhile p (t ++ rest) = t.
Proof.
  intros F R. induction F as [|c t Hc F IH]; cbn.
  - destruct R as [->|(c & more & -> & Hc)]; [reflexivity|]. cbn. now rewrite Hc.
  - now rewrite Hc, IH.
Qed.

Lemma takewhile_next (p : ascii -> bool) (s : str) :
  match nth_error s (length (Py.takewhile p s)) with
  | Some c => p c = false
  | None => True
  end.
Proof.
  induction s as [|c s IH]; cbn; [exact I|].
  destruct (p c) eqn:E; cbn; [exact IH | exact E].
Qed.

Lemma takewhile_skipn (p : ascii -> bool) (s : str) (e : nat) :
  e <= length (Py.takewhile p s) ->
  length (Py.takewhile p (skipn e s)) = length (Py.takewhile p s) - e.
Proof.
  revert s; induction e as [|e IH]; intros s H.
  - cbn. lia.
  - destruct s as [|c s]; cbn in *; [lia|].
    destruct (p c); cbn in *; [apply IH; lia | lia].
Qed.

Lemma takewhile_prefix (p : ascii -> bool) (s : str) (i : nat) :
  i < length (Py.takewhile p s) ->
  exists c, nth_error s i = Some c /\ p c = true.
Proof.
  revert i; induction s as [|c s IH]; intros i H; cbn in H; [lia|].
  destruct (p c) eqn:E; cbn in H; [|lia].
  destruct i as [|i]; cbn; [eauto | apply IH; lia].
Qed.

Lemma word_at_run_end (s : str) :
  word_at (nth_error s (length (Py.takewhile in_class s))) = false.
Proof.
  pose proof (takewhile_next in_class s) as H.
  destruct (nth_error s _) as [c|]; [|reflexivity].
  cbn. apply not_in_class_not_word, H.
Qed.

(** Passing over the rest of a match. *)
Lemma findall_skip (k : nat) :
  forall (s : str) (prev : option ascii),
    k <= length s ->
    findall prev k s =
    findall (match k with 0 => prev | S k' => nth_error s k' end) 0 (skipn k s).
Proof.
  induction k as [|k IH]; intros s prev H; [reflexivity|].
  destruct s as [|c s]; cbn in H; [lia|].
  cbn [findall skipn]. rewrite IH by lia.
  destruct k; reflexivity.
Qed.

(** The backtracking, read from an index that holds no word character. *)
Lemma longest_end_some (s : str) (e e' : nat) :
  word_at (nth_error s e) = false ->
  longest_end s e = Some e' ->
  1 <= e' <= e /\
  word_at (nth_error s (e' - 1)) = true /\
  forall i, e' <= i <= e -> word_at (nth_error s i) = false.
Proof.
  induction e as [|e IH]; intros W L; cbn [longest_end] in L; [discriminate|].
  unfold boundary in L. rewrite W, xorb_false_r in L.
  destruct (word_at (nth_error s e)) eqn:We.
  - inversion L; subst e'. cbn [Nat.sub]. rewrite Nat.sub_0_r.
    split; [lia|]. split; [exact We|].
    intros i Hi. replace i with (S e) by lia. exact W.
  - destruct (IH eq_refl L) as (R & Wl & N). split; [lia|]. split; [exact Wl|].
    intros i Hi. destruct (Nat.eq_dec i (S e)) as [->|Ne]; [exact W|].
    apply N; lia.
Qed.

Lemma longest_end_none (s : str) (e : nat) :
  word_at (nth_error s e) = false ->
  longest_end s e = None -> no_word_upto s e.
Proof.
  induction e as [|e IH]; intros W L i Hi.
  - replace i with 0 by lia. exact W.
  - cbn [longest_end] in L. unfold boundary in L. rewrite W, xorb_false_r in L.
    destruct (word_at (nth_error s e)) eqn:We; [discriminate|].
    destruct (Nat.eq_dec i (S e)) as [->|Ne]; [exact W|].
    apply (IH eq_refl L); lia.
Qed.

Lemma longest_end_no_word (s : str) (e : nat) :
  no_word_upto s e -> longest_end s e = None.
Proof.
  induction e as [|e IH]; intros N; [reflexivity|].
  cbn [longest_end]. unfold boundary. rewrite (N e), (N (S e)) by lia.
  cbn [xorb]. apply IH. intros i Hi. apply N; lia.
Qed.

(** What a successful attempt tells. *)
Lemma match_at_some (prev : option ascii) (s : str) (e : nat) :
  settled prev s ->
  match_at prev s = Some e ->
  1 <= e <= length (Py.takewhile in_class s) /\
  word_at prev = false /\
  word_at (nth_error s 0) = true /\
  word_at (nth_error s (e - 1)) = true /\
  forall i, e <= i <= length (Py.takewhile in_class s) ->
            word_at (nth_error s i) = false.
Proof.
  intros St M. unfold match_at in M.
  destruct (boundary prev (nth_error s 0)) eqn:B; [|discriminate].
  destruct (longest_end_some s _ e (word_at_run_end s) M) as (R & Wl & N).
  destruct (word_at prev) eqn:Wp.
  - rewrite (longest_end_no_word s _ (St Wp)) in M. discriminate.
  - unfold boundary in B. rewrite Wp in B. cbn in B. auto.
Qed.

(** [findall] from one attempt to the next. *)
Lemma findall_unfold (prev : option ascii) (c : ascii) (t : str) :
  findall prev 0 (c :: t) =
  match match_at prev (c :: t) with
  | Some e =>
      firstn e (c :: t) ::
      findall (nth_error (c :: t) (e - 1)) 0 (skipn e (c :: t))
  | None => findall (Some c) 0 t
  end.
Proof.
  cbn [findall]. destruct (match_at prev (c :: t)) as [e|] eqn:M; [|reflexivity].
  f_equal. unfold match_at in M.
  destruct (boundary prev (nth_error (c :: t) 0)); [|discriminate].
  assert (1 <= e <= length (c :: t)) as R.
  { pose proof (takewhile_length_le in_class (c :: t)) as Hle.
    revert M Hle. generalize (length (Py.takewhile in_class (c :: t))) as m.
    induction m as [|m IH]; cbn [longest_end]; [discriminate|].
    destruct (boundary _ _).
    - intros E; inversion E; subst. lia.
    - intros E Hle. apply IH in E; lia. }
  destruct e as [|e]; [lia|]. cbn [Nat.sub skipn]. rewrite Nat.sub_0_r.
  rewrite findall_skip by (cbn in R; lia).
  destruct e; reflexivity.
Qed.

Lemma firstn_in_run (p : ascii -> bool) (s : str) (e : nat) :
  e <= length (Py.takewhile p s) ->
  Forall (fun c => p c = true) (firstn e s).
Proof.
  revert s; induction e as [|e IH]; intros s H; [constructor|].
  destruct s as [|c s]; cbn in H; [lia|].
  destruct (p c) eqn:E; cbn in H; [|lia].
  cbn [firstn]. constructor; [exact E | apply IH; lia].
Qed.

Lemma firstn_app_exact (t rest : str) : firstn (length t) (t ++ rest) = t.
Proof.
  rewrite <- (Nat.add_0_r (length t)), firstn_app_2.
  cbn [firstn]. apply app_nil_r.
Qed.

Lemma skipn_app_exact (t rest : str) : skipn (length t) (t ++ rest) = rest.
Proof.
  rewrite skipn_app, skipn_all2, Nat.sub_diag by lia. reflexivity.
Qed.

Lemma Forall_firstn_str (P : ascii -> Prop) (s : str) (e : nat) :
  Forall P s -> Forall P (firstn e s).
Proof.
  intros F; revert e; induction F as [|c t Hc Ht IH]; intros [|e];
    cbn [firstn]; constructor; auto.
Qed.

(** The tokens are made of characters of the text. *)
Lemma findall_chars (P : ascii -> Prop) (s : str) :
  Forall P s ->
  forall prev k, Forall (Forall P) (findall prev k s).
Proof.
  induction 1 as [|c t Hc Ht IH]; intros prev k; cbn [findall]; [constructor|].
  destruct k as [|k]; [|apply IH].
  destruct (match_at prev (c :: t)) as [e|]; [|apply IH].
  constructor; [|apply IH].
  apply Forall_firstn_str. now constructor.
Qed.

(** Every token found is well formed. *)
Lemma findall_well_formed (n : nat) :
  forall (s : str) (prev : option ascii),
    length s <= n -> settled prev s ->
    Forall well_formed_token (findall prev 0 s).
Proof.
  induction n as [|n IH]; intros s prev H St.
  - destruct s; [constructor | cbn in H; lia].
  - destruct s as [|c t]; [constructor|].
    rewrite findall_unfold.
    destruct (match_at prev (c :: t)) as [e|] eqn:M.
    + destruct (match_at_some _ _ _ St M) as (R & Wp & W0 & Wl & N).
      set (s := c :: t) in *.
      pose proof (takewhile_length_le in_class s) as Hle.
      constructor.
      * split; [apply firstn_in_run; lia|].
        rewrite length_firstn, Nat.min_l by lia.
        rewrite !nth_error_firstn.
        replace (0 <? e) with true by (symmetry; apply Nat.ltb_lt; lia).
        replace (e - 1 <? e) with true by (symmetry; apply Nat.ltb_lt; lia).
        split; assumption.
      * apply IH.
        -- rewrite length_skipn. subst s. cbn [length] in *. lia.
        -- intros _ i Hi. rewrite nth_error_skipn.
           rewrite takewhile_skipn in Hi by lia. apply N. lia.
    + apply IH; [cbn in H; lia|].
      intros Wc. exfalso.
      assert (no_word_upto (c :: t)
                (length (Py.takewhile in_class (c :: t)))) as N.
      { destruct (word_at prev) eqn:Wp; [apply St, Wp|].
        unfold match_at, boundary in M. rewrite Wp in M.
        cbn [nth_error] in M. rewrite Wc in M. cbn [xorb] in M.
        apply longest_end_none; [apply word_at_run_end | exact M]. }
      specialize (N 0 (Nat.le_0_l _)). cbn [nth_error] in N. congruence.
Qed.

(** A well-formed token followed by nothing, or by a character outside
    the class, is matched whole. *)
Lemma match_at_token (prev : option ascii) (t rest : str) :
  word_at prev = false ->
  well_formed_token t ->
  (rest = [] \/ exists c more, rest = c :: more /\ in_class c = false) ->
  match_at prev (t ++ rest) = Some (length t).
Proof.
  intros Wp (F & W0 & Wl) R.
  assert (0 < length t) as Hpos.
  { destruct t; [discriminate W0 | cbn; lia]. }
  unfold match_at.
  rewrite nth_error_app1 by lia.
  unfold boundary at 1. rewrite Wp, W0. cbn [xorb].
  rewrite (takewhile_app in_class t rest F R).
  destruct (length t) as [|m] eqn:L; [lia|].
  cbn [longest_end]. cbn [Nat.sub] in Wl. rewrite Nat.sub_0_r in Wl.
  unfold boundary.
  rewrite (nth_error_app1 t rest) by lia. rewrite Wl.
  rewrite (nth_error_app2 t rest) by lia.
  rewrite L, Nat.sub_diag.
  destruct R as [->|(c & more & -> & Hc)]; cbn [nth_error word_at xorb].
  - reflexivity.
  - now rewrite (not_in_class_not_word c Hc).
Qed.

Lemma findall_token (prev : option ascii) (t rest : str) :
  word_at prev = false ->
  well_formed_token t ->
  (rest = [] \/ exists c more, rest = c :: more /\ in_class c = false) ->
  findall prev 0 (t ++ rest) =
  t :: findall (nth_error t (length t - 1)) 0 rest.
Proof.
  intros Wp Wf R. pose proof (match_at_token prev t rest Wp Wf R) as M.
  destruct Wf as (F & W0 & Wl).
  destruct t as [|c t']; [discriminate W0|].
  change ((c :: t') ++ rest) with (c :: (t' ++ rest)) in *.
  rewrite findall_unfold, M.
  change (c :: (t' ++ rest)) with ((c :: t') ++ rest).
  rewrite firstn_app_exact, skipn_app_exact.
  rewrite nth_error_app1 by (cbn; lia). reflexivity.
Qed.

Lemma findall_join (ts : list str) :
  forall prev,
    word_at prev = false ->
    Forall well_formed_token ts ->
    findall prev 0 (Py.join (lit " ") ts) = ts.
Proof.
  induction ts as [|t ts IH]; intros prev Wp F; [reflexivity|].
  inversion F as [|? ? Wf F']; subst.
  destruct ts as [|t2 ts].
  - cbn [Py.join]. rewrite <- (app_nil_r t) at 1.
    rewrite findall_token; auto.
  - change (Py.join (lit " ") (t :: t2 :: ts))
      with (t ++ " "%char :: Py.join (lit " ") (t2 :: ts)).
    rewrite findall_token; auto.
    + f_equal. destruct Wf as (_ & _ & Wl).
      rewrite findall_unfold. unfold match_at, boundary.
      cbn [nth_error Py.takewhile]. rewrite Wl.
      change (in_class " "%char) with false.
      change (word_at (Some " "%char)) with false.
      cbn [xorb length longest_end].
      apply IH; auto.
    + right. exists " "%char, (Py.join (lit " ") (t2 :: ts)). auto.
Qed.

Lemma lower_join (ts : list str) :
  Forall (Forall lowered) ts ->
  Py.lower (Py.join (lit " ") ts) = Py.join (lit " ") ts.
Proof.
  intros F. unfold Py.lower.
  rewrite <- (map_id (Py.join (lit " ") ts)) at 2.
  apply map_ext_Forall. change (Forall lowered (Py.join (lit " ") ts)).
  induction F as [|t ts Ht F IH]; [constructor|].
  destruct ts as [|t2 ts]; [exact Ht|].
  change (Py.join (lit " ") (t :: t2 :: ts))
    with (t ++ " "%char :: Py.join (lit " ") (t2 :: ts)).
  apply Forall_app. split; [exact Ht|]. constructor; [reflexivity | exact IH].
Qed.

Lemma tokenize_well_formed (text : str) :
  Forall well_formed_token (tokenize text) /\
  Forall (Forall lowered) (tokenize text).
Proof.
  unfold tokenize. split.
  - apply (findall_well_formed (length (Py.lower text))); [lia|].
    intros W; discriminate W.
  - apply findall_chars. unfold Py.lower. apply Forall_map.
    apply Forall_forall. intros c _. apply lower_char_idem.
Qed.

Lemma in_class_not_space (c : ascii) :
  in_class c = true -> Py.is_space c = false.
Proof.
  assert (forallb (fun c => implb (in_class c) (negb (Py.is_space c)))
                  all_ascii = true) as H by (vm_compute; reflexivity).
  intros A. rewrite forallb_forall in H.
  specialize (H c (all_ascii_complete c)). rewrite A in H.
  now apply negb_true_iff in H.
Qed.

Lemma tokenize_no_space (text : str) :
  Forall (Forall (fun c => Py.is_space c = false)) (tokenize text).
Proof.
  destruct (tokenize_well_formed text) as [Wf _].
  eapply Forall_impl; [|exact Wf]. intros t (F & _).
  eapply Forall_impl; [|exact F]. apply in_class_not_space.
Qed.

Lemma tokenize_join (ts : list str) :
  Forall well_formed_token ts -> Forall (Forall lowered) ts ->
  tokenize (detokenize ts) = ts.
Proof.
  intros Wf Lo. unfold tokenize, detokenize.
  rewrite lower_join by exact Lo. apply findall_join; auto.
Qed.

End TokenizerFacts.

(** C10. Tokenizing the space-joined tokens of a text gives the same
    tokens again: every token begins and ends with a word character,
    holds characters of the class only (so no white space) and is in
    lower case. *)
Theorem C10_tokenize_detokenize_stable (text : str) :
  Tokenizer.tokenize (Tokenizer.detokenize (Tokenizer.tokenize text))
  = Tokenizer.tokenize text /\
  Forall Reference.well_formed_token (Tokenizer.tokenize text) /\
  Forall (Forall (fun c => Py.is_space c = false)) (Tokenizer.tokenize text).
Proof.
  destruct (tokenize_well_formed text) as [Wf Lo].
  split; [apply tokenize_join; assumption|].
  split; [exact Wf | apply tokenize_no_space].
Qed.

(** ** The matcher of the patterns *)
Section RegexFacts.

Import Regex Reference.

Lemma nullable_matches (r : re) : nullable r = true <-> Matches r [].
Proof.
  split.
  - induction r as [| |p|a IHa b IHb|a IHa b IHb|a IHa]; cbn [nullable];
      intros H; try discriminate.
    + constructor.
    + apply andb_true_iff in H as [Ha Hb].
      change (@nil ascii) with (@nil ascii ++ []). constructor; auto.
    + apply orb_true_iff in H as [H|H];
        [apply MAltL | apply MAltR]; auto.
    + constructor.
  - intros H. remember (@nil ascii) as s eqn:E.
    induction H as [|p c Hc|a b s1 s2 Ha IHa Hb IHb|a b s Ha IHa|a b s Hb IHb
                    |a|a s1 s2 Ha IHa Hs IHs]; cbn [nullable]; try reflexivity.
    + discriminate E.
    + apply app_eq_nil in E as [-> ->]. now rewrite IHa, IHb.
    + now rewrite IHa.
    + rewrite IHb by exact E. apply orb_true_r.
Qed.

Lemma deriv_sound (r : re) (c : ascii) :
  forall s, Matches (deriv r c) s -> Matches r (c :: s).
Proof.
  induction r as [| |p|a IHa b IHb|a IHa b IHb|a IHa]; cbn [deriv]; intros s H.
  - inversion H.
  - inversion H.
  - destruct (p c) eqn:E; inversion H; subst. now constructor.
  - assert (forall t, Matches (Cat (deriv a c) b) t -> Matches (Cat a b) (c :: t))
      as L.
    { intros t Ht. inversion Ht; subst.
      change (c :: s1 ++ s2) with ((c :: s1) ++ s2). constructor; auto. }
    destruct (nullable a) eqn:N; [|apply L, H].
    inversion H; subst; [apply L; assumption|].
    change (c :: s) with ([] ++ c :: s). constructor; [|auto].
    now apply nullable_matches.
  - inversion H; subst; [apply MAltL | apply MAltR]; auto.
  - inversion H; subst.
    change (c :: s1 ++ s2) with ((c :: s1) ++ s2). constructor; auto.
Qed.

Lemma deriv_complete (r : re) (t : str) :
  Matches r t -> forall c s, t = c :: s -> Matches (deriv r c) s.
Proof.
  induction 1 as [|p x Hx|a b s1 s2 Ha IHa Hb IHb|a b u Ha IHa|a b u Hb IHb
                  |a|a s1 s2 Ha IHa Hs IHs]; intros c s E; cbn [deriv].
  - discriminate E.
  - inversion E; subst. rewrite Hx. constructor.
  - destruct s1 as [|x s1].
    + cbn [app] in E. apply nullable_matches in Ha. rewrite Ha.
      apply MAltR. now apply IHb.
    + cbn [app] in E. inversion E; subst.
      assert (Matches (Cat (deriv a c) b) (s1 ++ s2)) as M
        by (constructor; [now apply IHa | exact Hb]).
      destruct (nullable a); [apply MAltL|]; exact M.
  - apply MAltL. now apply IHa.
  - apply MAltR. now apply IHb.
  - discriminate E.
  - destruct s1 as [|x s1].
    + cbn [app] in E. now apply IHs.
    + cbn [app] in E. inversion E; subst.
      constructor; [now apply IHa | exact Hs].
Qed.

(** The matcher by derivatives decides the language of the pattern. *)
Lemma fullmatch_matches (s : str) :
  forall r, fullmatch r s = true <-> Matches r s.
Proof.
  unfold fullmatch. induction s as [|c s IH]; intros r; cbn [fold_left].
  - apply nullable_matches.
  - rewrite IH. split; [apply deriv_sound|].
    intros H. now apply (deriv_complete r (c :: s) H).
Qed.

End RegexFacts.

(** ** The skip policy *)
Section SkipPolicyFacts.

Import Regex JejemonNormalizer Reference.

(** The examples the source gives for its patterns. *)
Lemma number_patterns_examples :
  forallb (fun w => matches_any number_patterns (lit w))
    ["1999"; "2021"; "12/31/2021"; "1-1-21"; "12:30"; "3:45pm"; "3.14";
     "12.5"; "1,000"; "50%"; "#1"; "#123"; "$10"; "$15.50"]%string = true /\
  forallb (fun w => negb (matches_any number_patterns (lit w)))
    ["2"; "e2"; "22o"; "b4"; "123"; "$15.5"; "12:3"; "1/2"]%string = true.
Proof. split; vm_compute; reflexivity. Qed.

Lemma alphanumeric_patterns_examples :
  forallb (fun w => matches_any alphanumeric_patterns (lit w))
    ["ABC123"; "ABCD1234"; "abc123"; "123ABC"; "ABCDE-123"; "abc123de"]%string
  = true /\
  forallb (fun w => negb (matches_any alphanumeric_patterns (lit w)))
    ["22o"; "e2"; "b4"; "a12"; "12ab"; "h3llo"]%string = true.
Proof. split; vm_compute; reflexivity. Qed.

Lemma mem_str_In (x : str) (xs : list str) : Py.mem_str x xs = true <-> In x xs.
Proof.
  unfold Py.mem_str. rewrite existsb_exists. split.
  - intros (y & Hy & E). apply str_eqb_eq in E. now subst.
  - intros H. exists x. split; [exact H | apply str_eqb_refl].
Qed.

Lemma canonical_iff (nz : t) (word : str) :
  LexiconManager.is_in_words_txt (lexicon_manager nz) word = true
  <-> canonical nz word.
Proof. apply mem_str_In. Qed.

Lemma truthy_iff (o : option str) :
  Py.truthy o = true <-> exists v, o = Some v /\ v <> [].
Proof.
  destruct o as [[|c u]|]; cbn; split.
  - discriminate.
  - intros (v & E & N). inversion E; subst. congruence.
  - intros _. eexists; split; [reflexivity | discriminate].
  - reflexivity.
  - discriminate.
  - intros (v & E & _). discriminate.
Qed.

Lemma mapped_iff (nz : t) (word : str) :
  Py.truthy (LexiconManager.get_normal_word (lexicon_manager nz) word) = true
  <-> mapped nz word.
Proof. apply truthy_iff. Qed.

Lemma isdigit_iff (word : str) : Py.isdigit word = true <-> all_digits word.
Proof.
  unfold Py.isdigit, all_digits. destruct word as [|c w].
  - split; [discriminate | intros [N _]; congruence].
  - rewrite forallb_forall, Forall_forall. split.
    + intros H. split; [discriminate | exact H].
    + intros [_ H]. exact H.
Qed.

Lemma matches_any_iff (patterns : list re) (word : str) :
  matches_any patterns word = true
  <-> Exists (fun r => match_anchored r word = true) patterns.
Proof.
  unfold matches_any. rewrite existsb_exists, Exists_exists. reflexivity.
Qed.

Lemma should_apply_false_iff (nz : t) (word : str) :
  should_apply_character_replacement nz word = false <->
  canonical nz word \/ mapped nz word \/
  (all_digits word /\ 3 <= length word) \/
  numeric_format word \/ formal_code word.
Proof.
  unfold should_apply_character_replacement, numeric_format, formal_code.
  rewrite <- canonical_iff, <- mapped_iff, <- isdigit_iff,
    <- !matches_any_iff, <- Nat.leb_le, <- andb_true_iff.
  destruct (LexiconManager.is_in_words_txt _ _); [tauto|].
  destruct (Py.truthy _); [tauto|].
  destruct (Py.isdigit word && (3 <=? length word)); [tauto|].
  destruct (matches_any number_patterns word); [tauto|].
  destruct (matches_any alphanumeric_patterns word); [tauto|].
  split; [discriminate|].
  intros [H|[H|[H|[H|H]]]]; discriminate H.
Qed.

Lemma deriv_agree (r : re) (c c' : ascii) :
  agree r c c' = true -> deriv r c = deriv r c'.
Proof.
  induction r as [| |p|a IHa b IHb|a IHa b IHb|a IHa]; cbn [agree deriv];
    try reflexivity.
  - intros E. apply eqb_prop in E. now rewrite E.
  - intros E. apply andb_true_iff in E as [Ha Hb].
    now rewrite (IHa Ha), (IHb Hb).
  - intros E. apply andb_true_iff in E as [Ha Hb].
    now rewrite (IHa Ha), (IHb Hb).
  - intros Ha. now rewrite (IHa Ha).
Qed.

Lemma agree_deriv (r : re) (c c' d : ascii) :
  agree r c c' = true -> agree (deriv r d) c c' = true.
Proof.
  induction r as [| |p|a IHa b IHb|a IHa b IHb|a IHa]; cbn [agree deriv];
    try exact (fun H => H).
  - intros _. destruct (p d); reflexivity.
  - intros E. apply andb_true_iff in E as [Ha Hb].
    destruct (nullable a); cbn [agree]; rewrite ?IHa, ?IHb, ?Hb; auto.
  - intros E. apply andb_true_iff in E as [Ha Hb]. rewrite IHa, IHb; auto.
  - intros Ha. rewrite IHa; auto.
Qed.

Lemma fullmatch_map (f : ascii -> ascii) (s : str) :
  forall r, (forall c, agree r c (f c) = true) ->
            fullmatch r (map f s) = fullmatch r s.
Proof.
  unfold fullmatch. induction s as [|c s IH]; intros r A; [reflexivity|].
  cbn [map fold_left]. rewrite <- (deriv_agree r c (f c) (A c)).
  apply IH. intros x. apply agree_deriv, A.
Qed.

Lemma representative_line_feed (c : ascii) :
  Ascii.eqb (representative c) line_feed = Ascii.eqb c line_feed.
Proof.
  revert c.
  assert (forallb (fun c => Bool.eqb (Ascii.eqb (representative c) line_feed)
                                     (Ascii.eqb c line_feed)) all_ascii = true)
    as H by (vm_compute; reflexivity).
  intros c. rewrite forallb_forall in H.
  apply eqb_prop, H, all_ascii_complete.
Qed.

Lemma match_anchored_map (r : re) (word : str) :
  (forall c, agree r c (representative c) = true) ->
  match_anchored r (map representative word) = match_anchored r word.
Proof.
  intros A. unfold match_anchored.
  rewrite (fullmatch_map representative word r A), <- map_rev.
  destruct (rev word) as [|c before]; [reflexivity|].
  cbn [map]. rewrite representative_line_feed, <- map_rev.
  now rewrite (fullmatch_map representative (rev before) r A).
Qed.

Lemma patterns_agree (r : re) (c : ascii) :
  In r (number_patterns ++ alphanumeric_patterns) ->
  agree r c (representative c) = true.
Proof.
  assert (forallb
            (fun r => forallb (fun c => agree r c (representative c)) all_ascii)
            (number_patterns ++ alphanumeric_patterns) = true)
    as H by (vm_compute; reflexivity).
  intros Hr. rewrite forallb_forall in H. specialize (H r Hr).
  rewrite forallb_forall in H. apply H, all_ascii_complete.
Qed.

Lemma matches_any_map (patterns : list re) (word : str) :
  incl patterns (number_patterns ++ alphanumeric_patterns) ->
  matches_any patterns (map representative word) = matches_any patterns word.
Proof.
  intros I. unfold matches_any.
  induction patterns as [|r patterns IH]; [reflexivity|].
  cbn [existsb]. rewrite match_anchored_map.
  - rewrite IH; [reflexivity|]. intros x Hx. apply I. now right.
  - intros c. apply patterns_agree, I. now left.
Qed.

Lemma representative_alnum (c : ascii) :
  is_alnum c = true -> In (representative c) (lit "0amx").
Proof.
  assert (forallb (fun c => implb (is_alnum c)
                                  (Py.mem_char (representative c) (lit "0amx")))
                  all_ascii = true) as H by (vm_compute; reflexivity).
  intros A. rewrite forallb_forall in H.
  specialize (H c (all_ascii_complete c)). rewrite A in H. cbn [implb] in H.
  unfold Py.mem_char in H. apply existsb_exists in H as (x & Hx & E).
  apply Ascii.eqb_eq in E. now subst.
Qed.

(** No word of at most three letters and digits has a numeric format or
    is a formal code. *)
Lemma short_alnum_no_pattern (word : str) :
  Forall (fun c => is_alnum c = true) word -> length word <= 3 ->
  matches_any number_patterns word = false /\
  matches_any alphanumeric_patterns word = false.
Proof.
  intros F L.
  rewrite <- (matches_any_map number_patterns word)
    by (apply incl_appl, incl_refl).
  rewrite <- (matches_any_map alphanumeric_patterns word)
    by (apply incl_appr, incl_refl).
  destruct word as [|c1 [|c2 [|c3 [|c4 word]]]]; cbn in L; try lia;
    repeat match goal with
           | H : Forall _ (_ :: _) |- _ => inversion H; subst; clear H
           | H : is_alnum ?c = true |- _ => apply representative_alnum in H
           end;
    cbn [map];
    repeat match goal with
           | H : In _ (lit _) |- _ => cbn in H
           | H : _ \/ _ |- _ => destruct H as [<-|H]
           | H : False |- _ => destruct H
           end;
    split; vm_compute; reflexivity.
Qed.

Lemma should_apply_short_alnum (nz : t) (word : str) :
  Forall (fun c => is_alnum c = true) word -> length word <= 3 ->
  Py.isdigit word && (3 <=? length word) = false ->
  should_apply_character_replacement nz word =
  negb (LexiconManager.is_in_words_txt (lexicon_manager nz) word ||
        Py.truthy (LexiconManager.get_normal_word (lexicon_manager nz) word)).
Proof.
  intros F L D. unfold should_apply_character_replacement.
  destruct (short_alnum_no_pattern word F L) as [-> ->]. rewrite D.
  destruct (LexiconManager.is_in_words_txt _ _); [reflexivity|].
  destruct (Py.truthy _); reflexivity.
Qed.

Lemma eligible_iff (nz : t) (word : str) :
  should_apply_character_replacement nz word =
  negb (LexiconManager.is_in_words_txt (lexicon_manager nz) word ||
        Py.truthy (LexiconManager.get_normal_word (lexicon_manager nz) word)) ->
  (should_apply_character_replacement nz word = true
   <-> ~ canonical nz word /\ ~ mapped nz word).
Proof.
  intros ->. rewrite <- canonical_iff, <- mapped_iff.
  destruct (LexiconManager.is_in_words_txt _ _), (Py.truthy _); cbn;
    intuition congruence.
Qed.

Lemma digit_is_alnum (c : ascii) : Py.is_digit c = true -> is_alnum c = true.
Proof. unfold is_alnum. intros ->. apply orb_true_r. Qed.

Lemma alpha_not_digit (c : ascii) : Py.is_alpha c = true -> Py.is_digit c = false.
Proof.
  assert (forallb (fun c => implb (Py.is_alpha c) (negb (Py.is_digit c)))
                  all_ascii = true) as H by (vm_compute; reflexivity).
  intros A. rewrite forallb_forall in H.
  specialize (H c (all_ascii_complete c)). rewrite A in H.
  now apply negb_true_iff in H.
Qed.

End SkipPolicyFacts.

(** C4, as stated, fails: with the entry "x" mapped to the empty
    string, the word "x" has an entry in the lexicon and is eligible all
    the same. *)
Lemma C4_counterexample :
  ~ (forall (nz : JejemonNormalizer.t) (word : str),
        JejemonNormalizer.should_apply_character_replacement nz word = false <->
        Reference.canonical nz word \/ Reference.has_entry nz word \/
        (Reference.all_digits word /\ 3 <= length word) \/
        Reference.numeric_format word \/ Reference.formal_code word).
Proof.
  intros H.
  destruct
    (H (JejemonNormalizer.mk (LexiconManager.mk [(lit "x", [])] [] [] []) [])
       (lit "x")) as [_ B].
  assert (JejemonNormalizer.should_apply_character_replacement
            (JejemonNormalizer.mk (LexiconManager.mk [(lit "x", [])] [] [] []) [])
            (lit "x") = false) as E.
  { apply B. right. left. exists []. reflexivity. }
  vm_compute in E. discriminate E.
Qed.

(** C4, amended.  A word is exempt from the replacement of characters exactly
    when it is canonical, or the lexicon maps it (to a normal form that
    is not empty), or it is made of three digits or more, or it has one
    of the numeric formats, or it is one of the formal codes.  In
    particular a word of one or two digits, and a word of at most three
    letters and digits with a letter among them, are eligible as soon as
    they are neither canonical nor mapped. *)
Theorem C4_skip_policy (nz : JejemonNormalizer.t) (word : str) :
  (JejemonNormalizer.should_apply_character_replacement nz word = false <->
   Reference.canonical nz word \/ Reference.mapped nz word \/
   (Reference.all_digits word /\ 3 <= length word) \/
   Reference.numeric_format word \/ Reference.formal_code word) /\
  (Reference.all_digits word -> length word <= 2 ->
   (JejemonNormalizer.should_apply_character_replacement nz word = true
    <-> ~ Reference.canonical nz word /\ ~ Reference.mapped nz word)) /\
  (Forall (fun c => Reference.is_alnum c = true) word ->
   Exists (fun c => Py.is_alpha c = true) word ->
   length word <= 3 ->
   (JejemonNormalizer.should_apply_character_replacement nz word = true
    <-> ~ Reference.canonical nz word /\ ~ Reference.mapped nz word)).
Proof.
  split; [apply should_apply_false_iff|]. split.
  - intros [N D] L. apply eligible_iff, should_apply_short_alnum.
    + eapply Forall_impl; [|exact D]. apply digit_is_alnum.
    + lia.
    + replace (3 <=? length word) with false
        by (symmetry; apply Nat.leb_gt; lia).
      apply andb_false_r.
  - intros F E L. apply eligible_iff, should_apply_short_alnum; auto.
    apply andb_false_iff. left.
    destruct (Py.isdigit word) eqn:D; [|reflexivity].
    apply isdigit_iff in D as [_ D]. apply Exists_exists in E as (c & Hc & A).
    rewrite Forall_forall in D. specialize (D c Hc).
    rewrite (alpha_not_digit c A) in D. discriminate.
Qed.

Lemma C4_skip_policy_witness :
  Forall (fun c => Reference.is_alnum c = true) (lit "e2") /\
  Exists (fun c => Py.is_alpha c = true) (lit "e2") /\
  length (lit "e2") <= 3 /\
  JejemonNormalizer.should_apply_character_replacement
    (JejemonNormalizer.mk (LexiconManager.mk [] [] [] []) []) (lit "e2") = true.
Proof.
  assert (Forall (fun c => Reference.is_alnum c = true) (lit "e2")) as F
    by (repeat constructor).
  assert (Exists (fun c => Py.is_alpha c = true) (lit "e2")) as E
    by (apply Exists_cons_hd; reflexivity).
  assert (length (lit "e2") <= 3) as L by (cbn; lia).
  repeat (split; [assumption|]).
  apply (proj2 (proj2 (C4_skip_policy
                         (JejemonNormalizer.mk (LexiconManager.mk [] [] [] []) [])
                         (lit "e2"))) F E L).
  split.
  - intros [].
  - intros (v & [G _]). discriminate G.
Defined.

(** ** The resolution of a word *)
Section NormalizeWordFacts.

Import JejemonNormalizer Reference.

Lemma lookup_truthy (nz : t) (word : str) :
  lookup nz word =
  if Py.truthy (LexiconManager.get_normal_word (lexicon_manager nz) word)
  then LexiconManager.get_normal_word (lexicon_manager nz) word
  else None.
Proof.
  unfold lookup.
  destruct (LexiconManager.get_normal_word _ _) as [[|c v]|]; reflexivity.
Qed.

Lemma lookup_value (nz : t) (word : str) :
  Py.truthy (LexiconManager.get_normal_word (lexicon_manager nz) word) = true ->
  lookup nz word
  = Some (value (LexiconManager.get_normal_word (lexicon_manager nz) word)).
Proof.
  intros T. rewrite lookup_truthy, T.
  destruct (LexiconManager.get_normal_word _ _); [reflexivity | discriminate T].
Qed.

Lemma lookup_none (nz : t) (word : str) :
  Py.truthy (LexiconManager.get_normal_word (lexicon_manager nz) word) = false ->
  lookup nz word = None.
Proof. rewrite lookup_truthy. now intros ->. Qed.

Lemma above_threshold_dec (score : Q) :
  above_threshold score = if Qlt_le_dec (6 # 10) score then true else false.
Proof.
  unfold above_threshold. destruct (Qlt_le_dec (6 # 10) score) as [H|H].
  - now apply gtb_true.
  - now apply gtb_false.
Qed.

(** The test [if jejemon_words:] changes nothing: without keys the best
    score is 0. *)
Lemma fuzzy_lookup_reference (nz : t) (word : str) :
  fuzzy_lookup nz word
    (LexiconManager.get_all_jejemon_words (lexicon_manager nz))
  = fuzzy nz word.
Proof.
  unfold fuzzy_lookup, fuzzy, fuzzy_with.
  destruct (LexiconManager.get_all_jejemon_words (lexicon_manager nz))
    as [|k keys] eqn:K.
  - cbn. reflexivity.
  - destruct (FuzzyMatcher.find_best_match word (k :: keys)) as [best score].
    cbn [fst snd]. rewrite above_threshold_dec, lookup_truthy.
    destruct (Qlt_le_dec (6 # 10) score); reflexivity.
Qed.

Lemma normalize_word_reference (nz : t) (word : str) :
  normalize_word nz word = normalizeWord nz word.
Proof.
  unfold normalize_word, normalizeWord, resolve.
  fold (fuzzy nz word). fold (fuzzy nz (Lemmatizer.lemmatize word)).
  destruct (in_dec _ _ _) as [C|C].
  - apply canonical_iff in C. now rewrite C.
  - destruct (LexiconManager.is_in_words_txt _ _) eqn:W;
      [apply canonical_iff in W; contradiction|].
    cbn [first_success].
    destruct (Py.truthy (LexiconManager.get_normal_word _ word)) eqn:T.
    { now rewrite (lookup_value nz word T). }
    rewrite (lookup_none nz word T).
    rewrite !fuzzy_lookup_reference.
    assert (Py.Returns
              match fuzzy nz word with
              | Some matched_normal => matched_normal
              | None =>
                  if negb (Py.str_eqb (Lemmatizer.lemmatize word) word)
                  then
                    if Py.truthy
                         (LexiconManager.get_normal_word (lexicon_manager nz)
                            (Lemmatizer.lemmatize word))
                    then value
                           (LexiconManager.get_normal_word (lexicon_manager nz)
                              (Lemmatizer.lemmatize word))
                    else
                      match fuzzy nz (Lemmatizer.lemmatize word) with
                      | Some matched_normal => matched_normal
                      | None => word
                      end
                  else word
              end
            = first_success
                [ Py.Returns (fuzzy nz word);
                  Py.Returns
                    (if list_eq_dec ascii_dec (Lemmatizer.lemmatize word) word
                     then None else lookup nz (Lemmatizer.lemmatize word));
                  Py.Returns
                    (if list_eq_dec ascii_dec (Lemmatizer.lemmatize word) word
                     then None else fuzzy nz (Lemmatizer.lemmatize word)) ]
                word) as Tail.
    { cbn [first_success].
      destruct (fuzzy nz word) as [v|]; [reflexivity|].
      destruct (list_eq_dec ascii_dec (Lemmatizer.lemmatize word) word) as [E|E].
      + rewrite E, str_eqb_refl. reflexivity.
      + apply str_eqb_neq in E. rewrite E. cbn [negb].
        destruct (Py.truthy
                    (LexiconManager.get_normal_word _ (Lemmatizer.lemmatize word)))
          eqn:T'.
        * now rewrite (lookup_value nz _ T').
        * rewrite (lookup_none nz _ T').
          destruct (fuzzy nz (Lemmatizer.lemmatize word)); reflexivity. }
    destruct (should_apply_character_replacement nz word).
    + destruct (LexiconManager.apply_character_replacements _ word)
        as [modified|]; cbn [Py.bind]; [|reflexivity].
      assert ((if negb (Py.str_eqb modified word)
               then if Py.truthy (LexiconManager.get_normal_word
                                    (lexicon_manager nz) modified)
                    then LexiconManager.get_normal_word
                           (lexicon_manager nz) modified
                    else None
               else None)
              = lookup nz modified) as ->.
      { destruct (Py.str_eqb modified word) eqn:E; cbn [negb].
        - apply str_eqb_eq in E. rewrite E. symmetry. apply lookup_none, T.
        - symmetry. apply lookup_truthy. }
      destruct (lookup nz modified) as [v|]; [reflexivity | exact Tail].
    + cbn [Py.bind]. exact Tail.
Qed.

End NormalizeWordFacts.

(** C1, as stated, fails: with the entry "x" mapped to the empty
    string, the lookup of "x" finds an entry, yet the word comes back
    unchanged and not as the empty normal form. *)
Lemma C1_counterexample :
  ~ (forall (nz : JejemonNormalizer.t) (word : str),
        JejemonNormalizer.normalize_word nz word
        = Reference.normalizeWord_stated nz word).
Proof.
  intros H.
  specialize
    (H (JejemonNormalizer.mk (LexiconManager.mk [(lit "x", [])] [] [] []) [])
       (lit "x")).
  vm_compute in H. discriminate H.
Qed.

(** C1, amended.  [normalize_word] tries in this order, the first
    success giving the result: the canonical word set (the word comes
    back unchanged), the mapping of the word, the mapping of the word
    with its characters replaced when the word is eligible, the fuzzy
    rule on the word, then for a lemma that differs from the word the
    mapping of the lemma and the fuzzy rule on the lemma; without
    success the word comes back unchanged.  Throughout, a mapping is an
    entry of the lexicon whose normal form is not empty.  When the
    replacement of characters raises, on a malformed replacement
    template, the resolution ends there and raises. *)
Theorem C1_normalize_word_order (nz : JejemonNormalizer.t) (word : str) :
  JejemonNormalizer.normalize_word nz word = Reference.normalizeWord nz word /\
  (Reference.canonical nz word ->
   JejemonNormalizer.normalize_word nz word = Py.Returns word).
Proof.
  split; [apply normalize_word_reference|].
  intros C. rewrite normalize_word_reference.
  unfold Reference.normalizeWord, Reference.resolve.
  destruct (in_dec _ _ _) as [_|N]; [reflexivity | contradiction].
Qed.

Lemma C1_normalize_word_order_witness :
  Reference.canonical
    (JejemonNormalizer.mk (LexiconManager.mk [] [] [] [lit "hello"]) [])
    (lit "Hello") /\
  JejemonNormalizer.normalize_word
    (JejemonNormalizer.mk (LexiconManager.mk [] [] [] [lit "hello"]) [])
    (lit "Hello") = Py.Returns (lit "Hello").
Proof.
  assert (Reference.canonical
            (JejemonNormalizer.mk (LexiconManager.mk [] [] [] [lit "hello"]) [])
            (lit "Hello")) as C by (left; reflexivity).
  split; [exact C|].
  exact (proj2 (C1_normalize_word_order _ _) C).
Defined.

(** ** The evaluation of the punctuation *)
Section PunctuationFacts.

Import JejemonNormalizer Reference.

Lemma prefix_by_split (p s : str) :
  Py.prefix_by Ascii.eqb p s = true -> s = p ++ skipn (length p) s.
Proof. apply (startswith_split s p). Qed.

(** A marker [q :: r] replaced by [r], [q] being an apostrophe or a
    backtick, takes quotes away and nothing else. *)
Lemma unquote_replace_go (q : ascii) (r : str) :
  is_quote q = true ->
  forall (s : str) (k : nat),
    unquote (Py.replace_go Ascii.eqb (q :: r) r k s) = unquote (skipn k s).
Proof.
  intros Hq. induction s as [|c t IH]; intros k.
  - now destruct k.
  - destruct k as [|k]; cbn [Py.replace_go skipn]; [|apply IH].
    destruct (Py.prefix_by Ascii.eqb (q :: r) (c :: t)) eqn:P.
    + cbn [length Nat.sub]. rewrite Nat.sub_0_r.
      cbn [Py.prefix_by] in P. apply andb_true_iff in P as [E P].
      apply Ascii.eqb_eq in E; subst c.
      unfold unquote at 1. rewrite filter_app. fold (unquote r).
      fold (unquote (Py.replace_go Ascii.eqb (q :: r) r (length r) t)).
      rewrite IH. unfold unquote at 3. cbn [filter]. rewrite Hq. cbn [negb].
      fold (unquote t). rewrite (prefix_by_split r t P) at 2.
      unfold unquote. now rewrite filter_app.
    + unfold unquote. cbn [filter]. fold (unquote t).
      fold (unquote (Py.replace_go Ascii.eqb (q :: r) r 0 t)).
      now rewrite (IH 0).
Qed.

Lemma unquote_replace (q : ascii) (r w : str) :
  is_quote q = true -> unquote (Py.replace w (q :: r) r) = unquote w.
Proof.
  intros Hq. unfold Py.replace, Py.replace_by.
  now rewrite (unquote_replace_go q r Hq w 0).
Qed.

Lemma replace_absent (p r w : str) :
  Py.contains p w = false -> Py.replace w p r = w.
Proof.
  unfold Py.replace, Py.replace_by. destruct p as [|x p].
  - destruct w; discriminate.
  - induction w as [|c t IH]; intros C; [reflexivity|].
    cbn [Py.contains] in C. apply orb_false_iff in C as [P C].
    cbn [Py.replace_go]. rewrite P. now rewrite (IH C).
Qed.

Lemma marker_step_replace (w p r : str) :
  marker_step w (p, r) = Py.replace w p r.
Proof.
  unfold marker_step. destruct (Py.contains p w) eqn:C; [reflexivity|].
  symmetry. apply replace_absent, C.
Qed.

Lemma replace_single (q : ascii) (w : str) :
  Py.replace w [q] [] = filter (fun c => negb (Ascii.eqb q c)) w.
Proof.
  unfold Py.replace, Py.replace_by.
  induction w as [|c t IH]; [reflexivity|].
  cbn [Py.replace_go Py.prefix_by filter length Nat.sub app].
  rewrite andb_true_r. destruct (Ascii.eqb q c); cbn [negb]; now rewrite IH.
Qed.

(** Markers that all begin with a quote keep the unquoted word. *)
Lemma unquote_markers (markers : list (str * str)) :
  Forall (fun m => exists q, fst m = q :: snd m /\ is_quote q = true) markers ->
  forall w,
    unquote (fold_left (fun w m => Py.replace w (fst m) (snd m)) markers w)
    = unquote w.
Proof.
  induction 1 as [|[p r] markers (q & E & Hq) F IH]; intros w; [reflexivity|].
  cbn [fold_left fst snd] in *. subst p.
  now rewrite IH, unquote_replace.
Qed.

Lemma unquote_fixed (w : str) :
  Forall (fun c => is_quote c = false) w -> unquote w = w.
Proof.
  induction 1 as [|c t Hc F IH]; [reflexivity|].
  unfold unquote. cbn [filter]. rewrite Hc. cbn [negb].
  fold (unquote t). now rewrite IH.
Qed.

Lemma no_quote_left (w : str) :
  Forall (fun c => is_quote c = false)
    (filter (fun c => negb (Ascii.eqb "`" c))
       (filter (fun c => negb (Ascii.eqb "'" c)) w)).
Proof.
  apply Forall_forall. intros c H.
  apply filter_In in H as [H B]. apply filter_In in H as [_ A].
  apply negb_true_iff in A, B. unfold is_quote, Py.mem_char. cbn [lit list_ascii_of_string existsb].
  rewrite (ascii_eqb_sym c "'"), (ascii_eqb_sym c "`"), A, B. reflexivity.
Qed.

Lemma markers_begin_with_quote :
  Forall (fun m => exists q, fst m = q :: snd m /\ is_quote q = true)
         contraction_markers /\
  Forall (fun m => exists q, fst m = q :: snd m /\ is_quote q = true)
         word_markers.
Proof.
  split; repeat (constructor; [eexists; split; reflexivity|]); constructor.
Qed.

(** The modified candidate is the word without its apostrophes and
    backticks. *)
Lemma strip_markers_unquote (w : str) : strip_markers w = unquote w.
Proof.
  rewrite <- (unquote_markers contraction_markers
                (proj1 markers_begin_with_quote) w).
  fold (strip_markers w). symmetry. apply unquote_fixed.
  unfold strip_markers, contraction_markers.
  rewrite <- (firstn_skipn 7 (_ :: _)). rewrite fold_left_app.
  cbn [skipn fold_left fst snd lit list_ascii_of_string].
  rewrite !replace_single. apply no_quote_left.
Qed.

(** The markers of the code, where ['re] and the apostrophe come
    twice, give the same candidate. *)
Lemma word_markers_unquote (w : str) :
  fold_left marker_step word_markers w = unquote w.
Proof.
  assert (forall ms v, fold_left marker_step ms v =
                       fold_left (fun w m => Py.replace w (fst m) (snd m)) ms v)
    as R.
  { induction ms as [|[p r] ms IH]; intros v; [reflexivity|].
    cbn [fold_left fst snd]. now rewrite marker_step_replace, IH. }
  rewrite R.
  rewrite <- (unquote_markers word_markers (proj2 markers_begin_with_quote) w).
  symmetry. apply unquote_fixed.
  unfold word_markers.
  rewrite <- (firstn_skipn 8 (_ :: _)). rewrite fold_left_app.
  cbn [skipn fold_left fst snd lit list_ascii_of_string].
  rewrite !replace_single.
  apply Forall_forall. intros c H. apply filter_In in H as [H _].
  revert c H. apply Forall_forall, no_quote_left.
Qed.

Lemma has_meaningful_punctuation_iff (word : str) :
  has_meaningful_punctuation word = true <-> punctuated word.
Proof.
  unfold has_meaningful_punctuation, punctuated. rewrite existsb_exists.
  assert (forall c, Py.contains [c] word = true <-> In c word) as C.
  { intros c. induction word as [|x t IH].
    - cbn. split; [discriminate | tauto].
    - cbn [Py.contains Py.prefix_by In]. rewrite orb_true_iff, andb_true_r, IH.
      rewrite Ascii.eqb_eq. split; intros [->|H]; auto. }
  split.
  - intros (c & Hc & H). exists c. split; [apply C, H | exact Hc].
  - intros (c & Hw & Hc). exists c. split; [exact Hc | apply C, Hw].
Qed.

Lemma evaluate_punctuated (nz : t) (word : str) :
  evaluate_punctuation_value nz word =
  if has_meaningful_punctuation word then evaluatePunctuation nz word
  else (word, false).
Proof.
  unfold evaluate_punctuation_value, evaluatePunctuation.
  destruct (has_meaningful_punctuation word); [|reflexivity]. cbn [negb].
  rewrite word_markers_unquote, strip_markers_unquote.
  rewrite !lookup_truthy.
  destruct (LexiconManager.get_normal_word (lexicon_manager nz) word)
    as [[|c v]|];
    destruct (LexiconManager.get_normal_word (lexicon_manager nz) (unquote word))
      as [[|c' v']|]; reflexivity.
Qed.

End PunctuationFacts.

(** C2, as stated, fails: "juz", mapped to "just", holds no meaningful
    punctuation and comes back as it is with the flag false, where the
    precedence gives the mapping of the modified word with the flag
    true. *)
Lemma C2_counterexample :
  ~ (forall (nz : JejemonNormalizer.t) (word : str),
        JejemonNormalizer.evaluate_punctuation_value nz word
        = Reference.evaluatePunctuation nz word).
Proof.
  intros H.
  specialize
    (H (JejemonNormalizer.mk
          (LexiconManager.mk [(lit "juz", lit "just")] [] [] []) [])
       (lit "juz")).
  vm_compute in H. discriminate H.
Qed.

(** C2, amended.  For a word that holds a character of the meaningful
    punctuation, [evaluate_punctuation_value] strips the contraction
    markers to build the modified candidate (the word without its
    apostrophes and backticks), looks up the word and the candidate,
    and returns: the mapping of the word with the flag false when only
    the word is mapped; the mapping of the candidate with the flag true
    when the candidate is mapped, the word being mapped or not; the
    word itself with the flag false when neither is mapped.  A word
    without meaningful punctuation comes back as it is with the flag
    false, whatever the lexicon. *)
Theorem C2_evaluate_punctuation (nz : JejemonNormalizer.t) (word : str) :
  JejemonNormalizer.evaluate_punctuation_value nz word
  = (if JejemonNormalizer.has_meaningful_punctuation word
     then Reference.evaluatePunctuation nz word
     else (word, false)) /\
  (JejemonNormalizer.has_meaningful_punctuation word = true
   <-> Reference.punctuated word) /\
  Reference.strip_markers word = Reference.unquote word.
Proof.
  split; [apply evaluate_punctuated|].
  split; [apply has_meaningful_punctuation_iff | apply strip_markers_unquote].
Qed.

(** ** The resolution of a text *)
Section NormalizeTextFacts.

Import JejemonNormalizer Reference.



(** A loop of results whose body never raises is a [map]. *)
Lemma collect_each_returns {A B : Type} (body : A -> Py.outcome B) (f : A -> B)
    (l : list A) :
  (forall x, In x l -> body x = Py.Returns (f x)) ->
  Py.collect_each body l = Py.Returns (map f l).
Proof.
  induction l as [|x l IH]; intros H; [reflexivity|].
  cbn [Py.collect_each map]. rewrite (H x) by now left. cbn [Py.bind].
  rewrite IH by (intros y Hy; apply H; now right). reflexivity.
Qed.






End NormalizeTextFacts.




(** * Further properties *)

(** ** The edit distance is a metric *)
Section EditDistanceMetric.

Import EditDistance.

Lemma lev_zero (a : str) : forall b, lev a b = 0 -> a = b.
Proof.
  induction a as [|x a IH]; intros [|y b] H.
  - reflexivity.
  - rewrite lev_nil_l in H. discriminate H.
  - rewrite lev_nil_r in H. discriminate H.
  - rewrite lev_cons in H.
    destruct (Ascii.eqb x y) eqn:E; [|lia].
    apply Ascii.eqb_eq in E; subst y. f_equal. apply IH. lia.
Qed.

Lemma lev_lower (a : str) : forall b, length a <= lev a b + length b.
Proof.
  induction a as [|x a IHa]; intros b; [cbn; lia|].
  induction b as [|y b IHb].
  - rewrite lev_nil_r. lia.
  - rewrite lev_cons. cbn [length] in *.
    pose proof (IHa (y :: b)) as H1. pose proof (IHa b) as H2.
    cbn [length] in H1. destruct (Ascii.eqb x y); lia.
Qed.

Lemma cost_triangle (x y z : ascii) :
  (if Ascii.eqb x z then 0 else 1)
  <= (if Ascii.eqb x y then 0 else 1) + (if Ascii.eqb y z then 0 else 1).
Proof.
  destruct (Ascii.eqb x y) eqn:A, (Ascii.eqb y z) eqn:B,
    (Ascii.eqb x z) eqn:C; try lia.
  apply Ascii.eqb_eq in A, B. subst. rewrite Ascii.eqb_refl in C. discriminate.
Qed.

Lemma lev_triangle_bounded (n : nat) :
  forall a b c,
    length a + length b + length c <= n -> lev a c <= lev a b + lev b c.
Proof.
  induction n as [|n IH]; intros a b c H.
  - destruct a, b, c; cbn in H; cbn; lia.
  - destruct a as [|x a].
    { rewrite !lev_nil_l. pose proof (lev_lower c b) as L.
      rewrite (lev_sym c b) in L. lia. }
    destruct c as [|z c].
    { rewrite !lev_nil_r. pose proof (lev_lower (x :: a) b). lia. }
    destruct b as [|y b].
    { rewrite lev_nil_r, lev_nil_l.
      pose proof (lev_le_max (x :: a) (z :: c)). lia. }
    cbn [length] in H.
    pose proof (IH a (y :: b) (z :: c)) as T1.
    pose proof (IH (x :: a) (y :: b) c) as T2.
    pose proof (IH (x :: a) b (z :: c)) as T3.
    pose proof (IH (x :: a) b c) as T4.
    pose proof (IH a b (z :: c)) as T5.
    pose proof (IH a b c) as T6.
    cbn [length] in T1, T2, T3, T4, T5, T6.
    specialize (T1 ltac:(lia)). specialize (T2 ltac:(lia)).
    specialize (T3 ltac:(lia)). specialize (T4 ltac:(lia)).
    specialize (T5 ltac:(lia)). specialize (T6 ltac:(lia)).
    pose proof (cost_triangle x y z) as D.
    pose proof (lev_cons x z a c) as E1.
    pose proof (lev_cons x y a b) as E2.
    pose proof (lev_cons y z b c) as E3.
    lia.
Qed.

Lemma lev_triangle (a b c : str) : lev a c <= lev a b + lev b c.
Proof. apply (lev_triangle_bounded _ a b c (le_n _)). Qed.

Lemma rev_injective (a b : str) : rev a = rev b -> a = b.
Proof. intros H. rewrite <- (rev_involutive a), H. apply rev_involutive. Qed.

Lemma ratio_zero (n m : nat) : 0 < m -> (ratio n m == 0)%Q -> n = 0.
Proof.
  intros Hm H. destruct n as [|n]; [reflexivity|]. exfalso.
  assert (0 < ratio (S n) m)%Q as P.
  { unfold ratio. apply Qlt_shift_div_l.
    - replace 0%Q with (inject_Z 0) by reflexivity. rewrite <- Zlt_Qlt. lia.
    - rewrite Qmult_0_l. replace 0%Q with (inject_Z 0) by reflexivity.
      rewrite <- Zlt_Qlt. lia. }
  rewrite H in P. apply (Qlt_irrefl _ P).
Qed.

Lemma similarity_refl (a : str) : (similarity a a == 1)%Q.
Proof.
  rewrite similarity_unfold, calculate_refl.
  destruct (Nat.max (length a) (length a) =? 0); [reflexivity|].
  unfold ratio. cbn [Z.of_nat]. change (inject_Z 0) with 0%Q.
  unfold Qdiv. rewrite Qmult_0_l. reflexivity.
Qed.

Lemma similarity_one (a b : str) : (similarity a b == 1)%Q -> a = b.
Proof.
  rewrite similarity_unfold.
  destruct (Nat.max (length a) (length b) =? 0) eqn:E.
  - apply Nat.eqb_eq in E. intros _.
    destruct a, b; cbn in E; try lia. reflexivity.
  - apply Nat.eqb_neq in E. intros H.
    assert (ratio (calculate a b) (Nat.max (length a) (length b)) == 0)%Q as Z
      by lra.
    apply ratio_zero in Z; [|lia].
    rewrite calculate_lev in Z. apply lev_zero in Z. now apply rev_injective.
Qed.

Lemma similarity_sym (a b : str) : similarity a b = similarity b a.
Proof.
  rewrite !similarity_unfold, (calculate_sym a b), (Nat.max_comm (length a)).
  reflexivity.
Qed.

End EditDistanceMetric.

(** X1. The distance of two strings is 0 exactly when they are equal. *)
Theorem X1_distance_zero_iff_equal (a b : str) :
  EditDistance.calculate a b = 0 <-> a = b.
Proof.
  split.
  - rewrite calculate_lev. intros H. apply lev_zero in H.
    now apply rev_injective.
  - intros ->. apply calculate_refl.
Qed.

(** X2. The distance obeys the triangle inequality: going through a
    third string never costs less. *)
Theorem X2_distance_triangle (a b c : str) :
  EditDistance.calculate a c
  <= EditDistance.calculate a b + EditDistance.calculate b c.
Proof. rewrite !calculate_lev. apply lev_triangle. Qed.

(** X3. The distance is at least the difference of the lengths (and, for
    an empty string, it is the length of the other). *)
Theorem X3_distance_length_bounds (a b : str) :
  length a - length b <= EditDistance.calculate a b /\
  length b - length a <= EditDistance.calculate a b /\
  EditDistance.calculate a [] = length a /\
  EditDistance.calculate [] b = length b.
Proof.
  rewrite !calculate_lev.
  pose proof (lev_lower (rev a) (rev b)) as H1.
  pose proof (lev_lower (rev b) (rev a)) as H2.
  rewrite (lev_sym (rev b)) in H2. rewrite !length_rev in H1, H2.
  cbn [rev]. rewrite lev_nil_r, lev_nil_l, !length_rev. lia.
Qed.

(** X4. The similarity is symmetric, and it is 1 exactly when the two
    strings are equal. *)
Theorem X4_similarity_symmetric_and_one (a b : str) :
  EditDistance.similarity a b = EditDistance.similarity b a /\
  ((EditDistance.similarity a b == 1)%Q <-> a = b).
Proof.
  split; [apply similarity_sym|]. split.
  - apply similarity_one.
  - intros ->. apply similarity_refl.
Qed.

(** ** The matches above the threshold *)
Section FuzzyMatcherMore.

Import EditDistance FuzzyMatcher Reference.

Lemma collect_In (th : Q) (w : str) (cs : list str) (c : str) (sc : Q) :
  In (c, sc) (collect th w cs) <->
  In c cs /\ sc = similarity w c /\ (th <= sc)%Q.
Proof.
  induction cs as [|x cs IH]; cbn [collect In]; [tauto|].
  destruct (Qle_bool th (similarity w x)) eqn:E; cbn [In]; rewrite IH.
  - apply Qle_bool_iff in E. split.
    + intros [H|H]; [inversion H; subst; auto | tauto].
    + intros ([<-|H] & -> & L); [left; reflexivity | right; auto].
  - split; [tauto|]. intros ([<-|H] & -> & L); [|auto].
    apply Qle_bool_iff in L. congruence.
Qed.

Lemma collect_app (th : Q) (w : str) (a b : list str) :
  collect th w (a ++ b) = collect th w a ++ collect th w b.
Proof.
  induction a as [|x a IH]; [reflexivity|]. cbn [app collect].
  destruct (Qle_bool th (similarity w x)); cbn [app]; now rewrite IH.
Qed.

Lemma insert_by_score_perm (x : str * Q) (l : list (str * Q)) :
  Permutation (insert_by_score x l) (x :: l).
Proof.
  induction l as [|y l IH]; cbn [insert_by_score]; [reflexivity|].
  destruct (Qle_bool (snd y) (snd x)); [reflexivity|].
  rewrite IH. apply perm_swap.
Qed.

Lemma sorted_by_score_perm (l : list (str * Q)) :
  Permutation (sorted_by_score l) l.
Proof.
  induction l as [|x l IH]; cbn [sorted_by_score]; [reflexivity|].
  rewrite insert_by_score_perm. now constructor.
Qed.

Lemma insert_by_score_sorted (x : str * Q) (l : list (str * Q)) :
  StronglySorted higher_eq l -> StronglySorted higher_eq (insert_by_score x l).
Proof.
  induction 1 as [|y l S IH F]; cbn [insert_by_score].
  - repeat constructor.
  - destruct (Qle_bool (snd y) (snd x)) eqn:E.
    + apply Qle_bool_iff in E. constructor; [constructor; assumption|].
      constructor; [exact E|].
      eapply Forall_impl; [|exact F]. unfold higher_eq. intros z Hz.
      eapply Qle_trans; eassumption.
    + constructor; [exact IH|].
      eapply Permutation_Forall; [symmetry; apply insert_by_score_perm|].
      constructor; [|exact F]. unfold higher_eq.
      apply Qlt_le_weak, Qnot_le_lt. intros L.
      apply Qle_bool_iff in L. congruence.
Qed.

Lemma sorted_by_score_sorted (l : list (str * Q)) :
  StronglySorted higher_eq (sorted_by_score l).
Proof.
  induction l as [|x l IH]; cbn [sorted_by_score]; [constructor|].
  apply insert_by_score_sorted, IH.
Qed.

(** The head of the sorted list is the earliest entry of greatest
    score. *)
Lemma sorted_by_score_head (before : list (str * Q)) :
  forall (h : str * Q) (after : list (str * Q)),
    (forall y, In y before -> (snd y < snd h)%Q) ->
    (forall y, In y after -> (snd y <= snd h)%Q) ->
    hd_error (sorted_by_score (before ++ h :: after)) = Some h.
Proof.
  induction before as [|x before IH]; intros h after B A.
  - cbn [app sorted_by_score].
    assert (forall y, In y (sorted_by_score after) -> (snd y <= snd h)%Q) as A'.
    { intros y Hy. apply A.
      eapply Permutation_in; [apply sorted_by_score_perm | exact Hy]. }
    destruct (sorted_by_score after) as [|y l]; [reflexivity|].
    cbn [insert_by_score].
    rewrite (proj2 (Qle_bool_iff _ _) (A' y (or_introl eq_refl))). reflexivity.
  - cbn [app sorted_by_score].
    specialize (IH h after (fun y Hy => B y (or_intror Hy)) A).
    destruct (sorted_by_score (before ++ h :: after)) as [|y l];
      [discriminate IH|].
    cbn [hd_error] in IH. inversion IH; subst y.
    cbn [insert_by_score].
    destruct (Qle_bool (snd h) (snd x)) eqn:E; [|reflexivity].
    apply Qle_bool_iff in E. exfalso.
    apply (Qlt_not_le _ _ (B x (or_introl eq_refl)) E).
Qed.

Lemma best_match_of_listed_word (w : str) (cs : list str) :
  In w cs ->
  fst (find_best_match w cs) = w /\ (snd (find_best_match w cs) == 1)%Q.
Proof.
  intros Hw. unfold find_best_match.
  pose proof (similarity_refl w) as R.
  destruct (scan_spec w cs [] 0%Q) as [[E H]|(before & after & E & S & L & B & A)].
  - specialize (H w Hw). exfalso. lra.
  - cbn zeta in *. set (r := scan w cs (@pair str Q [] 0%Q)) in *.
    destruct (similarity_bounds w (fst r)) as [_ U].
    assert (snd r == similarity w (fst r))%Q as Sq by (now rewrite S).
    assert (snd r == 1)%Q as One.
    { rewrite E in Hw. apply in_app_or in Hw as [Hb|[Hm|Ha]].
      - specialize (B w Hb). exfalso. lra.
      - rewrite Sq, Hm. exact R.
      - specialize (A w Ha). lra. }
    split; [|exact One].
    symmetry. apply similarity_one.
    apply (Qeq_trans _ (snd r)); [apply Qeq_sym, Sq | exact One].
Qed.

End FuzzyMatcherMore.

(** X5. [find_matches_above_threshold] returns exactly the candidates
    whose similarity reaches the threshold, each with its similarity,
    ordered from the highest score to the lowest. *)
Theorem X5_matches_above_threshold (threshold : Q) (word : str)
    (candidates : list str) :
  (forall c sc,
      In (c, sc) (FuzzyMatcher.find_matches_above_threshold threshold word candidates)
      <-> In c candidates /\ sc = EditDistance.similarity word c /\
          (threshold <= sc)%Q) /\
  StronglySorted Reference.higher_eq
    (FuzzyMatcher.find_matches_above_threshold threshold word candidates) /\
  length (FuzzyMatcher.find_matches_above_threshold threshold word candidates)
  <= length candidates.
Proof.
  unfold FuzzyMatcher.find_matches_above_threshold. split; [|split].
  - intros c sc. rewrite <- collect_In. split; apply Permutation_in.
    + apply sorted_by_score_perm.
    + symmetry. apply sorted_by_score_perm.
  - apply sorted_by_score_sorted.
  - rewrite (Permutation_length (sorted_by_score_perm _)).
    induction candidates as [|c cs IH]; cbn [FuzzyMatcher.collect length];
      [lia|].
    destruct (Qle_bool threshold (EditDistance.similarity word c));
      cbn [length]; lia.
Qed.

(** X6. A word that is itself among the candidates is its own best
    match, with score 1. *)
Theorem X6_listed_word_is_best_match (word : str) (candidates : list str)
    (H : In word candidates) :
  fst (FuzzyMatcher.find_best_match word candidates) = word /\
  (snd (FuzzyMatcher.find_best_match word candidates) == 1)%Q.
Proof. apply best_match_of_listed_word, H. Qed.

Lemma X6_listed_word_is_best_match_witness :
  In (lit "juz") [lit "jus"; lit "juz"; lit "juzz"] /\
  fst (FuzzyMatcher.find_best_match (lit "juz") [lit "jus"; lit "juz"; lit "juzz"])
  = lit "juz".
Proof.
  assert (In (lit "juz") [lit "jus"; lit "juz"; lit "juzz"]) as H
    by (right; left; reflexivity).
  split; [exact H|].
  exact (proj1 (X6_listed_word_is_best_match _ _ H)).
Defined.

(** X7. When the best match scores above 0 and reaches the threshold,
    it is the first of the matches above the threshold, with the same
    score: the two searches agree, ties included. *)
Theorem X7_first_match_is_best_match (threshold : Q) (word : str)
    (candidates : list str)
    (Hpos : (0 < snd (FuzzyMatcher.find_best_match word candidates))%Q)
    (Hth : (threshold <= snd (FuzzyMatcher.find_best_match word candidates))%Q) :
  hd_error (FuzzyMatcher.find_matches_above_threshold threshold word candidates)
  = Some (FuzzyMatcher.find_best_match word candidates).
Proof.
  unfold FuzzyMatcher.find_matches_above_threshold.
  change (FuzzyMatcher.find_best_match word candidates)
    with (FuzzyMatcher.scan word candidates (@pair str Q [] 0%Q)) in *.
  destruct (scan_spec word candidates [] 0%Q)
    as [[E _]|(before & after & E & S & L & B & A)].
  - cbn zeta in E. rewrite E in Hpos. cbn [snd] in Hpos.
    exfalso. apply (Qlt_irrefl _ Hpos).
  - cbn zeta in *.
    set (r := FuzzyMatcher.scan word candidates (@pair str Q [] 0%Q)) in *.
    rewrite E at 1. rewrite collect_app. cbn [FuzzyMatcher.collect].
    rewrite <- S. rewrite (proj2 (Qle_bool_iff _ _) Hth).
    replace (fst r, snd r) with r by (destruct r; reflexivity).
    apply sorted_by_score_head.
    + intros [c sc] Hc. apply collect_In in Hc as (Hc & -> & _).
      cbn [snd]. apply B, Hc.
    + intros [c sc] Hc. apply collect_In in Hc as (Hc & -> & _).
      cbn [snd]. apply A, Hc.
Qed.

Lemma X7_first_match_is_best_match_witness :
  hd_error (FuzzyMatcher.find_matches_above_threshold (6 # 10) (lit "helo")
              [lit "world"; lit "hello"; lit "help"])
  = Some (FuzzyMatcher.find_best_match (lit "helo")
            [lit "world"; lit "hello"; lit "help"]).
Proof.
  apply X7_first_match_is_best_match.
  - vm_compute. reflexivity.
  - apply Qle_bool_iff. vm_compute. reflexivity.
Defined.

(** ** Tokenizing piece by piece *)
Section TokenizerLocality.

Import Tokenizer Reference.

Lemma in_class_lower (c : ascii) : in_class (Py.lower_char c) = in_class c.
Proof.
  assert (forallb (fun c => Bool.eqb (in_class (Py.lower_char c)) (in_class c))
                  all_ascii = true) as H by (vm_compute; reflexivity).
  rewrite forallb_forall in H. apply eqb_prop, H, all_ascii_complete.
Qed.

Lemma findall_prev (p p' : option ascii) (k : nat) (s : str) :
  word_at p = word_at p' -> findall p k s = findall p' k s.
Proof.
  intros E. destruct s as [|c t]; [reflexivity|].
  destruct k as [|k]; [|reflexivity].
  cbn [findall]. unfold match_at, boundary. now rewrite E.
Qed.

Lemma longest_end_range (s : str) (m e : nat) :
  longest_end s m = Some e -> 1 <= e <= m.
Proof.
  induction m as [|m IH]; cbn [longest_end]; [discriminate|].
  destruct (boundary _ _).
  - intros H; inversion H; subst. lia.
  - intros H. apply IH in H. lia.
Qed.

Lemma match_at_range (p : option ascii) (s : str) (e : nat) :
  match_at p s = Some e -> 1 <= e <= length s.
Proof.
  unfold match_at. destruct (boundary p (nth_error s 0)); [|discriminate].
  intros H. apply longest_end_range in H.
  pose proof (takewhile_length_le in_class s). lia.
Qed.

Section Separator.

Variables (sep : ascii) (b : str).
Hypothesis Hsep : in_class sep = false.

Lemma word_at_before_separator (s : str) (i : nat) :
  i <= length s ->
  word_at (nth_error (s ++ sep :: b) i) = word_at (nth_error s i).
Proof.
  intros H. destruct (Nat.eq_dec i (length s)) as [->|N].
  - rewrite nth_error_app2, Nat.sub_diag by lia. cbn [nth_error word_at].
    rewrite (not_in_class_not_word sep Hsep).
    now rewrite (proj2 (nth_error_None s (length s)) (le_n _)).
  - now rewrite nth_error_app1 by lia.
Qed.

Lemma takewhile_before_separator (s : str) :
  Py.takewhile in_class (s ++ sep :: b) = Py.takewhile in_class s.
Proof.
  induction s as [|c s IH]; cbn [app Py.takewhile].
  - now rewrite Hsep.
  - destruct (in_class c); [now rewrite IH | reflexivity].
Qed.

Lemma longest_end_before_separator (s : str) (e : nat) :
  e <= length s -> longest_end (s ++ sep :: b) e = longest_end s e.
Proof.
  induction e as [|e IH]; intros H; cbn [longest_end]; [reflexivity|].
  unfold boundary. rewrite !word_at_before_separator by lia.
  now rewrite IH by lia.
Qed.

Lemma match_at_before_separator (p : option ascii) (s : str) :
  match_at p (s ++ sep :: b) = match_at p s.
Proof.
  unfold match_at, boundary.
  rewrite word_at_before_separator by lia.
  rewrite takewhile_before_separator.
  now rewrite longest_end_before_separator by apply takewhile_length_le.
Qed.

(** The tokens found before a character outside the class do not
    depend on what follows, and the search starts afresh after it. *)
Lemma findall_before_separator (s : str) :
  forall (k : nat) (p : option ascii),
    k <= length s ->
    findall p k (s ++ sep :: b) = findall p k s ++ findall None 0 b.
Proof.
  induction s as [|c t IH]; intros k p H.
  - cbn [length] in H. replace k with 0 by lia. cbn [app findall].
    unfold match_at. cbn [Py.takewhile]. rewrite Hsep.
    cbn [length longest_end].
    destruct (boundary p (nth_error (sep :: b) 0));
      apply findall_prev; cbn [word_at];
      now rewrite (not_in_class_not_word sep Hsep).
  - cbn [length] in H. destruct k as [|k].
    + change ((c :: t) ++ sep :: b) with (c :: (t ++ sep :: b)).
      cbn [findall].
      change (c :: (t ++ sep :: b)) with ((c :: t) ++ sep :: b).
      rewrite match_at_before_separator.
      destruct (match_at p (c :: t)) as [e|] eqn:M.
      * apply match_at_range in M. cbn [length] in M.
        rewrite firstn_app.
        replace (e - length (c :: t)) with 0 by (cbn [length]; lia).
        cbn [firstn]. rewrite app_nil_r. cbn [app]. f_equal.
        apply IH. lia.
      * apply IH. lia.
    + change ((c :: t) ++ sep :: b) with (c :: (t ++ sep :: b)).
      cbn [findall]. apply IH. lia.
Qed.

End Separator.

Lemma tokenize_separator (a b : str) (sep : ascii) :
  in_class sep = false ->
  tokenize (a ++ sep :: b) = tokenize a ++ tokenize b.
Proof.
  intros H. unfold tokenize, Py.lower. rewrite map_app. cbn [map].
  apply findall_before_separator; [now rewrite in_class_lower | lia].
Qed.

End TokenizerLocality.

(** X8. A character outside the class of the pattern (a space, a
    comma, a dash ...) cuts the text in two: the tokens of the whole are
    the tokens of the part before followed by the tokens of the part
    after. *)
Theorem X8_tokenize_splits_at_separator (a b : str) (sep : ascii)
    (H : Tokenizer.in_class sep = false) :
  Tokenizer.tokenize (a ++ sep :: b)
  = Tokenizer.tokenize a ++ Tokenizer.tokenize b.
Proof. apply tokenize_separator, H. Qed.

Lemma X8_tokenize_splits_at_separator_witness :
  Tokenizer.in_class " "%char = false /\
  Tokenizer.tokenize (lit "Don't, stop" ++ " "%char :: lit "b3li3ving!")
  = Tokenizer.tokenize (lit "Don't, stop") ++ Tokenizer.tokenize (lit "b3li3ving!").
Proof.
  split; [reflexivity|].
  apply X8_tokenize_splits_at_separator. reflexivity.
Defined.

(** X9. The tokens of words joined by spaces are the tokens of the
    words, one word after the other. *)
Theorem X9_tokenize_joined_words (words : list str) :
  Tokenizer.tokenize (Py.join (lit " ") words)
  = flat_map Tokenizer.tokenize words.
Proof.
  induction words as [|w words IH]; [reflexivity|].
  destruct words as [|w2 words].
  - cbn [Py.join flat_map]. now rewrite app_nil_r.
  - change (Py.join (lit " ") (w :: w2 :: words))
      with (w ++ " "%char :: Py.join (lit " ") (w2 :: words)).
    rewrite tokenize_separator by reflexivity.
    rewrite IH. reflexivity.
Qed.

(** ** More on the lemmatizer *)
Section LemmatizerMore.

Import Lemmatizer.

Lemma prefix_table_long (p : str) : In p Reference.prefix_table -> 2 <= length p.
Proof.
  intros H. cbn in H.
  repeat (destruct H as [<-|H]; [cbn; lia|]). destruct H.
Qed.

Lemma suffix_table_long (s : str) : In s Reference.suffix_table -> 2 <= length s.
Proof.
  intros H. cbn in H.
  repeat (destruct H as [<-|H]; [cbn; lia|]). destruct H.
Qed.

Lemma lemmatize_long_or_same (word : str) :
  lemmatize word = word \/ 2 <= length (lemmatize word).
Proof.
  unfold lemmatize, lemmatize_with.
  match goal with |- context [length ?c <? 2] =>
    destruct (length c <? 2) eqn:E end.
  - left; reflexivity.
  - right. apply Nat.ltb_ge in E. exact E.
Qed.

Lemma lemmatize_short (word : str) :
  length word <= 3 -> lemmatize word = word.
Proof.
  intros L.
  destruct (lemmatize_long_or_same word) as [E|G]; [exact E|].
  destruct (lemmatize_one_pass word) as [E|(p & s & Hp & Hs & E)]; [exact E|].
  assert (length word = length p + length (lemmatize word) + length s) as Len.
  { rewrite E at 1. rewrite !length_app. lia. }
  destruct Hp as [->|Hp]; [|apply prefix_table_long in Hp; lia].
  destruct Hs as [->|Hs]; [|apply suffix_table_long in Hs; lia].
  rewrite E at 2. cbn [app]. now rewrite app_nil_r.
Qed.

Lemma startswith_app (w p q : str) :
  Py.startswith w (p ++ q) = true -> Py.startswith w p = true.
Proof.
  unfold Py.startswith. revert w; induction p as [|x p IH]; intros w H.
  - reflexivity.
  - destruct w as [|y w]; [discriminate|]. cbn [app Py.prefix_by] in *.
    apply andb_true_iff in H as [E H]. rewrite E. cbn [andb]. now apply IH.
Qed.

Lemma endswith_app (w p q : str) :
  Py.endswith w (p ++ q) = true ->
  Py.endswith w q = true /\ length p + length q <= length w.
Proof.
  intros H. pose proof (endswith_split w (p ++ q) H) as E.
  unfold Py.endswith in *. apply andb_true_iff in H as [L _].
  apply Nat.leb_le in L. rewrite length_app in L. split; [|exact L].
  apply andb_true_iff. split; [apply Nat.leb_le; lia|].
  apply str_eqb_eq.
  rewrite E at 2. rewrite app_assoc.
  rewrite skipn_app.
  rewrite skipn_all2 by (rewrite length_app, length_firstn, length_app; lia).
  rewrite length_app, length_firstn, !length_app.
  replace (length w - length q
           - (Nat.min (length w - (length p + length q)) (length w) + length p))
    with 0 by lia.
  reflexivity.
Qed.

(** The rules that never apply: a word that starts with "naging" starts
    with "nag", which comes first; a word that ends with "han" or "hin"
    ends with "an" or "in", which come first and leave a character. *)
Lemma strip_prefix_without_naging (w : str) :
  strip_prefix prefix_rules w =
  strip_prefix
    (filter (fun rule => negb (Py.str_eqb (fst rule) (lit "naging"))) prefix_rules)
    w.
Proof.
  rewrite !strip_prefix_find.
  change (Py.dict_keys prefix_rules) with Reference.prefix_table.
  change (Py.dict_keys
            (filter (fun rule => negb (Py.str_eqb (fst rule) (lit "naging")))
                    prefix_rules))
    with [lit "nag"; lit "naka"; lit "nai"; lit "napa"; lit "naki";
          lit "nang"; lit "na"].
  unfold Reference.prefix_table. cbn [find].
  destruct (Py.startswith w (lit "nag")) eqn:N; [reflexivity|].
  destruct (Py.startswith w (lit "naging")) eqn:G; [|reflexivity].
  apply (startswith_app w (lit "nag") (lit "ing")) in G. congruence.
Qed.

Lemma strip_suffix_without_han_hin (w : str) :
  strip_suffix (Py.dict_keys suffix_rules) w =
  strip_suffix
    (filter (fun suffix => negb (Py.mem_str suffix [lit "han"; lit "hin"]))
            (Py.dict_keys suffix_rules))
    w.
Proof.
  rewrite !strip_suffix_find.
  change (Py.dict_keys suffix_rules) with Reference.suffix_table.
  change (filter (fun suffix => negb (Py.mem_str suffix [lit "han"; lit "hin"]))
                 Reference.suffix_table)
    with [lit "ing"; lit "an"; lit "in"; lit "ng"; lit "on"; lit "un"].
  unfold Reference.suffix_table. cbn [find].
  assert (forall h rest,
             Py.endswith w rest && (length rest <? length w) = false ->
             Py.endswith w (h :: rest) && (length (h :: rest) <? length w) = false)
    as Dead.
  { intros h rest F. destruct (Py.endswith w (h :: rest)) eqn:E; [|reflexivity].
    apply (endswith_app w [h] rest) in E as [E L]. rewrite E in F.
    cbn [andb length] in *. apply Nat.ltb_ge in F. lia. }
  destruct (Py.endswith w (lit "ing") && _); [reflexivity|].
  destruct (Py.endswith w (lit "an") && _) eqn:An; [reflexivity|].
  destruct (Py.endswith w (lit "in") && _) eqn:In_; [reflexivity|].
  destruct (Py.endswith w (lit "ng") && _); [reflexivity|].
  change (lit "han") with ("h"%char :: lit "an").
  change (lit "hin") with ("h"%char :: lit "in").
  rewrite (Dead "h"%char (lit "an") An), (Dead "h"%char (lit "in") In_).
  reflexivity.
Qed.

End LemmatizerMore.

(** X10. A word of at most three characters is its own lemma. *)
Theorem X10_lemmatize_short_word (word : str) (H : length word <= 3) :
  Lemmatizer.lemmatize word = word.
Proof. apply lemmatize_short, H. Qed.

Lemma X10_lemmatize_short_word_witness :
  length (lit "nag") <= 3 /\ Lemmatizer.lemmatize (lit "nag") = lit "nag".
Proof.
  assert (length (lit "nag") <= 3) as H by (cbn; lia).
  split; [exact H | apply X10_lemmatize_short_word, H].
Defined.

(** X11. Three rules of the tables never apply: without the prefix
    "naging" and the suffixes "han" and "hin" the lemmatizer gives the
    same lemma for every word. *)
Theorem X11_lemmatizer_dead_rules (word : str) :
  Lemmatizer.lemmatize_with
    (filter (fun rule => negb (Py.str_eqb (fst rule) (lit "naging")))
            Lemmatizer.prefix_rules)
    (filter (fun rule => negb (Py.mem_str (fst rule) [lit "han"; lit "hin"]))
            Lemmatizer.suffix_rules)
    word
  = Lemmatizer.lemmatize word.
Proof.
  unfold Lemmatizer.lemmatize, Lemmatizer.lemmatize_with.
  rewrite <- strip_prefix_without_naging.
  change (Py.dict_keys
            (filter (fun rule => negb (Py.mem_str (fst rule) [lit "han"; lit "hin"]))
                    Lemmatizer.suffix_rules))
    with (filter (fun suffix => negb (Py.mem_str suffix [lit "han"; lit "hin"]))
                 (Py.dict_keys Lemmatizer.suffix_rules)).
  now rewrite <- strip_suffix_without_han_hin.
Qed.

(** ** The tables of the lexicon manager *)
Section LexiconTables.

Import LexiconManager Reference.

Lemma dict_get_set {V : Type} (d : list (str * V)) (k k' : str) (v : V) :
  Py.dict_get (Py.dict_set d k v) k' =
  if Py.str_eqb k k' then Some v else Py.dict_get d k'.
Proof.
  induction d as [|[k0 v0] d IH]; cbn [Py.dict_set Py.dict_get]; [reflexivity|].
  destruct (Py.str_eqb k0 k) eqn:E; cbn [Py.dict_get].
  - apply str_eqb_eq in E; subst k0.
    destruct (Py.str_eqb k k'); reflexivity.
  - rewrite IH. destruct (Py.str_eqb k0 k') eqn:E'; [|reflexivity].
    apply str_eqb_eq in E'; subst k'. now rewrite (proj2 (str_eqb_neq k k0))
      by (apply str_eqb_neq in E; congruence).
Qed.

Lemma dict_keys_set {V : Type} (d : list (str * V)) (k : str) (v : V) :
  Py.dict_keys (Py.dict_set d k v) =
  if Py.dict_mem d k then Py.dict_keys d else Py.dict_keys d ++ [k].
Proof.
  unfold Py.dict_mem, Py.dict_keys.
  induction d as [|[k0 v0] d IH]; cbn [Py.dict_set Py.dict_get map fst app];
    [reflexivity|].
  destruct (Py.str_eqb k0 k) eqn:E; cbn [map fst]; [reflexivity|].
  rewrite IH. destruct (Py.dict_get d k); reflexivity.
Qed.

Lemma lower_idem (w : str) : Py.lower (Py.lower w) = Py.lower w.
Proof.
  unfold Py.lower. rewrite map_map. apply map_ext. apply lower_char_idem.
Qed.

(** The value of a key after a run of assignments is that of the last
    assignment to the key. *)
Lemma dict_get_fold {V : Type} (l : list (str * V)) :
  forall (d : list (str * V)) (k : str),
    Py.dict_get (fold_left (fun d kv => Py.dict_set d (fst kv) (snd kv)) l d) k =
    match find (fun kv => Py.str_eqb (fst kv) k) (rev l) with
    | Some kv => Some (snd kv)
    | None => Py.dict_get d k
    end.
Proof.
  induction l as [|x l IH] using rev_ind; intros d k; [reflexivity|].
  rewrite fold_left_app, rev_app_distr. cbn [fold_left rev app find].
  rewrite dict_get_set. destruct (Py.str_eqb (fst x) k); [reflexivity|].
  apply IH.
Qed.

Lemma create_variant_to_letter_listings (lv : list (str * list str)) :
  create_variant_to_letter lv = Py.dict_of (listings lv).
Proof.
  unfold create_variant_to_letter, Py.dict_of, listings.
  generalize (@nil (str * str)) as d.
  induction lv as [|[letter variants] lv IH]; intros d; [reflexivity|].
  cbn [fold_left flat_map fst snd]. rewrite fold_left_app, IH. f_equal.
  clear IH. revert d. induction variants as [|v variants IHv]; intros d;
    [reflexivity|].
  cbn [fold_left map fst snd]. apply IHv.
Qed.

Lemma re_sub_absent (old repl w : str) :
  well_formed_template repl -> occurs_ci old w = false ->
  Py.re_sub_escape_ci old repl w = Py.Returns w.
Proof.
  intros [template T] C. unfold Py.re_sub_escape_ci. rewrite T.
  cbn [Py.bind]. f_equal. unfold Py.sub_by. destruct old as [|x old].
  - destruct w; discriminate.
  - revert C. induction w as [|c t IH]; intros C; [reflexivity|].
    cbn [occurs_ci] in C. apply orb_false_iff in C as [P C].
    cbn [Py.sub_go]. rewrite P. now rewrite (IH C).
Qed.

Lemma occurs_ci_whole (w : str) : occurs_ci (Py.lower w) w = true.
Proof.
  assert (Py.prefix_by Py.eqb_ci (Py.lower w) w = true) as P.
  { induction w as [|c t IH]; [reflexivity|].
    cbn [Py.lower map Py.prefix_by]. fold (Py.lower t). rewrite IH.
    unfold Py.eqb_ci. rewrite lower_char_idem, Ascii.eqb_refl. reflexivity. }
  destruct w; cbn [occurs_ci]; now rewrite P.
Qed.

Lemma variant_step_absent (idx : list (str * str)) (w v : str) :
  (forall base, Py.dict_get idx v = Some base -> well_formed_template base) ->
  occurs_ci v w = false -> variant_step idx w v = Py.Returns w.
Proof.
  intros Wf A. unfold variant_step.
  destruct (Py.dict_get idx v) as [base|]; [|reflexivity].
  destruct (Py.str_eqb v base); [reflexivity|].
  destruct (length v =? 1); [apply re_sub_absent; [now apply Wf | exact A]|].
  destruct (Py.str_eqb (Py.lower w) v) eqn:E; [|reflexivity].
  apply str_eqb_eq in E. subst v. rewrite occurs_ci_whole in A. discriminate.
Qed.

Lemma dict_get_In_values {V : Type} (d : list (str * V)) (k : str) (v : V) :
  Py.dict_get d k = Some v -> In v (Py.dict_values d).
Proof.
  unfold Py.dict_values.
  induction d as [|[k0 v0] d IH]; cbn [Py.dict_get map snd In]; [discriminate|].
  destruct (Py.str_eqb k0 k); [intros E; inversion E; now left|].
  intros E. right. now apply IH.
Qed.

Lemma apply_character_replacements_absent (lm : t) (w : str) :
  (forall v, In v (Py.dict_keys (variant_to_letter lm)) -> occurs_ci v w = false) ->
  (forall old, In old (Py.dict_keys (common_replacements lm)) ->
               occurs_ci old w = false) ->
  (forall letter, In letter (Py.dict_values (variant_to_letter lm)) ->
                  well_formed_template letter) ->
  (forall new, In new (Py.dict_values (common_replacements lm)) ->
               well_formed_template new) ->
  apply_character_replacements lm w = Py.Returns w.
Proof.
  intros Hv Hr Tv Tr. unfold apply_character_replacements.
  assert (Py.for_each (variant_step (variant_to_letter lm))
            (sorted_longest_first (Py.dict_keys (variant_to_letter lm))) w
          = Py.Returns w) as ->.
  { assert (forall v, In v (sorted_longest_first
                              (Py.dict_keys (variant_to_letter lm))) ->
                      occurs_ci v w = false) as Hs.
    { intros v Hin. apply Hv.
      eapply Permutation_in; [apply sorted_longest_first_perm | exact Hin]. }
    induction (sorted_longest_first (Py.dict_keys (variant_to_letter lm)))
      as [|v vs IH]; [reflexivity|].
    cbn [Py.for_each]. rewrite variant_step_absent.
    - cbn [Py.bind]. apply IH. intros x Hx. apply Hs. now right.
    - intros base G. apply Tv. eapply dict_get_In_values, G.
    - apply Hs. now left. }
  cbn [Py.bind]. unfold Py.dict_keys in Hr. unfold Py.dict_values in Tr.
  induction (common_replacements lm) as [|[old new] table IH]; [reflexivity|].
  cbn [Py.for_each]. unfold replacement_step at 1. cbn [fst snd].
  rewrite re_sub_absent; [|apply Tr; now left | apply Hr; now left].
  cbn [Py.bind]. apply IH.
  - intros x Hx. apply Hr. now right.
  - intros x Hx. apply Tr. now right.
Qed.

Lemma load_words_txt_In (lines : list str) (x : str) :
  In x (load_words_txt lines) <->
  exists line, In line lines /\ Py.strip line <> [] /\
               x = Py.lower (Py.strip line).
Proof.
  unfold load_words_txt. rewrite in_flat_map. split.
  - intros (line & Hl & Hx). exists line. split; [exact Hl|].
    destruct (Py.strip line) as [|c r] eqn:E; cbn in Hx; [destruct Hx|].
    destruct Hx as [<-|[]]. split; [discriminate | reflexivity].
  - intros (line & Hl & N & ->). exists line. split; [exact Hl|].
    destruct (Py.strip line) as [|c r]; [congruence|]. now left.
Qed.

End LexiconTables.

(** X12. After [add_mapping(jejemon, normal)] every casing of the
    jejemon word looks up to the lower-cased normal form, and every
    other word looks up as before; a new key comes last among the keys
    and a present key keeps its place. *)
Theorem X12_add_mapping_lookup (lm : LexiconManager.t) (jejemon normal word : str) :
  LexiconManager.get_normal_word
    (LexiconManager.add_mapping lm jejemon normal) word
  = (if Py.str_eqb (Py.lower jejemon) (Py.lower word)
     then Some (Py.lower normal)
     else LexiconManager.get_normal_word lm word) /\
  LexiconManager.get_all_jejemon_words
    (LexiconManager.add_mapping lm jejemon normal)
  = (if Py.dict_mem (LexiconManager.jejemon_to_normal lm) (Py.lower jejemon)
     then LexiconManager.get_all_jejemon_words lm
     else LexiconManager.get_all_jejemon_words lm ++ [Py.lower jejemon]).
Proof.
  unfold LexiconManager.get_normal_word, LexiconManager.get_all_jejemon_words,
    LexiconManager.add_mapping.
  cbn [LexiconManager.jejemon_to_normal].
  split; [apply dict_get_set | apply dict_keys_set].
Qed.

(** X15. The base letter of a variant is the letter of its last listing
    in the characters table, cases ignored; a variant that is listed
    nowhere has no base letter. *)
Theorem X15_base_letter_is_last_listing (lm : LexiconManager.t) (variant : str) :
  LexiconManager.get_base_letter lm variant =
  match find (fun listing => Py.str_eqb (fst listing) (Py.lower variant))
             (rev (Reference.listings (LexiconManager.letter_variants lm))) with
  | Some listing => Some (snd listing)
  | None => None
  end.
Proof.
  unfold LexiconManager.get_base_letter, LexiconManager.variant_to_letter.
  rewrite create_variant_to_letter_listings. unfold Py.dict_of.
  rewrite dict_get_fold. reflexivity.
Qed.

(** X16. A word in which no variant of the index and no key of the
    replacement table occurs, cases ignored, comes back unchanged from
    [apply_character_replacements], provided every letter of the index
    and every replacement value is a well-formed template of [re.sub]
    (a malformed one raises even when nothing is replaced). *)
Theorem X16_replacements_leave_clean_word (lm : LexiconManager.t) (word : str)
    (Hv : forall v, In v (Py.dict_keys (LexiconManager.variant_to_letter lm)) ->
                    Reference.occurs_ci v word = false)
    (Hr : forall old, In old (Py.dict_keys (LexiconManager.common_replacements lm)) ->
                      Reference.occurs_ci old word = false)
    (Tv : forall letter,
        In letter (Py.dict_values (LexiconManager.variant_to_letter lm)) ->
        Reference.well_formed_template letter)
    (Tr : forall new,
        In new (Py.dict_values (LexiconManager.common_replacements lm)) ->
        Reference.well_formed_template new) :
  LexiconManager.apply_character_replacements lm word = Py.Returns word.
Proof. apply apply_character_replacements_absent; assumption. Qed.

Lemma X16_replacements_leave_clean_word_witness :
  LexiconManager.apply_character_replacements
    (LexiconManager.mk [] [(lit "2", lit "to"); (lit "!", lit "\g<0>\n")]
       [(lit "e", [lit "3"; lit "|="])] [])
    (lit "Hello")
  = Py.Returns (lit "Hello").
Proof.
  apply X16_replacements_leave_clean_word.
  - intros v Hin. vm_compute in Hin.
    repeat (destruct Hin as [<-|Hin]; [vm_compute; reflexivity|]). destruct Hin.
  - intros old Hin. vm_compute in Hin.
    repeat (destruct Hin as [<-|Hin]; [vm_compute; reflexivity|]). destruct Hin.
  - intros letter Hin. vm_compute in Hin.
    repeat (destruct Hin as [<-|Hin]; [eexists; vm_compute; reflexivity|]).
    destruct Hin.
  - intros new Hin. vm_compute in Hin.
    repeat (destruct Hin as [<-|Hin]; [eexists; vm_compute; reflexivity|]).
    destruct Hin.
Defined.

(** X17. With the word set loaded from the lines of the words file, a
    word is canonical exactly when some line, stripped of its white space
    and not blank, equals it up to case. *)
Theorem X17_loaded_words_membership (j c : list (str * str))
    (lv : list (str * list str)) (lines : list str) (word : str) :
  LexiconManager.is_in_words_txt
    (LexiconManager.mk j c lv (LexiconManager.load_words_txt lines)) word = true
  <-> exists line,
      In line lines /\ Py.strip line <> [] /\
      Py.lower word = Py.lower (Py.strip line).
Proof.
  unfold LexiconManager.is_in_words_txt. cbn [LexiconManager.words_set].
  rewrite mem_str_In. apply load_words_txt_In.
Qed.

(** ** Adding a variant *)
Section AddVariant.

Import LexiconManager.

Lemma mem_str_app_last (x : str) (l : list str) : Py.mem_str x (l ++ [x]) = true.
Proof.
  apply mem_str_In, in_or_app. right. now left.
Qed.

(** The variants listed under the letter once its key is there. *)
Lemma add_variant_listed (vt : variant_tables) (letter : str) :
  let lv :=
    if negb (Py.dict_mem (forward vt) (Py.lower letter))
    then Py.dict_set (forward vt) (Py.lower letter) []
    else forward vt in
  Py.dict_mem lv (Py.lower letter) = true /\
  match Py.dict_get lv (Py.lower letter) with
  | Some variants => variants
  | None => []
  end = get_variants vt letter /\
  forall k, Py.str_eqb (Py.lower letter) k = false ->
            Py.dict_get lv k = Py.dict_get (forward vt) k.
Proof.
  cbn zeta. unfold get_variants, Py.dict_mem.
  destruct (Py.dict_get (forward vt) (Py.lower letter)) as [variants|] eqn:G;
    cbn [negb].
  - rewrite G. repeat split; reflexivity.
  - rewrite dict_get_set, str_eqb_refl. repeat split.
    intros k Hk. now rewrite dict_get_set, Hk.
Qed.

Lemma get_variants_add_variant (vt : variant_tables) (letter variant other : str) :
  get_variants (add_variant vt letter variant) other =
  if Py.str_eqb (Py.lower letter) (Py.lower other)
  then if Py.mem_str (Py.lower variant) (get_variants vt letter)
       then get_variants vt letter
       else get_variants vt letter ++ [Py.lower variant]
  else get_variants vt other.
Proof.
  destruct (add_variant_listed vt letter) as (M & L & F). cbn zeta in *.
  unfold add_variant. rewrite L.
  unfold get_variants at 1.
  destruct (Py.mem_str (Py.lower variant) (get_variants vt letter)) eqn:Mem;
    cbn [negb forward].
  - destruct (Py.str_eqb (Py.lower letter) (Py.lower other)) eqn:E.
    + apply str_eqb_eq in E. rewrite <- E. exact L.
    + rewrite (F _ E). reflexivity.
  - rewrite dict_get_set.
    destruct (Py.str_eqb (Py.lower letter) (Py.lower other)) eqn:E;
      [reflexivity|].
    rewrite (F _ E). reflexivity.
Qed.

Lemma base_letter_add_variant (vt : variant_tables) (letter variant other : str) :
  base_letter_of (add_variant vt letter variant) other =
  if Py.mem_str (Py.lower variant) (get_variants vt letter)
  then base_letter_of vt other
  else if Py.str_eqb (Py.lower variant) (Py.lower other)
       then Some (Py.lower letter)
       else base_letter_of vt other.
Proof.
  destruct (add_variant_listed vt letter) as (M & L & F). cbn zeta in *.
  unfold add_variant, base_letter_of. rewrite L.
  destruct (Py.mem_str (Py.lower variant) (get_variants vt letter));
    cbn [negb index]; [reflexivity|].
  apply dict_get_set.
Qed.

Lemma add_variant_twice (vt : variant_tables) (letter variant : str) :
  add_variant (add_variant vt letter variant) letter variant
  = add_variant vt letter variant.
Proof.
  pose proof (get_variants_add_variant vt letter variant letter) as G.
  rewrite str_eqb_refl in G.
  assert (Py.mem_str (Py.lower variant)
            (get_variants (add_variant vt letter variant) letter) = true) as Mem.
  { rewrite G. destruct (Py.mem_str (Py.lower variant) (get_variants vt letter))
      eqn:E; [exact E | apply mem_str_app_last]. }
  assert (Py.dict_mem (forward (add_variant vt letter variant)) (Py.lower letter)
          = true) as Key.
  { destruct (add_variant_listed vt letter) as (M & L & F). cbn zeta in *.
    unfold add_variant. rewrite L.
    destruct (Py.mem_str (Py.lower variant) (get_variants vt letter));
      cbn [negb forward]; [exact M|].
    unfold Py.dict_mem. now rewrite dict_get_set, str_eqb_refl. }
  set (vt' := add_variant vt letter variant) in *.
  unfold add_variant at 1. rewrite Key. cbn [negb].
  fold (get_variants vt' letter). rewrite Mem. cbn [negb].
  destruct vt'; reflexivity.
Qed.

End AddVariant.

(** X13. After [add_variant(letter, variant)] the letter lists the
    lower-cased variant (appended last when it was not listed) and the
    other letters list what they listed; a variant that was not listed
    under the letter now has the letter as its base letter, whatever it
    had before, and the other variants keep theirs. *)
Theorem X13_add_variant_lookup (vt : LexiconManager.variant_tables)
    (letter variant other : str) :
  LexiconManager.get_variants (LexiconManager.add_variant vt letter variant) other
  = (if Py.str_eqb (Py.lower letter) (Py.lower other)
     then if Py.mem_str (Py.lower variant) (LexiconManager.get_variants vt letter)
          then LexiconManager.get_variants vt letter
          else LexiconManager.get_variants vt letter ++ [Py.lower variant]
     else LexiconManager.get_variants vt other) /\
  LexiconManager.base_letter_of (LexiconManager.add_variant vt letter variant) other
  = (if Py.mem_str (Py.lower variant) (LexiconManager.get_variants vt letter)
     then LexiconManager.base_letter_of vt other
     else if Py.str_eqb (Py.lower variant) (Py.lower other)
          then Some (Py.lower letter)
          else LexiconManager.base_letter_of vt other) /\
  In (Py.lower variant)
     (LexiconManager.get_variants
        (LexiconManager.add_variant vt letter variant) letter).
Proof.
  split; [apply get_variants_add_variant|].
  split; [apply base_letter_add_variant|].
  rewrite get_variants_add_variant, str_eqb_refl.
  destruct (Py.mem_str (Py.lower variant) (LexiconManager.get_variants vt letter))
    eqn:E.
  - apply mem_str_In, E.
  - apply in_or_app. right. now left.
Qed.

(** X14. Adding the same variant to the same letter a second time
    changes nothing. *)
Theorem X14_add_variant_idempotent (vt : LexiconManager.variant_tables)
    (letter variant : str) :
  LexiconManager.add_variant
    (LexiconManager.add_variant vt letter variant) letter variant
  = LexiconManager.add_variant vt letter variant.
Proof. apply add_variant_twice. Qed.

(** ** More on the resolution of words and texts *)
Section NormalizerMore.

Import JejemonNormalizer Reference.

Lemma lookup_In_values (nz : t) (x v : str) :
  lookup nz x = Some v ->
  In v (LexiconManager.get_all_normal_words (lexicon_manager nz)).
Proof.
  unfold lookup, LexiconManager.get_normal_word,
    LexiconManager.get_all_normal_words.
  destruct (Py.dict_get _ _) as [[|c u]|] eqn:G; try discriminate.
  intros E; inversion E; subst. eapply dict_get_In_values, G.
Qed.

Lemma fuzzy_In_values (nz : t) (x v : str) :
  fuzzy nz x = Some v ->
  In v (LexiconManager.get_all_normal_words (lexicon_manager nz)).
Proof.
  unfold fuzzy, fuzzy_with. destruct (Qlt_le_dec _ _); [|discriminate].
  apply lookup_In_values.
Qed.

Lemma first_success_cases (P : str -> Prop)
    (attempts : list (Py.outcome (option str))) (fallback form : str) :
  (forall v, In (Py.Returns (Some v)) attempts -> P v) -> P fallback ->
  first_success attempts fallback = Py.Returns form -> P form.
Proof.
  induction attempts as [|[[v|]|] attempts IH]; intros H F E;
    cbn [first_success] in E.
  - inversion E; subst. exact F.
  - inversion E; subst. apply H. now left.
  - apply IH; [|exact F | exact E]. intros v Hv. apply H. now right.
  - discriminate E.
Qed.

Lemma normalize_word_word_or_value (nz : t) (word form : str) :
  normalize_word nz word = Py.Returns form ->
  form = word \/
  In form (LexiconManager.get_all_normal_words (lexicon_manager nz)).
Proof.
  rewrite normalize_word_reference. unfold normalizeWord, resolve.
  destruct (in_dec _ _ _); [intros E; inversion E; now left|].
  fold (fuzzy nz word). fold (fuzzy nz (Lemmatizer.lemmatize word)).
  apply (first_success_cases
           (fun v => v = word \/
                     In v (LexiconManager.get_all_normal_words (lexicon_manager nz))));
    [|now left].
  intros v Hv. right. cbn [In] in Hv.
  destruct Hv as [H|[H|[H|[H|[H|[]]]]]].
  - inversion H as [H']. eapply lookup_In_values, H'.
  - destruct (should_apply_character_replacement nz word); [|discriminate H].
    destruct (LexiconManager.apply_character_replacements _ word)
      as [rewritten|]; cbn [Py.bind] in H; [|discriminate H].
    inversion H as [H']. eapply lookup_In_values, H'.
  - inversion H as [H']. eapply fuzzy_In_values, H'.
  - inversion H as [H']. destruct (list_eq_dec _ _ _); [discriminate H'|].
    eapply lookup_In_values, H'.
  - inversion H as [H']. destruct (list_eq_dec _ _ _); [discriminate H'|].
    eapply fuzzy_In_values, H'.
Qed.

Lemma token_score_sym (a b : str) : token_score (a, b) = token_score (b, a).
Proof.
  unfold token_score. cbn [fst snd].
  destruct (list_eq_dec ascii_dec a b) as [E|N],
    (list_eq_dec ascii_dec b a) as [E'|N']; try congruence.
  apply similarity_sym.
Qed.

Lemma scores_combine_sym (x y : list str) :
  map token_score (combine x y) = map token_score (combine y x).
Proof.
  revert y; induction x as [|a x IH]; intros [|b y]; cbn [combine map];
    try reflexivity.
  now rewrite token_score_sym, IH.
Qed.

Lemma confidence_sym (a b : str) : confidence a b = confidence b a.
Proof.
  unfold confidence.
  destruct (list_eq_dec ascii_dec a b) as [E|N],
    (list_eq_dec ascii_dec b a) as [E'|N']; try congruence.
  set (ta := Tokenizer.tokenize a). set (tb := Tokenizer.tokenize b).
  destruct (Nat.eq_dec (length ta) (length tb)) as [L|L],
    (Nat.eq_dec (length tb) (length ta)) as [L'|L']; try congruence.
  destruct (Nat.eq_dec (length ta) 0) as [Hz|Hz],
    (Nat.eq_dec (length tb) 0) as [Hz'|Hz']; try lia; [reflexivity|].
  now rewrite scores_combine_sym.
Qed.

Lemma Qsum_same_tokens (ts : list str) :
  (Qsum (map token_score (combine ts ts)) == inject_Z (Z.of_nat (length ts)))%Q.
Proof.
  induction ts as [|x ts IH].
  - reflexivity.
  - cbn [combine map Qsum fold_right length].
    fold (Qsum (map token_score (combine ts ts))). rewrite IH.
    unfold token_score. cbn [fst snd].
    destruct (list_eq_dec ascii_dec x x) as [_|N]; [|congruence].
    rewrite Nat2Z.inj_succ. unfold Z.succ. rewrite inject_Z_plus.
    change (inject_Z 1) with 1%Q. apply Qplus_comm.
Qed.

Lemma confidence_same_tokens (a b : str) :
  a <> b -> Tokenizer.tokenize a = Tokenizer.tokenize b ->
  Tokenizer.tokenize a <> [] ->
  (confidence a b == 1)%Q.
Proof.
  intros N T E. unfold confidence.
  destruct (list_eq_dec ascii_dec a b); [contradiction|].
  rewrite <- T.
  destruct (Nat.eq_dec _ _) as [_|X]; [|congruence].
  destruct (Nat.eq_dec (length (Tokenizer.tokenize a)) 0) as [Hz|Hz].
  { apply length_zero_iff_nil in Hz. contradiction. }
  unfold mean. rewrite length_map, length_combine, Nat.min_id.
  rewrite Qsum_same_tokens. apply Qmult_inv_r.
  intros H. unfold Qeq, inject_Z in H. cbn [Qnum Qden] in H. lia.
Qed.

Lemma split_go_chars (P : ascii -> Prop) (s : str) :
  forall cur, Forall P cur -> Forall P s -> Forall (Forall P) (Py.split_go cur s).
Proof.
  induction s as [|c t IH]; intros cur Hc Hs; cbn [Py.split_go].
  - destruct cur; [constructor|]. constructor; [|constructor].
    apply Forall_rev, Hc.
  - inversion Hs; subst. destruct (Py.is_space c).
    + destruct cur; [now apply IH|].
      constructor; [apply Forall_rev, Hc | now apply IH].
    + apply IH; [now constructor | assumption].
Qed.

Lemma dropwhile_chars (P : ascii -> Prop) (p : ascii -> bool) (s : str) :
  Forall P s -> Forall P (Py.dropwhile p s).
Proof.
  induction 1 as [|c t Hc Ht IH]; cbn [Py.dropwhile]; [constructor|].
  destruct (p c); [exact IH | now constructor].
Qed.

Lemma join_chars (P : ascii -> Prop) (ws : list str) :
  P " "%char -> Forall (Forall P) ws -> Forall P (Py.join (lit " ") ws).
Proof.
  intros Hsp F. induction F as [|w ws Hw F IH]; [constructor|].
  destruct ws as [|w2 ws]; [exact Hw|].
  change (Py.join (lit " ") (w :: w2 :: ws))
    with (w ++ " "%char :: Py.join (lit " ") (w2 :: ws)).
  apply Forall_app. split; [exact Hw|]. now constructor.
Qed.

Lemma text_markers_unquote (text : str) :
  fold_left marker_step text_markers text = unquote text.
Proof.
  rewrite <- strip_markers_unquote. unfold strip_markers.
  change text_markers with contraction_markers.
  generalize contraction_markers as ms. intros ms. revert text.
  induction ms as [|[p r] ms IH]; intros text; [reflexivity|].
  cbn [fold_left fst snd]. now rewrite marker_step_replace, IH.
Qed.

Lemma unquote_no_quote (text : str) :
  Forall (fun c => is_quote c = false) (unquote text).
Proof.
  apply Forall_forall. intros c H. apply filter_In in H as [_ H].
  now apply negb_true_iff in H.
Qed.

Lemma punctuation_evaluation_no_quote (nz : t) (text : str) :
  Forall (fun c => is_quote c = false)
         (apply_punctuation_evaluation_to_text nz text).
Proof.
  unfold apply_punctuation_evaluation_to_text.
  rewrite text_markers_unquote.
  apply join_chars; [reflexivity|].
  apply Forall_map.
  pose proof (split_go_chars _ (unquote text) [] (Forall_nil _)
                (unquote_no_quote text)) as F.
  fold (Py.split (unquote text)) in F.
  eapply Forall_impl; [|exact F]. intros w Hw. cbn beta.
  destruct (Py.truthy _); [exact Hw|].
  unfold clean_word. apply Forall_rev, dropwhile_chars, Forall_rev,
    dropwhile_chars, Hw.
Qed.

End NormalizerMore.

(** X18. What [normalize_word] returns is the word itself or a normal
    form of the lexicon: it never makes a word up. *)
Theorem X18_normalize_word_word_or_value (nz : JejemonNormalizer.t)
    (word form : str)
    (H : JejemonNormalizer.normalize_word nz word = Py.Returns form) :
  form = word \/
  In form
     (LexiconManager.get_all_normal_words (JejemonNormalizer.lexicon_manager nz)).
Proof. now apply normalize_word_word_or_value. Qed.

Lemma X18_normalize_word_word_or_value_witness :
  lit "just" = lit "juzt" \/
  In (lit "just")
     (LexiconManager.get_all_normal_words
        (JejemonNormalizer.lexicon_manager
           (JejemonNormalizer.mk
              (LexiconManager.mk [(lit "juz", lit "just"); (lit "u", lit "you")]
                 [] [] [])
              []))).
Proof.
  apply (X18_normalize_word_word_or_value
           (JejemonNormalizer.mk
              (LexiconManager.mk [(lit "juz", lit "just"); (lit "u", lit "you")]
                 [] [] [])
              [])
           (lit "juzt") (lit "just")).
  vm_compute. reflexivity.
Defined.



(** X20. The confidence does not depend on the order of its two
    arguments. *)
Theorem X20_confidence_symmetric (original normalized : str) :
  (JejemonNormalizer.get_normalization_confidence original normalized
   == JejemonNormalizer.get_normalization_confidence normalized original)%Q.
Proof.
  rewrite !confidence_refines. rewrite (confidence_sym original normalized).
  reflexivity.
Qed.

(** X21. Two different strings with the same tokens (they differ by
    case, spacing or punctuation only) and at least one token have
    confidence 1, where equal strings have confidence 0. *)
Theorem X21_confidence_of_same_tokens (original normalized : str)
    (Hne : original <> normalized)
    (Htok : Tokenizer.tokenize original = Tokenizer.tokenize normalized)
    (Hsome : Tokenizer.tokenize original <> []) :
  (JejemonNormalizer.get_normalization_confidence original normalized == 1)%Q.
Proof. rewrite confidence_refines. now apply confidence_same_tokens. Qed.

Lemma X21_confidence_of_same_tokens_witness :
  (JejemonNormalizer.get_normalization_confidence
     (lit "Hello,  World!") (lit "hello world") == 1)%Q.
Proof.
  apply X21_confidence_of_same_tokens.
  - discriminate.
  - reflexivity.
  - discriminate.
Defined.

(** X23. No apostrophe and no backtick is left in the text after the
    evaluation of the punctuation, whatever the lexicon. *)
Theorem X23_punctuation_evaluation_removes_quotes (nz : JejemonNormalizer.t)
    (text : str) :
  Forall (fun c => Reference.is_quote c = false)
         (JejemonNormalizer.apply_punctuation_evaluation_to_text nz text).
Proof. apply punctuation_evaluation_no_quote. Qed.

(** ** Splitting and joining *)
Section SplitJoin.

Lemma split_go_word (w : str) :
  forall (cur rest : str),
    Forall (fun c => Py.is_space c = false) w ->
    Py.split_go cur (w ++ rest) = Py.split_go (rev w ++ cur) rest.
Proof.
  induction w as [|c w IH]; intros cur rest F; [reflexivity|].
  inversion F; subst. cbn [app Py.split_go rev]. rewrite H1.
  rewrite IH by assumption. now rewrite <- app_assoc.
Qed.

(** Words without white space joined by single spaces split back into
    themselves. *)
Lemma split_join (ws : list str) :
  Forall (fun w => w <> [] /\ Forall (fun c => Py.is_space c = false) w) ws ->
  Py.split (Py.join (lit " ") ws) = ws.
Proof.
  unfold Py.split. induction 1 as [|w ws [N F] Hws IH]; [reflexivity|].
  destruct ws as [|w2 ws].
  - cbn [Py.join]. rewrite <- (app_nil_r w) at 1.
    rewrite split_go_word by exact F. rewrite app_nil_r. cbn [Py.split_go].
    destruct (rev w) eqn:E.
    + apply (f_equal (@rev ascii)) in E. rewrite rev_involutive in E.
      cbn in E. contradiction.
    + rewrite <- E, rev_involutive. reflexivity.
  - change (Py.join (lit " ") (w :: w2 :: ws))
      with (w ++ " "%char :: Py.join (lit " ") (w2 :: ws)).
    rewrite split_go_word by exact F. rewrite app_nil_r.
    cbn [Py.split_go]. change (Py.is_space " "%char) with true. cbn iota.
    destruct (rev w) eqn:E.
    + apply (f_equal (@rev ascii)) in E. rewrite rev_involutive in E.
      cbn in E. contradiction.
    + rewrite <- E, rev_involutive. now rewrite IH.
Qed.

End SplitJoin.

(** ** A text of canonical words *)
Section CanonicalText.

Import JejemonNormalizer Reference.

Lemma plain_char_facts (c : ascii) :
  Py.is_lower c || Py.is_digit c = true ->
  Py.is_space c = false /\ is_quote c = false /\ strippable c = false /\
  Tokenizer.in_class c = true /\ Py.is_word c = true /\ Py.lower_char c = c.
Proof.
  assert (forallb
            (fun c => implb (Py.is_lower c || Py.is_digit c)
                        (negb (Py.is_space c) && negb (is_quote c) &&
                         negb (strippable c) && Tokenizer.in_class c &&
                         Py.is_word c && Ascii.eqb (Py.lower_char c) c))
            all_ascii = true) as H by (vm_compute; reflexivity).
  intros P. rewrite forallb_forall in H.
  specialize (H c (all_ascii_complete c)). rewrite P in H. cbn [implb] in H.
  repeat rewrite andb_true_iff in H. repeat rewrite negb_true_iff in H.
  rewrite Ascii.eqb_eq in H. tauto.
Qed.

Lemma plain_word_chars (P : ascii -> Prop) (w : str) :
  (forall c, Py.is_lower c || Py.is_digit c = true -> P c) ->
  plain_word w -> Forall P w.
Proof.
  intros H [_ F]. eapply Forall_impl; [|exact F]. exact H.
Qed.

Lemma clean_word_plain (w : str) : plain_word w -> clean_word w = w.
Proof.
  intros [N F]. unfold clean_word.
  assert (forall u, u <> [] ->
                    Forall (fun c => Py.is_lower c || Py.is_digit c = true) u ->
                    Py.dropwhile strippable u = u) as D.
  { intros [|c u] Nu Fu; [congruence|]. inversion Fu; subst.
    cbn [Py.dropwhile]. now rewrite (proj1 (proj2 (proj2 (plain_char_facts c H1)))). }
  rewrite (D w N F). rewrite D.
  - apply rev_involutive.
  - intros E. apply (f_equal (@rev ascii)) in E. rewrite rev_involutive in E.
    cbn in E. contradiction.
  - apply Forall_rev, F.
Qed.

Lemma plain_word_single_token (w : str) : plain_word w -> single_token w.
Proof.
  intros [N F]. split; [split; [|split]|].
  - eapply Forall_impl; [|exact F]. intros c Hc. apply plain_char_facts, Hc.
  - destruct w as [|c w]; [congruence|]. inversion F; subst. cbn.
    apply plain_char_facts, H1.
  - destruct (nth_error w (length w - 1)) as [c|] eqn:E.
    + cbn. rewrite Forall_forall in F.
      apply plain_char_facts, F. eapply nth_error_In, E.
    + apply nth_error_None in E. destruct w; [congruence | cbn in E; lia].
  - eapply Forall_impl; [|exact F]. intros c Hc. apply plain_char_facts, Hc.
Qed.

Lemma normalize_word_canonical (nz : t) (w : str) :
  canonical nz w -> normalize_word nz w = Py.Returns w.
Proof.
  intros C. unfold normalize_word.
  now rewrite (proj2 (canonical_iff nz w) C).
Qed.

Lemma should_apply_canonical (nz : t) (w : str) :
  canonical nz w -> should_apply_character_replacement nz w = false.
Proof.
  intros C. unfold should_apply_character_replacement.
  now rewrite (proj2 (canonical_iff nz w) C).
Qed.

Lemma map_fixed {A : Type} (f : A -> A) (l : list A) :
  Forall (fun x => f x = x) l -> map f l = l.
Proof.
  induction 1 as [|x l Hx F IH]; [reflexivity|]. cbn [map]. now rewrite Hx, IH.
Qed.

Lemma canonical_text_fixed (nz : t) (ws : list str) :
  Forall plain_word ws -> Forall (canonical nz) ws ->
  let text := Py.join (lit " ") ws in
  apply_punctuation_evaluation_to_text nz text = text /\
  apply_character_replacements_to_text nz text = Py.Returns text /\
  Tokenizer.tokenize text = ws /\
  Py.collect_each (normalize_word nz) ws = Py.Returns ws.
Proof.
  intros Wp Wc text.
  assert (Py.split text = ws) as Sp.
  { apply split_join. eapply Forall_impl; [|exact Wp].
    intros w Hw. split; [apply Hw|].
    apply (plain_word_chars _ w); [|exact Hw].
    intros c Hc. apply plain_char_facts, Hc. }
  assert (unquote text = text) as Uq.
  { apply unquote_fixed. apply join_chars; [reflexivity|].
    eapply Forall_impl; [|exact Wp]. intros w Hw.
    apply (plain_word_chars _ w); [|exact Hw].
    intros c Hc. apply plain_char_facts, Hc. }
  split; [|split; [|split]].
  - unfold apply_punctuation_evaluation_to_text.
    rewrite text_markers_unquote, Uq, Sp. unfold text. f_equal.
    apply map_fixed. eapply Forall_impl; [|exact Wp]. intros w Hw. cbn beta.
    destruct (Py.truthy _); [reflexivity | apply clean_word_plain, Hw].
  - unfold apply_character_replacements_to_text. rewrite Sp.
    rewrite (collect_each_returns _ (fun w => w)).
    + cbn [Py.bind]. now rewrite map_id.
    + intros w Hw. rewrite Forall_forall in Wc.
      now rewrite (should_apply_canonical nz w (Wc w Hw)).
  - apply tokenize_join.
    + eapply Forall_impl; [|exact Wp]. intros w Hw.
      apply plain_word_single_token, Hw.
    + eapply Forall_impl; [|exact Wp]. intros w Hw.
      apply plain_word_single_token, Hw.
  - rewrite (collect_each_returns _ (fun w => w)); [now rewrite map_id|].
    intros w Hw. rewrite Forall_forall in Wc.
    apply normalize_word_canonical, Wc, Hw.
Qed.

End CanonicalText.

(** X22. A text of canonical words written with lower-case letters and
    digits and joined by single spaces goes through the whole pipeline
    unchanged: [normalize_text] returns, whatever the tables hold, and
    every staged field of the result is the text. *)
Theorem X22_canonical_text_is_unchanged (nz : JejemonNormalizer.t)
    (words : list str)
    (Hplain : Forall Reference.plain_word words)
    (Hcanon : Forall (Reference.canonical nz) words) :
  JejemonNormalizer.normalize_text nz (Py.join (lit " ") words)
  = Py.Returns
      (JejemonNormalizer.mk_result
         (Py.join (lit " ") words) (Py.join (lit " ") words)
         (Py.join (lit " ") words) (Py.join (lit " ") words)
         (Py.join (lit " ") words)).
Proof.
  destruct (canonical_text_fixed nz words Hplain Hcanon) as (E1 & E2 & E3 & E4).
  cbn zeta in *. unfold JejemonNormalizer.normalize_text.
  rewrite E1, E2. cbn [Py.bind]. rewrite E3, E4. reflexivity.
Qed.

Lemma X22_canonical_text_is_unchanged_witness :
  JejemonNormalizer.normalize_text
    (JejemonNormalizer.mk
       (LexiconManager.mk [(lit "kumusta", lit "hello")] [(lit "2", lit "\q")]
          [(lit "e", [lit "3"])] [lit "kumusta"; lit "ka"; lit "2day"])
       [])
    (Py.join (lit " ") [lit "kumusta"; lit "ka"; lit "2day"])
  = Py.Returns
      (JejemonNormalizer.mk_result
         (lit "kumusta ka 2day") (lit "kumusta ka 2day") (lit "kumusta ka 2day")
         (lit "kumusta ka 2day") (lit "kumusta ka 2day")).
Proof.
  rewrite X22_canonical_text_is_unchanged.
  - reflexivity.
  - repeat (constructor; [split; [discriminate | repeat constructor]|]).
    constructor.
  - repeat (constructor; [cbv; auto 10|]). constructor.
Defined.

(** ** The text preprocessor *)
Section PreprocessorFacts.

Import TextPreprocessor Reference.

Lemma dropwhile_app_nil (p : ascii -> bool) (a b : str) :
  Py.dropwhile p a = [] -> Py.dropwhile p (a ++ b) = Py.dropwhile p b.
Proof.
  induction a as [|c a IH]; [reflexivity|]. cbn [Py.dropwhile app].
  destruct (p c); [exact IH | discriminate].
Qed.

Lemma dropwhile_app_stop (p : ascii -> bool) (a b : str) :
  Py.dropwhile p a <> [] -> Py.dropwhile p (a ++ b) = Py.dropwhile p a ++ b.
Proof.
  induction a as [|c a IH]; [now intros []|]. cbn [Py.dropwhile app].
  destruct (p c); [exact IH | reflexivity].
Qed.

Lemma rstrip_cons (c : ascii) (s : str) :
  rstrip (c :: s)
  = match rstrip s with
    | [] => if Py.is_space c then [] else [c]
    | _ :: _ => c :: rstrip s
    end.
Proof.
  unfold rstrip. cbn [rev].
  destruct (Py.dropwhile Py.is_space (rev s)) as [|x l] eqn:E.
  - rewrite dropwhile_app_nil by exact E. cbn [rev Py.dropwhile].
    destruct (Py.is_space c); reflexivity.
  - rewrite dropwhile_app_stop by (rewrite E; discriminate).
    rewrite E, rev_app_distr. cbn [rev app].
    destruct (rev l ++ [x]) eqn:E2; [|reflexivity].
    symmetry in E2. now apply app_cons_not_nil in E2.
Qed.

Lemma rstrip_app (a y : str) :
  rstrip (a ++ y)
  = match rstrip y with
    | [] => rstrip a
    | _ :: _ => a ++ rstrip y
    end.
Proof.
  induction a as [|c a IH].
  - cbn [app]. destruct (rstrip y); reflexivity.
  - cbn [app]. rewrite rstrip_cons, IH, (rstrip_cons c a).
    destruct (rstrip y) as [|x l]; [reflexivity|].
    destruct (a ++ x :: l) eqn:E; [|reflexivity].
    symmetry in E. now apply app_cons_not_nil in E.
Qed.

Lemma rstrip_word (c : ascii) (cur : str) :
  Py.is_space c = false -> rstrip (rev (c :: cur)) = rev (c :: cur).
Proof.
  intros H. unfold rstrip. rewrite rev_involutive. cbn [Py.dropwhile].
  now rewrite H.
Qed.

Lemma split_go_nonempty (s : str) :
  forall cur, Forall (fun w => w <> []) (Py.split_go cur s).
Proof.
  assert (forall c (cur : str), rev (c :: cur) <> []) as N.
  { intros c cur E. cbn [rev] in E. symmetry in E. now apply app_cons_not_nil in E. }
  induction s as [|c t IH]; intros cur; cbn [Py.split_go].
  - destruct cur; constructor; [apply N | constructor].
  - destruct (Py.is_space c); [|apply IH].
    destruct cur; [apply IH|]. constructor; [apply N | apply IH].
Qed.

Lemma join_nonempty (w : str) (ws : list str) :
  w <> [] -> Py.join (lit " ") (w :: ws) <> [].
Proof.
  intros N. destruct ws as [|w2 ws]; [exact N|].
  change (Py.join (lit " ") (w :: w2 :: ws))
    with (w ++ " "%char :: Py.join (lit " ") (w2 :: ws)).
  destruct w; [congruence | discriminate].
Qed.

(** The collapsed text, stripped on the right, is the words of the text
    joined by single spaces; [cur] is the word being read. *)
Lemma collapse_split (s : str) :
  (forall c cur, Py.is_space c = false ->
                 rstrip (rev (c :: cur) ++ collapse_spaces false s)
                 = Py.join (lit " ") (Py.split_go (c :: cur) s)) /\
  rstrip (collapse_spaces true s) = Py.join (lit " ") (Py.split_go [] s).
Proof.
  induction s as [|d t [IHA IHE]].
  - split; [|reflexivity]. intros c cur Hc. cbn [collapse_spaces Py.split_go].
    rewrite app_nil_r. now apply rstrip_word.
  - destruct (Py.is_space d) eqn:Sd; split.
    + intros c cur Hc. cbn [collapse_spaces Py.split_go]. rewrite Sd.
      rewrite rstrip_app, rstrip_cons, IHE, (rstrip_word c cur Hc).
      change (Py.is_space " "%char) with true. cbn iota.
      pose proof (split_go_nonempty t []) as Ne.
      destruct (Py.split_go [] t) as [|w ws]; [reflexivity|].
      inversion Ne; subst.
      destruct (Py.join (lit " ") (w :: ws)) as [|x l] eqn:E.
      * now apply join_nonempty in E.
      * change (Py.join (lit " ") (rev (c :: cur) :: w :: ws))
          with (rev (c :: cur) ++ " "%char :: Py.join (lit " ") (w :: ws)).
        now rewrite E.
    + cbn [collapse_spaces Py.split_go]. rewrite Sd. exact IHE.
    + intros c cur Hc. cbn [collapse_spaces Py.split_go]. rewrite Sd.
      rewrite <- (IHA d (c :: cur) Sd). f_equal.
      cbn [rev]. now rewrite <- !app_assoc.
    + cbn [collapse_spaces Py.split_go]. rewrite Sd.
      rewrite <- (IHA d [] Sd). reflexivity.
Qed.

Lemma collapse_no_leading_space (s : str) :
  Py.dropwhile Py.is_space (collapse_spaces true s) = collapse_spaces true s.
Proof.
  induction s as [|c t IH]; [reflexivity|]. cbn [collapse_spaces].
  destruct (Py.is_space c) eqn:Sc; [exact IH|].
  cbn [Py.dropwhile]. now rewrite Sc.
Qed.

Lemma lstrip_collapse (s : str) :
  Py.dropwhile Py.is_space (collapse_spaces false s) = collapse_spaces true s.
Proof.
  destruct s as [|c t]; [reflexivity|]. cbn [collapse_spaces].
  destruct (Py.is_space c) eqn:Sc.
  - cbn [Py.dropwhile]. change (Py.is_space " "%char) with true. cbn iota.
    apply collapse_no_leading_space.
  - cbn [Py.dropwhile]. now rewrite Sc.
Qed.

Lemma normalize_spaces_split_join (text : str) :
  normalize_spaces text = Py.join (lit " ") (Py.split text).
Proof.
  unfold normalize_spaces, Py.strip. rewrite lstrip_collapse.
  apply (proj2 (collapse_split text)).
Qed.

Lemma filter_fixed {A : Type} (p : A -> bool) (l : list A) :
  Forall (fun x => p x = true) l -> filter p l = l.
Proof.
  induction 1 as [|x l Hx F IH]; [reflexivity|]. cbn [filter].
  now rewrite Hx, IH.
Qed.

Lemma lower_join_map (ws : list str) :
  Py.lower (Py.join (lit " ") ws) = Py.join (lit " ") (map Py.lower ws).
Proof.
  induction ws as [|w ws IH]; [reflexivity|].
  destruct ws as [|w2 ws]; [reflexivity|].
  change (Py.join (lit " ") (w :: w2 :: ws))
    with (w ++ " "%char :: Py.join (lit " ") (w2 :: ws)).
  change (Py.join (lit " ") (map Py.lower (w :: w2 :: ws)))
    with (Py.lower w ++ " "%char :: Py.join (lit " ") (map Py.lower (w2 :: ws))).
  rewrite <- IH. unfold Py.lower. now rewrite map_app.
Qed.

Lemma kept_char_facts (c : ascii) :
  Py.is_alpha c || Py.is_digit c || Py.is_space c = true ->
  Py.is_space c = false ->
  Py.is_lower (Py.lower_char c) || Py.is_digit (Py.lower_char c) = true.
Proof.
  assert (forallb
            (fun c => implb (Py.is_alpha c || Py.is_digit c || Py.is_space c)
                        (Py.is_space c ||
                         (Py.is_lower (Py.lower_char c)
                          || Py.is_digit (Py.lower_char c))))
            all_ascii = true) as H by (vm_compute; reflexivity).
  intros K Sc. rewrite forallb_forall in H.
  specialize (H c (all_ascii_complete c)). rewrite K, Sc in H. exact H.
Qed.

Lemma plain_char_kept (c : ascii) :
  Py.is_lower c || Py.is_digit c || Ascii.eqb c " "%char = true ->
  Py.is_word c || Py.is_space c = true /\
  Py.is_alpha c || Py.is_digit c || Py.is_space c = true /\
  Py.lower_char c = c.
Proof.
  assert (forallb
            (fun c => implb (Py.is_lower c || Py.is_digit c || Ascii.eqb c " "%char)
                        ((Py.is_word c || Py.is_space c) &&
                         (Py.is_alpha c || Py.is_digit c || Py.is_space c) &&
                         Ascii.eqb (Py.lower_char c) c))
            all_ascii = true) as H by (vm_compute; reflexivity).
  intros K. rewrite forallb_forall in H.
  specialize (H c (all_ascii_complete c)). rewrite K in H. cbn [implb] in H.
  repeat rewrite andb_true_iff in H. rewrite Ascii.eqb_eq in H. tauto.
Qed.

(** The words of a text of letters, digits and white space, in lower
    case, are plain words. *)
Lemma split_go_plain (s : str) :
  forall cur,
    Forall (fun c => Py.is_lower c || Py.is_digit c = true) cur ->
    Forall (fun c => Py.is_lower c || Py.is_digit c = true \/
                     Py.is_space c = true) s ->
    Forall plain_word (Py.split_go cur s).
Proof.
  induction s as [|c t IH]; intros cur Hc Hs; cbn [Py.split_go].
  - destruct cur as [|x cur]; constructor; [|constructor]. split.
    + intros E. cbn [rev] in E. symmetry in E. now apply app_cons_not_nil in E.
    + apply Forall_rev, Hc.
  - inversion Hs as [|? ? Hd Ht]; subst. destruct (Py.is_space c) eqn:Sc.
    + destruct cur as [|x cur]; [apply IH; [constructor | exact Ht]|].
      constructor; [|apply IH; [constructor | exact Ht]]. split.
      * intros E. cbn [rev] in E. symmetry in E. now apply app_cons_not_nil in E.
      * apply Forall_rev, Hc.
    + apply IH; [|exact Ht]. constructor; [|exact Hc].
      destruct Hd as [Hd|Hd]; [exact Hd | congruence].
Qed.

Lemma split_lower (s : str) :
  forall cur,
    map Py.lower (Py.split_go cur s) = Py.split_go (Py.lower cur) (Py.lower s).
Proof.
  assert (forall c, Py.is_space (Py.lower_char c) = Py.is_space c) as Sp.
  { intros c.
    assert (forallb (fun c => Bool.eqb (Py.is_space (Py.lower_char c))
                                (Py.is_space c)) all_ascii = true) as H
        by (vm_compute; reflexivity).
    rewrite forallb_forall in H. apply eqb_prop, H, all_ascii_complete. }
  assert (forall cur, Py.lower (rev cur) = rev (Py.lower cur)) as R.
  { intros cur. unfold Py.lower. apply map_rev. }
  induction s as [|c t IH]; intros cur.
  - destruct cur as [|x cur]; [reflexivity|].
    change (Py.lower (x :: cur)) with (Py.lower_char x :: Py.lower cur).
    cbn [Py.split_go map Py.lower].
    f_equal. exact (R (x :: cur)).
  - change (Py.lower (c :: t)) with (Py.lower_char c :: Py.lower t).
    cbn [Py.split_go]. rewrite Sp. destruct (Py.is_space c).
    + destruct cur as [|x cur]; [apply (IH [])|].
      change (Py.lower (x :: cur)) with (Py.lower_char x :: Py.lower cur).
      cbn [map]. rewrite (IH []). f_equal. exact (R (x :: cur)).
    + apply (IH (c :: cur)).
Qed.

Lemma preprocess_words (text : str) :
  preprocess text
  = Py.join (lit " ")
      (Py.split (Py.lower (remove_special_characters (remove_punctuation text)))) /\
  Forall plain_word
    (Py.split (Py.lower (remove_special_characters (remove_punctuation text)))).
Proof.
  split.
  - unfold preprocess. rewrite normalize_spaces_split_join, lower_join_map.
    unfold Py.split. now rewrite split_lower.
  - unfold Py.split. apply split_go_plain; [constructor|].
    unfold Py.lower. apply Forall_map. unfold remove_special_characters.
    apply Forall_forall. intros c Hc. apply filter_In in Hc as [_ Hc].
    destruct (Py.is_space c) eqn:Sc.
    + right. assert (forallb (fun c => Bool.eqb (Py.is_space (Py.lower_char c))
                                         (Py.is_space c)) all_ascii = true) as H
          by (vm_compute; reflexivity).
      rewrite forallb_forall in H.
      rewrite (eqb_prop _ _ (H c (all_ascii_complete c))). exact Sc.
    + left. apply kept_char_facts; [|exact Sc]. now rewrite Sc.
Qed.

Lemma preprocess_plain (ws : list str) :
  Forall plain_word ws ->
  preprocess (Py.join (lit " ") ws) = Py.join (lit " ") ws.
Proof.
  intros Wp.
  assert (Forall (fun c => Py.is_lower c || Py.is_digit c || Ascii.eqb c " "%char = true)
                 (Py.join (lit " ") ws)) as Ch.
  { apply join_chars; [reflexivity|]. eapply Forall_impl; [|exact Wp].
    intros w [_ F]. eapply Forall_impl; [|exact F]. intros c Hc. cbn beta.
    now rewrite Hc. }
  unfold preprocess, remove_punctuation, remove_special_characters.
  rewrite (filter_fixed (fun c => Py.is_word c || Py.is_space c))
    by (eapply Forall_impl; [|exact Ch]; intros c Hc; apply plain_char_kept, Hc).
  rewrite filter_fixed
    by (eapply Forall_impl; [|exact Ch]; intros c Hc; apply plain_char_kept, Hc).
  rewrite normalize_spaces_split_join, split_join.
  - unfold Py.lower. rewrite <- (map_id (Py.join (lit " ") ws)) at 2.
    apply map_ext_Forall. eapply Forall_impl; [|exact Ch].
    intros c Hc. apply plain_char_kept, Hc.
  - eapply Forall_impl; [|exact Wp]. intros w [N F]. split; [exact N|].
    eapply Forall_impl; [|exact F]. intros c Hc. apply plain_char_facts, Hc.
Qed.

End PreprocessorFacts.

(** X24. [normalize_spaces] gives the words of the text, in the sense of
    [str.split()], joined by single spaces: no white space at either
    end, one space between two words, the words untouched. *)
Theorem X24_normalize_spaces_is_split_join (text : str) :
  TextPreprocessor.normalize_spaces text = Py.join (lit " ") (Py.split text).
Proof. apply normalize_spaces_split_join. Qed.

(** X25. The preprocessed text is a sequence of words joined by single
    spaces, each word not empty and written with lower-case letters and
    digits only; the words are those of the text once the other
    characters are removed and the case lowered. *)
Theorem X25_preprocess_gives_plain_words (text : str) :
  let words :=
    Py.split (Py.lower (TextPreprocessor.remove_special_characters
                          (TextPreprocessor.remove_punctuation text))) in
  TextPreprocessor.preprocess text = Py.join (lit " ") words /\
  Forall Reference.plain_word words.
Proof. apply preprocess_words. Qed.

(** X26. Preprocessing is idempotent: a preprocessed text is preprocessed
    into itself. *)
Theorem X26_preprocess_idempotent (text : str) :
  TextPreprocessor.preprocess (TextPreprocessor.preprocess text)
  = TextPreprocessor.preprocess text.
Proof.
  destruct (preprocess_words text) as [E F]. rewrite E.
  now apply preprocess_plain.
Qed.

(** ** All the variants *)
Section AllVariants.

Import LexiconManager.

Lemma get_variants_in_all (vt : variant_tables) (letter v : str) :
  In v (get_variants vt letter) -> In v (get_all_variants vt).
Proof.
  unfold get_variants, get_all_variants.
  destruct (Py.dict_get (forward vt) (Py.lower letter)) as [vs|] eqn:E;
    [|intros []].
  intros H. apply in_flat_map. exists vs. split; [|exact H].
  eapply dict_get_In_values, E.
Qed.

End AllVariants.

(** X27. [get_all_variants] covers every list that [get_variants]
    returns, and a variant just added with [add_variant] is among all
    the variants, in lower case. *)
Theorem X27_all_variants_cover_listed (vt : LexiconManager.variant_tables)
    (letter variant : str) :
  In (Py.lower variant)
     (LexiconManager.get_all_variants
        (LexiconManager.add_variant vt letter variant)) /\
  forall other v,
    In v (LexiconManager.get_variants vt other) ->
    In v (LexiconManager.get_all_variants vt).
Proof.
  split; [|intros other v; apply get_variants_in_all].
  apply (get_variants_in_all _ letter).
  rewrite get_variants_add_variant, str_eqb_refl.
  destruct (Py.mem_str (Py.lower variant) (LexiconManager.get_variants vt letter))
    eqn:E.
  - apply mem_str_In, E.
  - apply in_or_app. right. now left.
Qed.

Lemma X27_all_variants_cover_listed_witness :
  In (lit "4")
     (LexiconManager.get_all_variants
        (LexiconManager.mk_tables
           [(lit "e", [lit "3"]); (lit "a", [lit "4"; lit "@"])] [])).
Proof.
  apply (proj2 (X27_all_variants_cover_listed
                  (LexiconManager.mk_tables
                     [(lit "e", [lit "3"]); (lit "a", [lit "4"; lit "@"])] [])
                  [] []) (lit "A") (lit "4")).
  cbv. auto.
Defined.
